(** * btcd configuration loading (config.go)

    A shallow embedding of [config.go]: the layered configuration loader
    [loadConfig], the debug-level parser, the address normaliser and the
    dial/lookup dispatchers, with the properties the specification states
    about them. *)

From Stdlib Require Import ZArith QArith String Ascii List Bool Lia Permutation.
From Stdlib Require Import Sorting.Mergesort Sorting.Sorted Structures.Orders Structures.OrdersEx.
From stdpp Require Import base decidable list gmap strings sorting.

Local Open Scope string_scope.

(** ** The parts of Go's standard library that config.go calls *)

(** Go strings are byte sequences; [string] (a list of [ascii]) is the same
    data.  An index result of [-1] is rendered as [None]. *)
Module strings.

(** strings.HasPrefix(s, prefix) *)
Definition HasPrefix (s prefix : string) : bool := String.prefix prefix s.

(** strings.HasSuffix(s, suffix):
    len(s) >= len(suffix) && s[len(s)-len(suffix):] == suffix *)
Definition HasSuffix (s suffix : string) : bool :=
  (String.length suffix <=? String.length s)%nat
  && String.eqb
       (String.substring (String.length s - String.length suffix)
                         (String.length suffix) s)
       suffix.

(** strings.Contains(s, substr) *)
Fixpoint Contains (s substr : string) : bool :=
  String.prefix substr s
  || match s with
     | EmptyString => false
     | String _ s' => Contains s' substr
     end.

(** strings.IndexByte(s, c): the first position of [c]. *)
Fixpoint IndexByte (s : string) (c : ascii) : option nat :=
  match s with
  | EmptyString => None
  | String a s' =>
      if Ascii.eqb a c then Some 0%nat
      else option_map S (IndexByte s' c)
  end.

(** strings.LastIndexByte(s, c): the last position of [c]. *)
Fixpoint LastIndexByte (s : string) (c : ascii) : option nat :=
  match s with
  | EmptyString => None
  | String a s' =>
      match LastIndexByte s' c with
      | Some i => Some (S i)
      | None => if Ascii.eqb a c then Some 0%nat else None
      end
  end.

(** The slice expression s[i:j]. *)
Definition slice (s : string) (i j : nat) : string :=
  String.substring i (j - i) s.

(** The slice expression s[i:]. *)
Definition sliceFrom (s : string) (i : nat) : string :=
  String.substring i (String.length s - i) s.

(** strings.Split(s, sep) for a one-byte separator, which is how
    config.go calls it (on "," and on "="): the pieces between the
    separators, always at least one piece. *)
Fixpoint Split (s : string) (sep : ascii) : list string :=
  match s with
  | EmptyString => [EmptyString]
  | String a s' =>
      if Ascii.eqb a sep then EmptyString :: Split s' sep
      else match Split s' sep with
           | piece :: pieces => String a piece :: pieces
           | [] => [String a EmptyString]
           end
  end.

End strings.

(** Package net: host/port splitting and joining, after net/ipsock.go of
    the Go distribution. *)
Module net.

(** net.AddrError *)
Record AddrError := { Err : string; Addr : string }.

Definition missingPort := "missing port in address".
Definition tooManyColons := "too many colons in address".

Definition addrErr (addr why : string) : (string * string) + AddrError :=
  inr {| Err := why; Addr := addr |}.

(** The two closing checks of SplitHostPort, and the port. *)
Definition splitTail (hostport host : string) (i j k : nat)
  : (string * string) + AddrError :=
  if bool_decide (is_Some (strings.IndexByte (strings.sliceFrom hostport j) "["))
  then addrErr hostport "unexpected '[' in address"
  else if bool_decide (is_Some (strings.IndexByte (strings.sliceFrom hostport k) "]"))
  then addrErr hostport "unexpected ']' in address"
  else inl (host, strings.sliceFrom hostport (i + 1)).

(** net.SplitHostPort *)
Definition SplitHostPort (hostport : string) : (string * string) + AddrError :=
  (* The port starts after the last colon. *)
  match strings.LastIndexByte hostport ":" with
  | None => addrErr hostport missingPort
  | Some i =>
      if strings.HasPrefix hostport "["
      then
        (* Expect the first ']' just before the last ':'. *)
        match strings.IndexByte hostport "]" with
        | None => addrErr hostport "missing ']' in address"
        | Some end_ =>
            if (end_ + 1 =? String.length hostport)%nat
            then addrErr hostport missingPort
            else if (end_ + 1 =? i)%nat
            then splitTail hostport (strings.slice hostport 1 end_) i 1 (end_ + 1)
            else if bool_decide (String.get (end_ + 1) hostport = Some ":"%char)
            then addrErr hostport tooManyColons
            else addrErr hostport missingPort
        end
      else
        let host := strings.slice hostport 0 i in
        if bool_decide (is_Some (strings.IndexByte host ":"))
        then addrErr hostport tooManyColons
        else splitTail hostport host i 0 0
  end.

(** net.JoinHostPort: a host with a colon is taken for a literal IPv6
    address and bracketed. *)
Definition JoinHostPort (host port : string) : string :=
  if bool_decide (is_Some (strings.IndexByte host ":"))
  then "[" ++ host ++ "]:" ++ port
  else host ++ ":" ++ port.

End net.

(** ** Address normalisation *)

(** The loop of removeDuplicateAddresses: [seen] is the Go map used as a
    set, [result] the slice being appended to. *)
Fixpoint removeDuplicateLoop (seen : gset string) (result addrs : list string)
  : list string :=
  match addrs with
  | [] => result
  | val :: rest =>
      if decide (val ∈ seen)
      then removeDuplicateLoop seen result rest
      else removeDuplicateLoop ({[ val ]} ∪ seen) (result ++ [val]) rest
  end.

(** removeDuplicateAddresses returns a new slice with all duplicate entries
    in addrs removed. *)
Definition removeDuplicateAddresses (addrs : list string) : list string :=
  removeDuplicateLoop ∅ [] addrs.

(** normalizeAddress returns addr with the passed default port appended if
    there is not already a port specified. *)
Definition normalizeAddress (addr defaultPort : string) : string :=
  match net.SplitHostPort addr with
  | inr _ => net.JoinHostPort addr defaultPort
  | inl _ => addr
  end.

(** normalizeAddresses: every element is overwritten by its normal form,
    then duplicates are removed.  (The Go function also overwrites the
    caller's slice in place; every caller replaces that slice by the
    result.) *)
Definition normalizeAddresses (addrs : list string) (defaultPort : string)
  : list string :=
  removeDuplicateAddresses (map (fun addr => normalizeAddress addr defaultPort) addrs).

(** An address carries an explicit port when it splits into host and port. *)
Definition hasPort (addr : string) : Prop :=
  ∃ host port, net.SplitHostPort addr = inl (host, port).

Definition hasPortb (addr : string) : bool :=
  match net.SplitHostPort addr with inl _ => true | inr _ => false end.

(** The map [seen] of removeDuplicateAddresses holds exactly the entries
    appended so far. *)
Definition seenMatches (seen : gset string) (result : list string) : Prop :=
  ∀ x, x ∈ seen ↔ x ∈ result.

(** First-seen order: when [x] comes before [y] in the result, the first
    occurrence of [x] in the input comes before every occurrence of [y]. *)
Definition firstSeenOrder (input result : list string) : Prop :=
  ∀ (i j : nat) (x y : string),
    result !! i = Some x → result !! j = Some y → (i < j)%nat →
    ∃ before after : list string,
      input = (before ++ x :: after)%list ∧ (x ∉ before) ∧ (y ∉ before).

(** ** Errors, output and the function-valued configuration fields *)

(** Go error values, by the dynamic type the code can tell apart.
    [Errorf] keeps the format string and its arguments. *)
Inductive error :=
| Errorf (format : string) (args : list fmtArg)      (* fmt.Errorf *)
| ErrorsNew (text : string)                          (* errors.New *)
| PathError (Op Path Err : string)                   (* os.PathError *)
| FlagsError (isHelp : bool) (Message : string)      (* flags.Error; Type == flags.ErrHelp *)
| DNSError (Err Name : string)                       (* net.DNSError *)
| OtherError (text : string)                         (* any other library error *)
with fmtArg :=
| ArgString (s : string)
| ArgInt (z : Z)
| ArgStrings (l : list string)
| ArgError (e : error).

(** The type assertion of err to a pointer to os.PathError. *)
Definition isPathError (err : error) : bool :=
  match err with PathError _ _ _ => true | _ => false end.

(** The condition [!ok || e.Type != flags.ErrHelp], where [e, ok] is the
    type assertion of err to a pointer to flags.Error. *)
Definition notHelpRequest (err : error) : bool :=
  match err with FlagsError true _ => false | _ => true end.

(** flags.Options as used here: flags.None and flags.Default. *)
Inductive flagsOptions := flags_None | flags_Default.

(** What loadConfig does to the outside world, in order. *)
Inductive Event :=
| MkdirAll (path : string)                     (* os.MkdirAll(btcdHomeDir, 0700) *)
| LogErrorf (err : error)                      (* btcdLog.Errorf *)
| LogWarnf (err : error)                       (* btcdLog.Warnf *)
| ParseArgs (options : flagsOptions)           (* parser.Parse() *)
| ParseFile (path : string)                    (* NewIniParser(parser).ParseFile *)
| PrintVersion                                 (* fmt.Println(appName, "version", ...) *)
| RunServiceCommand (command : string)
| Stderr (err : error)                         (* fmt.Fprintln(os.Stderr, err) *)
| WriteHelp                                    (* parser.WriteHelp(os.Stderr) *)
| PrintSubsystems (subsystems : list string)   (* fmt.Println("Supported subsystems", ...) *)
| InitSeelogLogger (logFile : string)
| SetLogLevels (logLevel : string)             (* setLogLevels *)
| SetLogLevel (subsysID logLevel : string)     (* setLogLevel *)
| LookupHost (host : string).                  (* net.LookupHost *)

(** socks.Proxy *)
Record socks_Proxy := { Addr : string; Username : string; Password : string }.

(** The values the fields [dial] and [oniondial] can hold. *)
Inductive dialFunc :=
| net_Dial                       (* net.Dial *)
| proxy_Dial (proxy : socks_Proxy) (* the method value proxy.Dial *)
| onionProxyDial                 (* the closure building a socks.Proxy from
                                    cfg.OnionProxy, cfg.OnionProxyUser and
                                    cfg.OnionProxyPass on each call *)
| dialTorDisabled.               (* returns errors.New("tor has been disabled") *)

(** The values the fields [lookup] and [onionlookup] can hold. *)
Inductive lookupFunc :=
| net_LookupIP                   (* net.LookupIP *)
| torLookupViaProxy              (* torLookupIP(host, cfg.Proxy) *)
| torLookupViaOnionProxy         (* torLookupIP(host, cfg.OnionProxy) *)
| lookupTorDisabled.             (* returns errors.New("tor has been disabled") *)

(** A decoded btcutil.Address, kept by its encoded form. *)
Inductive Address := DecodedAddress (encoded : string).

(** ** The configuration record *)

(** config defines the configuration options for btcd.  The integer
    fields (int, uint32, and time.Duration, an int64 count of nanoseconds)
    are in [Z]: loadConfig only compares them.  FreeTxRelayLimit, a
    float64 that loadConfig never inspects, holds a rational.  A nil
    function field is [None]. *)
Record config := {
  ShowVersion : bool;
  ConfigFile : string;
  DataDir : string;
  LogDir : string;
  AddPeers : list string;
  ConnectPeers : list string;
  DisableListen : bool;
  Listeners : list string;
  MaxPeers : Z;
  BanDuration : Z;
  RPCUser : string;
  RPCPass : string;
  RPCListeners : list string;
  RPCCert : string;
  RPCKey : string;
  RPCMaxClients : Z;
  RPCMaxWebsockets : Z;
  DisableRPC : bool;
  DisableDNSSeed : bool;
  ExternalIPs : list string;
  Proxy : string;
  ProxyUser : string;
  ProxyPass : string;
  OnionProxy : string;
  OnionProxyUser : string;
  OnionProxyPass : string;
  NoOnion : bool;
  TestNet3 : bool;
  RegressionTest : bool;
  SimNet : bool;
  DisableCheckpoints : bool;
  DbType : string;
  Profile : string;
  CpuProfile : string;
  DebugLevel : string;
  Upnp : bool;
  FreeTxRelayLimit : Q;
  BlockMinSize : Z;
  BlockMaxSize : Z;
  BlockPrioritySize : Z;
  GetWorkKeys : list string;
  onionlookup : option lookupFunc;
  lookup : option lookupFunc;
  oniondial : option dialFunc;
  dial : option dialFunc;
  miningKeys : list Address
}.

(** serviceOptions defines the configuration options for btcd as a
    service on Windows. *)
Record serviceOptions := { ServiceCommand : string }.

(** Field assignment [cfg.F = v].  [rebuild] names every field once; a
    setter is [rebuild] with one projection replaced by the new value. *)
Definition rebuild (c : config) : config :=
  Build_config
    (ShowVersion c) (ConfigFile c) (DataDir c) (LogDir c) (AddPeers c)
    (ConnectPeers c) (DisableListen c) (Listeners c) (MaxPeers c)
    (BanDuration c) (RPCUser c) (RPCPass c) (RPCListeners c) (RPCCert c)
    (RPCKey c) (RPCMaxClients c) (RPCMaxWebsockets c) (DisableRPC c)
    (DisableDNSSeed c) (ExternalIPs c) (Proxy c) (ProxyUser c) (ProxyPass c)
    (OnionProxy c) (OnionProxyUser c) (OnionProxyPass c) (NoOnion c)
    (TestNet3 c) (RegressionTest c) (SimNet c) (DisableCheckpoints c)
    (DbType c) (Profile c) (CpuProfile c) (DebugLevel c) (Upnp c)
    (FreeTxRelayLimit c) (BlockMinSize c) (BlockMaxSize c)
    (BlockPrioritySize c) (GetWorkKeys c) (onionlookup c) (lookup c)
    (oniondial c) (dial c) (miningKeys c).

Ltac setter proj :=
  let body := eval cbv [rebuild] in rebuild in
  match eval pattern proj in body with
  | ?build _ =>
      let f := eval cbv beta in (fun v c => build (fun _ => v) c) in
      exact f
  end.

Definition set_ConfigFile : string -> config -> config := ltac:(setter ConfigFile).
Definition set_DataDir : string -> config -> config := ltac:(setter DataDir).
Definition set_LogDir : string -> config -> config := ltac:(setter LogDir).
Definition set_AddPeers : list string -> config -> config := ltac:(setter AddPeers).
Definition set_ConnectPeers : list string -> config -> config := ltac:(setter ConnectPeers).
Definition set_DisableListen : bool -> config -> config := ltac:(setter DisableListen).
Definition set_Listeners : list string -> config -> config := ltac:(setter Listeners).
Definition set_RPCUser : string -> config -> config := ltac:(setter RPCUser).
Definition set_RPCPass : string -> config -> config := ltac:(setter RPCPass).
Definition set_RPCListeners : list string -> config -> config := ltac:(setter RPCListeners).
Definition set_DisableRPC : bool -> config -> config := ltac:(setter DisableRPC).
Definition set_DisableDNSSeed : bool -> config -> config := ltac:(setter DisableDNSSeed).
Definition set_Proxy : string -> config -> config := ltac:(setter Proxy).
Definition set_OnionProxy : string -> config -> config := ltac:(setter OnionProxy).
Definition set_NoOnion : bool -> config -> config := ltac:(setter NoOnion).
Definition set_TestNet3 : bool -> config -> config := ltac:(setter TestNet3).
Definition set_RegressionTest : bool -> config -> config := ltac:(setter RegressionTest).
Definition set_SimNet : bool -> config -> config := ltac:(setter SimNet).
Definition set_DebugLevel : string -> config -> config := ltac:(setter DebugLevel).
Definition set_BlockMinSize : Z -> config -> config := ltac:(setter BlockMinSize).
Definition set_BlockMaxSize : Z -> config -> config := ltac:(setter BlockMaxSize).
Definition set_BlockPrioritySize : Z -> config -> config := ltac:(setter BlockPrioritySize).
Definition set_onionlookup : option lookupFunc -> config -> config := ltac:(setter onionlookup).
Definition set_lookup : option lookupFunc -> config -> config := ltac:(setter lookup).
Definition set_oniondial : option dialFunc -> config -> config := ltac:(setter oniondial).
Definition set_dial : option dialFunc -> config -> config := ltac:(setter dial).
Definition set_miningKeys : list Address -> config -> config := ltac:(setter miningKeys).

(** ** The network profiles and the environment *)

(** activeNetParams points at one of four package-level parameter sets;
    their contents (ports, name, chain parameters) are declared outside
    config.go and are read through the environment below. *)
Inductive netParams :=
| mainNetParams | testNet3Params | regressionNetParams | simNetParams.

(** Everything loadConfig obtains from outside config.go: package-level
    values of other files, the operating system, and the libraries. *)
Record World := {
  btcdHomeDir : string;                      (* btcutil.AppDataDir("btcd", false) *)
  filepath_Join : string -> string -> string;
  filepath_Dir : string -> string;
  filepath_Clean : string -> string;
  os_ExpandEnv : string -> string;
  knownDbTypes : list string;                (* btcdb.SupportedDBs() *)
  subsystemLoggers : gset string;            (* the keys of the subsystemLoggers map *)
  MaxBlockPayload : Z;                       (* btcwire.MaxBlockPayload *)
  os_MkdirAll : string -> option error;
  runServiceCommand : option (string -> option error);
  flags_Parse : flagsOptions -> config -> serviceOptions
                -> config * serviceOptions * (list string + error);
  ini_ParseFile : string -> config -> serviceOptions
                  -> config * serviceOptions * option error;
  net_LookupHost : string -> list string + (string * string);
                                             (* the addresses, or Err and Name
                                                of the net.DNSError *)
  DefaultPort : netParams -> string;
  rpcPort : netParams -> string;
  netName : netParams -> string;
  btcutil_DecodeAddress : string -> netParams -> Address + error;
  IsForNet : Address -> netParams -> bool
}.

(** ** Constants and package-level values of config.go *)

Definition defaultConfigFilename := "btcd.conf".
Definition defaultDataDirname := "data".
Definition defaultLogLevel := "info".
Definition defaultLogDirname := "logs".
Definition defaultLogFilename := "btcd.log".
Definition defaultMaxPeers : Z := 125.
Definition time_Second : Z := 1000000000.
Definition time_Hour : Z := 3600 * time_Second.
Definition defaultBanDuration : Z := time_Hour * 24.
Definition defaultMaxRPCClients : Z := 10.
Definition defaultMaxRPCWebsockets : Z := 25.
Definition defaultDbType := "leveldb".
Definition defaultFreeTxRelayLimit : Q := 15.
Definition defaultBlockMinSize : Z := 0.
Definition defaultBlockMaxSize : Z := 750000.
Definition blockMaxSizeMin : Z := 1000.
Definition blockMaxSizeMax (w : World) : Z := MaxBlockPayload w - 1000.
Definition defaultBlockPrioritySize : Z := 50000.

Definition defaultConfigFile (w : World) : string :=
  filepath_Join w (btcdHomeDir w) defaultConfigFilename.
Definition defaultDataDir (w : World) : string :=
  filepath_Join w (btcdHomeDir w) defaultDataDirname.
Definition defaultRPCKeyFile (w : World) : string :=
  filepath_Join w (btcdHomeDir w) "rpc.key".
Definition defaultRPCCertFile (w : World) : string :=
  filepath_Join w (btcdHomeDir w) "rpc.cert".
Definition defaultLogDir (w : World) : string :=
  filepath_Join w (btcdHomeDir w) defaultLogDirname.

(** ** The effects of loadConfig *)

(** The package-level state loadConfig writes: the active network and,
    as a log, its calls to the outside. *)
Record State := { activeNetParams : netParams; output : list Event }.

(** Modelled from the spec: the declaration of activeNetParams is outside
    config.go; the specification has the main-network profile selected when
    no network flag is set, so the variable starts at the main network. *)
Definition initialState : State :=
  {| activeNetParams := mainNetParams; output := [] |}.

(** How a call ends: a value, a returned error, os.Exit, or a run-time
    panic. *)
Inductive Outcome (A : Type) :=
| Return (a : A)
| Failure (err : error)
| OsExit (code : Z)
| Panic (what : string).
Arguments Return {A} a.
Arguments Failure {A} err.
Arguments OsExit {A} code.
Arguments Panic {A} what.

Definition M (A : Type) : Type := State -> Outcome A * State.

Definition ret {A} (a : A) : M A := fun s => (Return a, s).

Definition bind {A B} (m : M A) (k : A -> M B) : M B :=
  fun s =>
    match m s with
    | (Return a, s') => k a s'
    | (Failure err, s') => (Failure err, s')
    | (OsExit code, s') => (OsExit code, s')
    | (Panic what, s') => (Panic what, s')
    end.

Definition fail {A} (err : error) : M A := fun s => (Failure err, s).
Definition os_Exit {A} (code : Z) : M A := fun s => (OsExit code, s).
Definition panic {A} (what : string) : M A := fun s => (Panic what, s).

Definition emit (e : Event) : M unit :=
  fun s => (Return tt, {| activeNetParams := activeNetParams s;
                          output := output s ++ [e] |}).

Definition getActiveNetParams : M netParams :=
  fun s => (Return (activeNetParams s), s).

Definition setActiveNetParams (p : netParams) : M unit :=
  fun s => (Return tt, {| activeNetParams := p; output := output s |}).

Declare Scope go_scope.
Delimit Scope go_scope with go.
Notation "x <- m ;; k" := (bind m (fun x => k))
  (at level 100, m at next level, right associativity) : go_scope.
Notation "m ;; k" := (bind m (fun _ => k))
  (at level 100, right associativity) : go_scope.
Local Open Scope go_scope.

(** The recurring failure path: print the error and the usage to standard
    error, return the error. *)
Definition usageError {A} (err : error) : M A :=
  emit (Stderr err) ;; emit WriteHelp ;; fail err.

(** ** Helpers of config.go *)

(** strings.Replace(s, old, new, 1): the first occurrence replaced. *)
Fixpoint strings_Replace1 (s old new : string) : string :=
  if String.prefix old s
  then new ++ strings.sliceFrom s (String.length old)
  else match s with
       | EmptyString => EmptyString
       | String a s' => String a (strings_Replace1 s' old new)
       end.

(** cleanAndExpandPath expands environment variables and leading ~ in the
    passed path, cleans the result, and returns it. *)
Definition cleanAndExpandPath (w : World) (path : string) : string :=
  let path :=
    if strings.HasPrefix path "~"
    then strings_Replace1 path "~" (filepath_Dir w (btcdHomeDir w))
    else path in
  filepath_Clean w (os_ExpandEnv w path).

(** validLogLevel returns whether or not logLevel is a valid debug log
    level. *)
Definition validLogLevel (logLevel : string) : bool :=
  String.eqb logLevel "trace" || String.eqb logLevel "debug"
  || String.eqb logLevel "info" || String.eqb logLevel "warn"
  || String.eqb logLevel "error" || String.eqb logLevel "critical".

(** sort.Strings: Go compares strings byte by byte. *)
Module StringFull := OT_to_Full String_as_OT.
Module StringLe := OTF_to_TTLB StringFull.
Module StringSort := Sort StringLe.

(** supportedSubsystems returns a sorted slice of the supported subsystems
    for logging purposes.  The map is iterated in an unspecified order;
    sorting makes the result independent of it. *)
Definition supportedSubsystems (w : World) : list string :=
  StringSort.sort (elements (subsystemLoggers w)).

(** The pair loop of parseAndSetDebugLevels. *)
Definition setLogLevelPairs (w : World) : list string -> M unit :=
  fix setLogLevelPairs (pairs : list string) : M unit :=
  match pairs with
  | [] => ret tt
  | logLevelPair :: rest =>
      if negb (strings.Contains logLevelPair "=")
      then fail (Errorf ("The specified debug level contains an invalid " ++
                         "subsystem/level pair [%v]") [ArgString logLevelPair])
      else
        (* Extract the specified subsystem and log level. *)
        let fields := strings.Split logLevelPair "=" in
        match fields !! 0%nat, fields !! 1%nat with
        | Some subsysID, Some logLevel =>
            (* Validate subsystem. *)
            if negb (bool_decide (subsysID ∈ subsystemLoggers w))
            then fail (Errorf ("The specified subsystem [%v] is invalid -- " ++
                               "supported subsytems %v")
                              [ArgString subsysID; ArgStrings (supportedSubsystems w)])
            (* Validate log level. *)
            else if negb (validLogLevel logLevel)
            then fail (Errorf "The specified debug level [%v] is invalid"
                              [ArgString logLevel])
            else emit (SetLogLevel subsysID logLevel) ;; setLogLevelPairs rest
        | _, _ => panic "index out of range"
        end
  end.

(** parseAndSetDebugLevels attempts to parse the specified debug level and
    set the levels accordingly.  An appropriate error is returned if
    anything is invalid.  A [Return] is Go's nil error. *)
Definition parseAndSetDebugLevels (w : World) (debugLevel : string) : M unit :=
  (* When the specified string doesn't have any delimiters, treat it as
     the log level for all subsystems. *)
  if negb (strings.Contains debugLevel ",") && negb (strings.Contains debugLevel "=")
  then
    if negb (validLogLevel debugLevel)
    then fail (Errorf "The specified debug level [%v] is invalid"
                      [ArgString debugLevel])
    else emit (SetLogLevels debugLevel) ;; ret tt
  else
    setLogLevelPairs w (strings.Split debugLevel ",").

(** validDbType returns whether or not dbType is a supported database
    type. *)
Definition validDbType (w : World) (dbType : string) : bool :=
  existsb (fun knownType => String.eqb dbType knownType) (knownDbTypes w).

(** Modelled from the spec: minUint32 is defined outside config.go; the
    specification has the two sizes clipped down to BlockMaxSize when they
    exceed it, so it is the smaller of its two arguments. *)
Definition minUint32 (a b : Z) : Z := if (a <? b)%Z then a else b.

(** strconv.Atoi: an optional sign and decimal digits, within the range
    of int (64 bits); anything else is an error ([None]). *)
Definition digitValue (c : ascii) : option Z :=
  let n := Z.of_N (N_of_ascii c) in
  if (48 <=? n)%Z && (n <=? 57)%Z then Some (n - 48)%Z else None.

Fixpoint parseDigits (s : string) (acc : Z) : option Z :=
  match s with
  | EmptyString => Some acc
  | String c s' =>
      match digitValue c with
      | Some d => parseDigits s' (10 * acc + d)%Z
      | None => None
      end
  end.

Definition strconv_Atoi (s : string) : option Z :=
  let signed (neg : bool) (digits : string) :=
    match digits with
    | EmptyString => None
    | _ =>
        match parseDigits digits 0 with
        | Some n =>
            let v := if neg then (- n)%Z else n in
            if (- 2 ^ 63 <=? v)%Z && (v <? 2 ^ 63)%Z then Some v else None
        | None => None
        end
    end in
  match s with
  | String "+" rest => signed false rest
  | String "-" rest => signed true rest
  | _ => signed false s
  end.

(** ** loadConfig

    loadConfig initializes and parses the config using a config file and
    command line options.  The configuration proceeds as follows:
    1) start with a default config with sane settings;
    2) pre-parse the command line to check for an alternative config file;
    3) load configuration file overwriting defaults with any specified
       options;
    4) parse CLI options and overwrite/add any specified options.

    The Go function is one long body; it is cut here at its own comment
    blocks, each part named after what the block does, and [loadConfig]
    runs the parts in the order of the source. *)

(** The default config. *)
Definition defaultConfig (w : World) : config :=
  {| ShowVersion := false;
     ConfigFile := defaultConfigFile w;
     DataDir := defaultDataDir w;
     LogDir := defaultLogDir w;
     AddPeers := [];
     ConnectPeers := [];
     DisableListen := false;
     Listeners := [];
     MaxPeers := defaultMaxPeers;
     BanDuration := defaultBanDuration;
     RPCUser := "";
     RPCPass := "";
     RPCListeners := [];
     RPCCert := defaultRPCCertFile w;
     RPCKey := defaultRPCKeyFile w;
     RPCMaxClients := defaultMaxRPCClients;
     RPCMaxWebsockets := defaultMaxRPCWebsockets;
     DisableRPC := false;
     DisableDNSSeed := false;
     ExternalIPs := [];
     Proxy := "";
     ProxyUser := "";
     ProxyPass := "";
     OnionProxy := "";
     OnionProxyUser := "";
     OnionProxyPass := "";
     NoOnion := false;
     TestNet3 := false;
     RegressionTest := false;
     SimNet := false;
     DisableCheckpoints := false;
     DbType := defaultDbType;
     Profile := "";
     CpuProfile := "";
     DebugLevel := defaultLogLevel;
     Upnp := false;
     FreeTxRelayLimit := defaultFreeTxRelayLimit;
     BlockMinSize := defaultBlockMinSize;
     BlockMaxSize := defaultBlockMaxSize;
     BlockPrioritySize := defaultBlockPrioritySize;
     GetWorkKeys := [];
     onionlookup := None;
     lookup := None;
     oniondial := None;
     dial := None;
     miningKeys := [] |}.

(** Create the home directory, pre-parse the command line (errors are
    ignored), and leave on the version flag or on a service command.
    Yields the pre-parsed config and the service options. *)
Definition preParse (w : World) : M (config * serviceOptions) :=
  let cfg := defaultConfig w in
  let serviceOpts := {| ServiceCommand := "" |} in
  emit (MkdirAll (btcdHomeDir w)) ;;
  match os_MkdirAll w (btcdHomeDir w) with
  | Some err => emit (LogErrorf err) ;; fail err
  | None =>
      emit (ParseArgs flags_None) ;;
      let '(preCfg, serviceOpts, _) := flags_Parse w flags_None cfg serviceOpts in
      (* Show the version and exit if the version flag was specified. *)
      if ShowVersion preCfg
      then emit PrintVersion ;; os_Exit 0
      else
        (* Perform service command and exit if specified. *)
        match runServiceCommand w with
        | Some run =>
            if negb (String.eqb (ServiceCommand serviceOpts) "")
            then
              emit (RunServiceCommand (ServiceCommand serviceOpts)) ;;
              match run (ServiceCommand serviceOpts) with
              | Some err => emit (Stderr err) ;; os_Exit 0
              | None => os_Exit 0
              end
            else ret (preCfg, serviceOpts)
        | None => ret (preCfg, serviceOpts)
        end
  end.

(** Whether the config file is loaded at all. *)
Definition readsConfigFile (w : World) (preCfg : config) : bool :=
  negb (RegressionTest preCfg || SimNet preCfg)
  || negb (String.eqb (ConfigFile preCfg) (defaultConfigFile w)).

(** Load additional config from file.  Yields the config, the service
    options and configFileError. *)
Definition loadConfigFile (w : World) (preCfg cfg : config) (serviceOpts : serviceOptions)
  : M (config * serviceOptions * option error) :=
  if readsConfigFile w preCfg
  then
    emit (ParseFile (ConfigFile preCfg)) ;;
    let '(cfg, serviceOpts, err) := ini_ParseFile w (ConfigFile preCfg) cfg serviceOpts in
    match err with
    | Some err =>
        if negb (isPathError err)
        then usageError err
        else ret (cfg, serviceOpts, Some err)
    | None => ret (cfg, serviceOpts, None)
    end
  else ret (cfg, serviceOpts, None).

(** Don't add peers from the config file when in regression test mode. *)
Definition dropFilePeers (preCfg cfg : config) : config :=
  if RegressionTest preCfg && (0 <? length (AddPeers cfg))%nat
  then set_AddPeers [] cfg
  else cfg.

(** Everything up to the final command-line parse: the config that parse
    starts from, the service options and configFileError. *)
Definition beforeFinalParse (w : World) : M (config * serviceOptions * option error) :=
  pre <- preParse w ;;
  let '(preCfg, serviceOpts) := pre in
  loaded <- loadConfigFile w preCfg (defaultConfig w) serviceOpts ;;
  let '(cfg, serviceOpts, configFileError) := loaded in
  ret (dropFilePeers preCfg cfg, serviceOpts, configFileError).

(** Parse command line options again to ensure they take precedence.
    Yields the merged config, the remaining arguments and
    configFileError. *)
Definition finalParse (w : World) (cfg : config) (serviceOpts : serviceOptions)
           (configFileError : option error) : M (config * list string * option error) :=
  emit (ParseArgs flags_Default) ;;
  let '(cfg, _, parsed) := flags_Parse w flags_Default cfg serviceOpts in
  match parsed with
  | inr err =>
      (if notHelpRequest err then emit WriteHelp else ret tt) ;;
      fail err
  | inl remainingArgs => ret (cfg, remainingArgs, configFileError)
  end.

(** The three sources merged: defaults, file, command line. *)
Definition mergeSources (w : World) : M (config * list string * option error) :=
  before <- beforeFinalParse w ;;
  let '(cfg, serviceOpts, configFileError) := before in
  finalParse w cfg serviceOpts configFileError.

(** Multiple networks can't be selected simultaneously. *)
Definition numNets (cfg : config) : Z :=
  (if TestNet3 cfg then 1 else 0) + (if RegressionTest cfg then 1 else 0)
  + (if SimNet cfg then 1 else 0).

Definition multipleNetsError : error :=
  Errorf ("%s: The testnet, regtest, and simnet params can't be " ++
          "used together -- choose one of the three") [ArgString "loadConfig"].

(** The network check, then the choice of the active network params. *)
Definition selectNetwork (cfg : config) : M config :=
  if (numNets cfg >? 1)%Z
  then usageError multipleNetsError
  else if TestNet3 cfg
  then setActiveNetParams testNet3Params ;; ret cfg
  else if RegressionTest cfg
  then setActiveNetParams regressionNetParams ;; ret cfg
  else if SimNet cfg
  then
    (* Also disable dns seeding on the simulation test network. *)
    setActiveNetParams simNetParams ;; ret (set_DisableDNSSeed true cfg)
  else ret cfg.

(** Append the network type to the data and log directories. *)
Definition namespaceDirs (w : World) (cfg : config) : M config :=
  net <- getActiveNetParams ;;
  let cfg := set_DataDir (cleanAndExpandPath w (DataDir cfg)) cfg in
  let cfg := set_DataDir (filepath_Join w (DataDir cfg) (netName w net)) cfg in
  let cfg := set_LogDir (cleanAndExpandPath w (LogDir cfg)) cfg in
  let cfg := set_LogDir (filepath_Join w (LogDir cfg) (netName w net)) cfg in
  ret cfg.

(** The show command, the logger initialisation and the debug levels. *)
Definition setupLogging (w : World) (cfg : config) : M unit :=
  if String.eqb (DebugLevel cfg) "show"
  then emit (PrintSubsystems (supportedSubsystems w)) ;; os_Exit 0
  else
    emit (InitSeelogLogger (filepath_Join w (LogDir cfg) defaultLogFilename)) ;;
    emit (SetLogLevels defaultLogLevel) ;;
    fun s =>
      match parseAndSetDebugLevels w (DebugLevel cfg) s with
      | (Failure err, s') =>
          usageError (Errorf "%s: %v" [ArgString "loadConfig"; ArgError err]) s'
      | other => other
      end.

(** Database type, profile port, ban duration, and --addpeer against
    --connect. *)
Definition validateOptions (w : World) (cfg : config) : M unit :=
  if negb (validDbType w (DbType cfg))
  then usageError (Errorf ("%s: The specified database type [%v] is invalid -- " ++
                           "supported types %v")
                          [ArgString "loadConfig"; ArgString (DbType cfg);
                           ArgStrings (knownDbTypes w)])
  else if negb (String.eqb (Profile cfg) "")
          && match strconv_Atoi (Profile cfg) with
             | None => true
             | Some profilePort => (profilePort <? 1024)%Z || (profilePort >? 65535)%Z
             end
  then usageError (Errorf "%s: The profile port must be between 1024 and 65535"
                          [ArgString "loadConfig"])
  else if (BanDuration cfg <? time_Second)%Z
  then usageError (Errorf "%s: The banduration option may not be less than 1s -- parsed [%v]"
                          [ArgString "loadConfig"; ArgInt (BanDuration cfg)])
  else if (0 <? length (AddPeers cfg))%nat && (0 <? length (ConnectPeers cfg))%nat
  then usageError (Errorf ("%s: the --addpeer and --connect options can not be " ++
                           "mixed") [ArgString "loadConfig"])
  else ret tt.

(** Listening, DNS seeding and the RPC server: the defaults that depend
    on other options. *)
Definition listenAndRPCDefaults (w : World) (cfg : config) : M config :=
  net <- getActiveNetParams ;;
  (* --proxy or --connect without --listen disables listening. *)
  let cfg :=
    if (negb (String.eqb (Proxy cfg) "") || (0 <? length (ConnectPeers cfg))%nat)
       && (length (Listeners cfg) =? 0)%nat
    then set_DisableListen true cfg else cfg in
  (* Connect means no DNS seeding. *)
  let cfg :=
    if (0 <? length (ConnectPeers cfg))%nat
    then set_DisableDNSSeed true cfg else cfg in
  (* Add the default listener if none were specified. *)
  let cfg :=
    if (length (Listeners cfg) =? 0)%nat
    then set_Listeners [net.JoinHostPort "" (DefaultPort w net)] cfg else cfg in
  (* The RPC server is disabled if no username or password is provided. *)
  let cfg :=
    if String.eqb (RPCUser cfg) "" || String.eqb (RPCPass cfg) ""
    then set_DisableRPC true cfg else cfg in
  (* Default RPC to listen on localhost only. *)
  if negb (DisableRPC cfg) && (length (RPCListeners cfg) =? 0)%nat
  then
    emit (LookupHost "localhost") ;;
    match net_LookupHost w "localhost" with
    | inr (err, name) => fail (DNSError err name)
    | inl addrs =>
        ret (set_RPCListeners
               (map (fun addr => net.JoinHostPort addr (rpcPort w net)) addrs) cfg)
    end
  else ret cfg.

Definition blockMaxSizeError (w : World) (cfg : config) : error :=
  Errorf ("%s: The blockmaxsize option must be in between %d " ++
          "and %d -- parsed [%d]")
         [ArgString "loadConfig"; ArgInt blockMaxSizeMin;
          ArgInt (blockMaxSizeMax w); ArgInt (BlockMaxSize cfg)].

(** Limit the max block size to a sane value, then limit the block
    priority and minimum block sizes to max block size. *)
Definition limitBlockSizes (w : World) (cfg : config) : M config :=
  if (BlockMaxSize cfg <? blockMaxSizeMin)%Z || (BlockMaxSize cfg >? blockMaxSizeMax w)%Z
  then usageError (blockMaxSizeError w cfg)
  else
    let cfg := set_BlockPrioritySize
                 (minUint32 (BlockPrioritySize cfg) (BlockMaxSize cfg)) cfg in
    let cfg := set_BlockMinSize
                 (minUint32 (BlockMinSize cfg) (BlockMaxSize cfg)) cfg in
    ret cfg.

(** Check keys are valid and save parsed versions. *)
Definition decodeMiningKeys (w : World) (net : netParams)
  : list string -> list Address -> M (list Address) :=
  fix decodeMiningKeys (keys : list string) (miningKeys : list Address)
    : M (list Address) :=
  match keys with
  | [] => ret miningKeys
  | strAddr :: rest =>
      match btcutil_DecodeAddress w strAddr net with
      | inr err =>
          usageError (Errorf "%s: the specified getworkkey '%s' failed to decode: %v"
                             [ArgString "loadConfig"; ArgString strAddr; ArgError err])
      | inl addr =>
          if negb (IsForNet w addr net)
          then usageError (Errorf "%s: the specified getworkkey '%s' is on the wrong network"
                                  [ArgString "loadConfig"; ArgString strAddr])
          else decodeMiningKeys rest (miningKeys ++ [addr])%list
      end
  end.

Definition checkMiningKeys (w : World) (cfg : config) : M config :=
  net <- getActiveNetParams ;;
  keys <- decodeMiningKeys w net (GetWorkKeys cfg) [] ;;
  ret (set_miningKeys keys cfg).

(** Add default ports to the listener, RPC listener and peer addresses
    if needed and remove duplicate addresses. *)
Definition normalizeAddressLists (w : World) (cfg : config) : M config :=
  net <- getActiveNetParams ;;
  let cfg := set_Listeners (normalizeAddresses (Listeners cfg) (DefaultPort w net)) cfg in
  let cfg := set_RPCListeners (normalizeAddresses (RPCListeners cfg) (rpcPort w net)) cfg in
  let cfg := set_AddPeers (normalizeAddresses (AddPeers cfg) (DefaultPort w net)) cfg in
  let cfg := set_ConnectPeers (normalizeAddresses (ConnectPeers cfg) (DefaultPort w net)) cfg in
  ret cfg.

(** Setup dial and DNS resolution (lookup) functions depending on the
    specified options, then the onion address dial and lookup functions. *)
Definition setupDialAndLookup (cfg : config) : config :=
  let cfg := set_dial (Some net_Dial) cfg in
  let cfg := set_lookup (Some net_LookupIP) cfg in
  let cfg :=
    if negb (String.eqb (Proxy cfg) "")
    then
      let proxy := {| Addr := Proxy cfg; Username := ProxyUser cfg;
                      Password := ProxyPass cfg |} in
      let cfg := set_dial (Some (proxy_Dial proxy)) cfg in
      if negb (NoOnion cfg)
      then set_lookup (Some torLookupViaProxy) cfg
      else cfg
    else cfg in
  let cfg :=
    if negb (String.eqb (OnionProxy cfg) "")
    then
      let cfg := set_oniondial (Some onionProxyDial) cfg in
      set_onionlookup (Some torLookupViaOnionProxy) cfg
    else
      let cfg := set_oniondial (dial cfg) cfg in
      set_onionlookup (lookup cfg) cfg in
  (* Specifying --noonion means the onion address dial and DNS resolution
     (lookup) functions result in an error. *)
  if NoOnion cfg
  then
    let cfg := set_oniondial (Some dialTorDisabled) cfg in
    set_onionlookup (Some lookupTorDisabled) cfg
  else cfg.

(** Warn about missing config file only after all other configuration is
    done. *)
Definition warnConfigFile (configFileError : option error) : M unit :=
  match configFileError with
  | Some err => emit (LogWarnf err)
  | None => ret tt
  end.

(** Everything after the final command-line parse. *)
Definition resolveConfig (w : World) (cfg : config) (remainingArgs : list string)
           (configFileError : option error) : M (config * list string) :=
  cfg <- selectNetwork cfg ;;
  cfg <- namespaceDirs w cfg ;;
  setupLogging w cfg ;;
  validateOptions w cfg ;;
  cfg <- listenAndRPCDefaults w cfg ;;
  cfg <- limitBlockSizes w cfg ;;
  cfg <- checkMiningKeys w cfg ;;
  cfg <- normalizeAddressLists w cfg ;;
  let cfg := setupDialAndLookup cfg in
  warnConfigFile configFileError ;;
  ret (cfg, remainingArgs).

Definition loadConfig (w : World) : M (config * list string) :=
  merged <- mergeSources w ;;
  let '(cfg, remainingArgs, configFileError) := merged in
  resolveConfig w cfg remainingArgs configFileError.

(** ** Dialing and resolving through the configuration *)

Section Dispatch.

(** The network primitives behind the function values: net.Conn and
    net.IP, the system dialer and resolver, the SOCKS dial and the lookup
    through Tor (torLookupIP, defined outside config.go). *)
Context {Conn IP : Type}.
Variable sys_Dial : string -> string -> Conn + error.
Variable socks_Dial : socks_Proxy -> string -> string -> Conn + error.
Variable sys_LookupIP : string -> list IP + error.
Variable torLookupIP : string -> string -> list IP + error.

Definition torDisabled : error := ErrorsNew "tor has been disabled".

(** Calling a dial function value.  [cfg] is the config the closures of
    loadConfig captured, the one the package-level cfg points at. *)
Definition callDial (cfg : config) (f : dialFunc) (network address : string)
  : Conn + error :=
  match f with
  | net_Dial => sys_Dial network address
  | proxy_Dial proxy => socks_Dial proxy network address
  | onionProxyDial =>
      socks_Dial {| Addr := OnionProxy cfg; Username := OnionProxyUser cfg;
                    Password := OnionProxyPass cfg |} network address
  | dialTorDisabled => inr torDisabled
  end.

Definition callLookup (cfg : config) (f : lookupFunc) (host : string)
  : list IP + error :=
  match f with
  | net_LookupIP => sys_LookupIP host
  | torLookupViaProxy => torLookupIP host (Proxy cfg)
  | torLookupViaOnionProxy => torLookupIP host (OnionProxy cfg)
  | lookupTorDisabled => inr torDisabled
  end.

(** Calling a function-valued field; calling nil panics. *)
Definition invokeDial (cfg : config) (field : option dialFunc)
           (network address : string) : Outcome Conn :=
  match field with
  | Some f =>
      match callDial cfg f network address with
      | inl conn => Return conn
      | inr err => Failure err
      end
  | None => Panic "nil func call"
  end.

Definition invokeLookup (cfg : config) (field : option lookupFunc)
           (host : string) : Outcome (list IP) :=
  match field with
  | Some f =>
      match callLookup cfg f host with
      | inl ips => Return ips
      | inr err => Failure err
      end
  | None => Panic "nil func call"
  end.

(** btcdDial connects to the address on the named network using the
    appropriate dial function depending on the address and configuration
    options. *)
Definition btcdDial (cfg : config) (network address : string) : Outcome Conn :=
  if strings.HasSuffix address ".onion"
  then invokeDial cfg (oniondial cfg) network address
  else invokeDial cfg (dial cfg) network address.

(** btcdLookup returns the correct DNS lookup function to use depending
    on the passed host and configuration options. *)
Definition btcdLookup (cfg : config) (host : string) : Outcome (list IP) :=
  if strings.HasSuffix host ".onion"
  then invokeLookup cfg (onionlookup cfg) host
  else invokeLookup cfg (lookup cfg) host.

End Dispatch.

(** ** A concrete environment

    A Unix-like machine on which every outside call succeeds: the command
    line is given by what it does to the config it is parsed into, the
    config file by what it does to the config and the error reading it
    gives. *)
Definition exampleWorld (commandLine : config -> config)
           (configFile : config -> config * option error) : World :=
  {| btcdHomeDir := "/home/user/.btcd";
     filepath_Join := fun dir name => dir ++ "/" ++ name;
     filepath_Dir := fun _ => "/home/user";
     filepath_Clean := fun path => path;
     os_ExpandEnv := fun path => path;
     knownDbTypes := ["leveldb"; "memdb"];
     subsystemLoggers := list_to_set ["PEER"; "BTCD"; "AMGR"; "RPCS"];
     MaxBlockPayload := 1000000;
     os_MkdirAll := fun _ => None;
     runServiceCommand := None;
     flags_Parse := fun _ cfg serviceOpts => (commandLine cfg, serviceOpts, inl []);
     ini_ParseFile := fun _ cfg serviceOpts =>
                        let '(cfg, err) := configFile cfg in (cfg, serviceOpts, err);
     net_LookupHost := fun _ => inl ["127.0.0.1"; "::1"];
     DefaultPort := fun net =>
                      match net with
                      | mainNetParams => "8333"
                      | testNet3Params => "18333"
                      | regressionNetParams => "18444"
                      | simNetParams => "18555"
                      end;
     rpcPort := fun net =>
                  match net with
                  | mainNetParams => "8334"
                  | testNet3Params => "18334"
                  | regressionNetParams => "18334"
                  | simNetParams => "18556"
                  end;
     netName := fun net =>
                  match net with
                  | mainNetParams => "mainnet"
                  | testNet3Params => "testnet"
                  | regressionNetParams => "regtest"
                  | simNetParams => "simnet"
                  end;
     btcutil_DecodeAddress := fun strAddr _ => inl (DecodedAddress strAddr);
     IsForNet := fun _ _ => true |}.


(** ** The strategy table of the specification (section 4.8)

    The rows of the table, by what they say of the normal dial, the normal
    lookup and the onion pair.  Row one leaves the onion proxy and the
    no-onion flag blank; it is the row of neither being given, the other
    two cases without a proxy being row six and the rule that the onion
    pair fails whenever Tor is disabled. *)
Inductive normalDialSpec := SystemDial | ProxyDial.
Inductive normalLookupSpec := SystemDNS | TorRoutedViaProxy.
Inductive onionPairSpec := SameAsNormal | DedicatedOnionProxy | TorDisabled.

Definition spec_strategyTable (proxySet onionProxySet noOnion : bool)
  : normalDialSpec * normalLookupSpec * onionPairSpec :=
  match proxySet, onionProxySet, noOnion with
  | false, false, false => (SystemDial, SystemDNS, SameAsNormal)
  | true, false, false => (ProxyDial, TorRoutedViaProxy, SameAsNormal)
  | true, false, true => (ProxyDial, SystemDNS, TorDisabled)
  | true, true, false => (ProxyDial, TorRoutedViaProxy, DedicatedOnionProxy)
  | true, true, true => (ProxyDial, SystemDNS, TorDisabled)
  | false, true, false => (SystemDial, SystemDNS, DedicatedOnionProxy)
  | false, _, true => (SystemDial, SystemDNS, TorDisabled)
  end.

(** The function values the table's entries stand for. *)
Definition spec_dial (cfg : config) (d : normalDialSpec) : dialFunc :=
  match d with
  | SystemDial => net_Dial
  | ProxyDial => proxy_Dial {| Addr := Proxy cfg; Username := ProxyUser cfg;
                               Password := ProxyPass cfg |}
  end.

Definition spec_lookup (l : normalLookupSpec) : lookupFunc :=
  match l with
  | SystemDNS => net_LookupIP
  | TorRoutedViaProxy => torLookupViaProxy
  end.

Definition spec_onionPair (normal : dialFunc * lookupFunc) (o : onionPairSpec)
  : dialFunc * lookupFunc :=
  match o with
  | SameAsNormal => normal
  | DedicatedOnionProxy => (onionProxyDial, torLookupViaOnionProxy)
  | TorDisabled => (dialTorDisabled, lookupTorDisabled)
  end.

(** The normal pair and the onion pair the table prescribes for [cfg]. *)
Definition spec_strategies (cfg : config)
  : (dialFunc * lookupFunc) * (dialFunc * lookupFunc) :=
  let '(d, l, o) := spec_strategyTable (negb (String.eqb (Proxy cfg) ""))
                                       (negb (String.eqb (OnionProxy cfg) ""))
                                       (NoOnion cfg) in
  let normal := (spec_dial cfg d, spec_lookup l) in
  (normal, spec_onionPair normal o).

(** The options the strategies are built from. *)
Definition proxyOptions (cfg : config) :=
  (Proxy cfg, ProxyUser cfg, ProxyPass cfg,
   OnionProxy cfg, OnionProxyUser cfg, OnionProxyPass cfg, NoOnion cfg).

(** ** Reasoning about runs *)

(** [wp m s Q]: running [m] from [s] ends in an outcome and a state that
    satisfy [Q]. *)
Definition wp {A} (m : M A) (s : State) (Q : Outcome A -> State -> Prop) : Prop :=
  Q (m s).1 (m s).2.

(** [after] is [before] with further events, all of them in [P]. *)
Definition extends (P : Event -> Prop) (before after : list Event) : Prop :=
  ∃ evs, after = (before ++ evs)%list ∧ Forall P evs.

(** Events that are neither a read of the config file nor the warning
    about it. *)
Definition quiet (e : Event) : Prop :=
  match e with
  | ParseFile _ | LogWarnf _ => False
  | _ => True
  end.

(** The same, allowing the warning for [configFileError]. *)
Definition quietBut (configFileError : option error) (e : Event) : Prop :=
  match e with
  | ParseFile _ => False
  | LogWarnf err => configFileError = Some err
  | _ => True
  end.

(** The network profile matching the selection flags; [current] when none
    is set. *)
Definition chosenNet (cfg : config) (current : netParams) : netParams :=
  if TestNet3 cfg then testNet3Params
  else if RegressionTest cfg then regressionNetParams
  else if SimNet cfg then simNetParams
  else current.

(** An error that is neither the network-selection error nor a block-size
    error. *)
Definition otherError (e : error) : Prop :=
  e ≠ multipleNetsError ∧ ∀ w cfg, e ≠ blockMaxSizeError w cfg.

(** The options that the steps after the merge either leave alone or set
    once. *)
Definition settings (cfg : config) :=
  (RPCUser cfg, RPCPass cfg, DisableRPC cfg,
   (BlockMinSize cfg, BlockMaxSize cfg, BlockPrioritySize cfg),
   proxyOptions cfg).

(** A step that keeps the active network and emits only quiet events;
    [R] holds of its result, [E] of its error. *)
Definition step {A} (m : M A) (s : State) (R : A -> Prop) (E : error -> Prop) : Prop :=
  wp m s (fun o s' =>
            activeNetParams s' = activeNetParams s
            ∧ extends quiet (output s) (output s')
            ∧ match o with
              | Return a => R a
              | Failure e => E e
              | _ => True
              end).

(** The environment with another config-file reader. *)
Definition withConfigFile
           (read : string -> config -> serviceOptions
                   -> config * serviceOptions * option error) (w : World) : World :=
  {| btcdHomeDir := btcdHomeDir w;
     filepath_Join := filepath_Join w;
     filepath_Dir := filepath_Dir w;
     filepath_Clean := filepath_Clean w;
     os_ExpandEnv := os_ExpandEnv w;
     knownDbTypes := knownDbTypes w;
     subsystemLoggers := subsystemLoggers w;
     MaxBlockPayload := MaxBlockPayload w;
     os_MkdirAll := os_MkdirAll w;
     runServiceCommand := runServiceCommand w;
     flags_Parse := flags_Parse w;
     ini_ParseFile := read;
     net_LookupHost := net_LookupHost w;
     DefaultPort := DefaultPort w;
     rpcPort := rpcPort w;
     netName := netName w;
     btcutil_DecodeAddress := btcutil_DecodeAddress w;
     IsForNet := IsForNet w |}.

(** BlockMaxSize within its bounds. *)
Definition blockMaxSizeInRange (w : World) (cfg : config) : Prop :=
  (blockMaxSizeMin <= BlockMaxSize cfg <= blockMaxSizeMax w)%Z.

(** What holds of the outcome [o] and the state [s'] of the steps after
    the merge, run on the merged [cfg] from state [s]. *)
Definition resolved (w : World) (cfg : config) (remainingArgs : list string)
           (configFileError : option error) (s : State)
           (o : Outcome (config * list string)) (s' : State) : Prop :=
  extends (quietBut configFileError) (output s) (output s')
  ∧ match o with
    | Return (c, r) =>
        r = remainingArgs
        ∧ (numNets cfg <= 1)%Z
        ∧ blockMaxSizeInRange w cfg
        ∧ activeNetParams s' = chosenNet cfg (activeNetParams s)
        ∧ (∃ c', c = setupDialAndLookup c')
        ∧ settings c =
            (RPCUser cfg, RPCPass cfg,
             (if String.eqb (RPCUser cfg) "" || String.eqb (RPCPass cfg) ""
              then true else DisableRPC cfg),
             (minUint32 (BlockMinSize cfg) (BlockMaxSize cfg),
              BlockMaxSize cfg,
              minUint32 (BlockPrioritySize cfg) (BlockMaxSize cfg)),
             proxyOptions cfg)
        ∧ (∀ err, configFileError = Some err →
             ∃ out, output s' = (out ++ [LogWarnf err])%list)
    | Failure e =>
        ((numNets cfg > 1)%Z
         ∧ e = multipleNetsError
         ∧ activeNetParams s' = activeNetParams s
         ∧ output s' = (output s ++ [Stderr multipleNetsError; WriteHelp])%list)
        ∨ ((numNets cfg <= 1)%Z
           ∧ activeNetParams s' = chosenNet cfg (activeNetParams s)
           ∧ ((¬ blockMaxSizeInRange w cfg ∧ e = blockMaxSizeError w cfg)
              ∨ otherError e))
    | _ =>
        (numNets cfg <= 1)%Z
        ∧ activeNetParams s' = chosenNet cfg (activeNetParams s)
    end.

(** [address] ends in [suffix]. *)
Definition endsIn (address suffix : string) : Prop :=
  ∃ front, address = front ++ suffix.

(** The function fields of a config, and what the table prescribes for
    them. *)
Definition strategies (cfg : config) :=
  ((dial cfg, lookup cfg), (oniondial cfg, onionlookup cfg)).

Definition spec_fields (cfg : config) :=
  let '((d, l), (od, ol)) := spec_strategies cfg in
  ((Some d, Some l), (Some od, Some ol)).

(** Two or three of the network flags are set. *)
Definition severalNets (cfg : config) : bool :=
  (TestNet3 cfg && RegressionTest cfg) || (TestNet3 cfg && SimNet cfg)
  || (RegressionTest cfg && SimNet cfg).

(** The state with the deferred config-file warning logged. *)
Definition warned (err : error) (s : State) : State :=
  {| activeNetParams := activeNetParams s;
     output := (output s ++ [LogWarnf err])%list |}.

(** The state with further events. *)
Definition emitted (evs : list Event) (s : State) : State :=
  {| activeNetParams := activeNetParams s;
     output := (output s ++ evs)%list |}.

(** A config file that reads as [read] does but without any error. *)
Definition withoutReadError
           (read : string -> config -> serviceOptions
                   -> config * serviceOptions * option error)
  : string -> config -> serviceOptions -> config * serviceOptions * option error :=
  fun path cfg serviceOpts =>
    let '(cfg, serviceOpts, _) := read path cfg serviceOpts in
    (cfg, serviceOpts, None).

(** ** Concrete runs *)

(** No command-line flags and no config file. *)
Definition plainWorld : World :=
  exampleWorld (fun cfg => cfg)
               (fun cfg => (cfg, Some (PathError "open" "/home/user/.btcd/btcd.conf"
                                                 "no such file or directory"))).

(** --proxy=127.0.0.1:9050 --noonion on the command line. *)
Definition proxyNoOnionWorld : World :=
  exampleWorld (fun cfg => set_NoOnion true (set_Proxy "127.0.0.1:9050" cfg))
               (fun cfg => (cfg, None)).

(** Network primitives that answer with the route taken. *)
Definition route_Dial (network address : string) : (string * string) + error :=
  inl ("direct", address).
Definition route_socksDial (proxy : socks_Proxy) (network address : string)
  : (string * string) + error :=
  inl (Addr proxy, address).
Definition route_LookupIP (host : string) : list string + error :=
  inl ["system DNS"].
Definition route_torLookupIP (host proxy : string) : list string + error :=
  inl [proxy].

(** The config loadConfig returns for --proxy=127.0.0.1:9050 --noonion. *)
Definition proxyNoOnionConfig : config :=
  setupDialAndLookup (set_NoOnion true (set_Proxy "127.0.0.1:9050"
                                          (defaultConfig proxyNoOnionWorld))).

(** A listener list with a repeated entry, a bare host, an entry that has
    its port and an IPv6 literal. *)
Definition exampleListeners : list string :=
  ["localhost"; "1.2.3.4:8333"; "localhost"; "::1"].

(** The config a run of loadConfig from the initial state returns; the
    default config when the run returns none. *)
Definition loadedConfig (w : World) : config :=
  match (loadConfig w initialState).1 with
  | Return (cfg, _) => cfg
  | _ => defaultConfig w
  end.

(** The merged config of a run from the initial state; the default config
    when the run does not get that far. *)
Definition mergedConfig (w : World) : config :=
  match (mergeSources w initialState).1 with
  | Return (cfg, _, _) => cfg
  | _ => defaultConfig w
  end.

(** --testnet on the command line. *)
Definition testnetWorld : World :=
  exampleWorld (set_TestNet3 true) (fun cfg => (cfg, None)).


(** What loadConfig does once the config file has been dealt with: the
    final command-line parse and the steps after the merge. *)
Definition afterConfigFile (w : World) (cfg : config) (serviceOpts : serviceOptions)
           (configFileError : option error) : M (config * list string) :=
  merged <- finalParse w cfg serviceOpts configFileError ;;
  let '(cfg, remainingArgs, configFileError) := merged in
  resolveConfig w cfg remainingArgs configFileError.

(** The config the final command-line parse of a run from the initial
    state starts from; the default config when the run does not get that
    far. *)
Definition configBeforeFinalParse (w : World) : config :=
  match (beforeFinalParse w initialState).1 with
  | Return (cfg, _, _) => cfg
  | _ => defaultConfig w
  end.

(** --regtest --configfile=/etc/btcd.conf on the command line, and a
    config file with addpeer=10.0.0.2 and connect=10.0.0.1. *)
Definition regtestFileWorld : World :=
  exampleWorld (fun cfg => set_RegressionTest true (set_ConfigFile "/etc/btcd.conf" cfg))
               (fun cfg => (set_AddPeers ["10.0.0.2"] (set_ConnectPeers ["10.0.0.1"] cfg),
                            None)).

(** --regtest alone; the config file, which must not be read, has
    connect=10.0.0.1. *)
Definition regtestWorld : World :=
  exampleWorld (set_RegressionTest true)
               (fun cfg => (set_ConnectPeers ["10.0.0.1"] cfg, None)).

(** No flags, and a config file that cannot be opened for lack of
    permission. *)
Definition unreadableFileWorld : World :=
  exampleWorld (fun cfg => cfg)
               (fun cfg => (cfg, Some (PathError "open" "/home/user/.btcd/btcd.conf"
                                                 "permission denied"))).

(** The config the pre-parse of a run from the initial state yields; the
    default config when the pre-parse does not return. *)
Definition preParsedConfig (w : World) : config :=
  match (preParse w initialState).1 with
  | Return (preCfg, _) => preCfg
  | _ => defaultConfig w
  end.

(** The config file of [unreadableFileWorld] opened without error. *)
Definition readableFileWorld : World :=
  withConfigFile (withoutReadError (ini_ParseFile unreadableFileWorld))
                 unreadableFileWorld.

(** Go's order on strings, as sort.Strings uses it. *)
Definition stringLe (a b : string) : Prop := is_true (StringLe.leb a b).

(** What parseAndSetDebugLevels checks of one comma-separated piece: it
    has a "=", and its first two "="-separated fields are a subsystem and
    a level. *)
Definition pairAccepted (w : World) (logLevelPair : string) : Prop :=
  strings.Contains logLevelPair "=" = true
  ∧ ∃ subsysID logLevel,
      strings.Split logLevelPair "=" !! 0%nat = Some subsysID
      ∧ strings.Split logLevelPair "=" !! 1%nat = Some logLevel
      ∧ subsysID ∈ subsystemLoggers w
      ∧ validLogLevel logLevel = true.

(** Addresses and ports without the bytes that host/port splitting gives
    a meaning to: an address without brackets, a port without colon or
    brackets. *)
Definition lacks (c : ascii) (s : string) : Prop := strings.IndexByte s c = None.

Definition plainAddress (addr : string) : Prop :=
  lacks "[" addr ∧ lacks "]" addr.

Definition plainPort (port : string) : Prop :=
  lacks ":" port ∧ lacks "[" port ∧ lacks "]" port.

(** ** Further views of a configuration *)

Definition set_ShowVersion : bool -> config -> config := ltac:(setter ShowVersion).
Definition set_GetWorkKeys : list string -> config -> config := ltac:(setter GetWorkKeys).
Definition set_DbType : string -> config -> config := ltac:(setter DbType).
Definition set_Profile : string -> config -> config := ltac:(setter Profile).
Definition set_BanDuration : Z -> config -> config := ltac:(setter BanDuration).

(** The options no step after the merge writes. *)
Definition inert (cfg : config) :=
  (DbType cfg, Profile cfg, BanDuration cfg, DebugLevel cfg, GetWorkKeys cfg,
   Proxy cfg).

(** The data and log directories. *)
Definition dirs (cfg : config) := (DataDir cfg, LogDir cfg).

(** The four address lists. *)
Definition lists (cfg : config) :=
  (Listeners cfg, RPCListeners cfg, AddPeers cfg, ConnectPeers cfg).

(** The listening and DNS-seeding switches. *)
Definition toggles (cfg : config) := (DisableListen cfg, DisableDNSSeed cfg).

(** [strAddr] decodes to [addr], an address of the network [net]. *)
Definition decodesTo (w : World) (net : netParams) (strAddr : string) (addr : Address)
  : Prop :=
  btcutil_DecodeAddress w strAddr net = inl addr ∧ IsForNet w addr net = true.

(** The profile option is absent or a port from 1024 to 65535. *)
Definition profilePortValid (profile : string) : Prop :=
  profile = ""
  ∨ ∃ profilePort, strconv_Atoi profile = Some profilePort
                   ∧ (1024 <= profilePort <= 65535)%Z.

(** The listeners loadConfig normalises: the configured ones, or the
    default listener on all interfaces. *)
Definition effectiveListeners (w : World) (net : netParams) (cfg : config) : list string :=
  match Listeners cfg with
  | [] => [net.JoinHostPort "" (DefaultPort w net)]
  | _ => Listeners cfg
  end.

(** [out] ends with [err] and the usage printed to standard error. *)
Definition usagePrinted (err : error) (out : list Event) : Prop :=
  ∃ front, out = (front ++ [Stderr err; WriteHelp])%list.

(** Events other than the config-file warning. *)
Definition notWarning (e : Event) : Prop :=
  match e with
  | LogWarnf _ => False
  | _ => True
  end.

(** The event of one accepted piece of a debug-level string. *)
Definition pairEvents (logLevelPair : string) : list Event :=
  match strings.Split logLevelPair "=" !! 0%nat,
        strings.Split logLevelPair "=" !! 1%nat with
  | Some subsysID, Some logLevel => [SetLogLevel subsysID logLevel]
  | _, _ => []
  end.

(** Environments that differ from [w] in one outside call. *)
Definition rebuildWorld (w : World) : World :=
  Build_World
    (btcdHomeDir w) (filepath_Join w) (filepath_Dir w) (filepath_Clean w)
    (os_ExpandEnv w) (knownDbTypes w) (subsystemLoggers w) (MaxBlockPayload w)
    (os_MkdirAll w) (runServiceCommand w) (flags_Parse w) (ini_ParseFile w)
    (net_LookupHost w) (DefaultPort w) (rpcPort w) (netName w)
    (btcutil_DecodeAddress w) (IsForNet w).

Ltac worldSetter proj :=
  let body := eval cbv [rebuildWorld] in rebuildWorld in
  match eval pattern proj in body with
  | ?build _ =>
      let f := eval cbv beta in (fun v w => build (fun _ => v) w) in
      exact f
  end.

Definition with_os_MkdirAll : (string -> option error) -> World -> World :=
  ltac:(worldSetter os_MkdirAll).
Definition with_runServiceCommand
  : option (string -> option error) -> World -> World :=
  ltac:(worldSetter runServiceCommand).
Definition with_flags_Parse
  : (flagsOptions -> config -> serviceOptions
     -> config * serviceOptions * (list string + error)) -> World -> World :=
  ltac:(worldSetter flags_Parse).
Definition with_net_LookupHost
  : (string -> list string + (string * string)) -> World -> World :=
  ltac:(worldSetter net_LookupHost).
Definition with_btcutil_DecodeAddress
  : (string -> netParams -> Address + error) -> World -> World :=
  ltac:(worldSetter btcutil_DecodeAddress).
Definition with_IsForNet : (Address -> netParams -> bool) -> World -> World :=
  ltac:(worldSetter IsForNet).

(** What holds of a configuration [c] that the steps after the merge
    return for the merged [cfg], [net] being the network they select. *)
Definition loaded (w : World) (cfg : config) (net : netParams) (c : config) : Prop :=
  (numNets cfg <= 1)%Z
  ∧ DebugLevel cfg ≠ "show"
  ∧ (∃ s0 s1, parseAndSetDebugLevels w (DebugLevel cfg) s0 = (Return tt, s1))
  ∧ validDbType w (DbType cfg) = true
  ∧ profilePortValid (Profile cfg)
  ∧ (time_Second <= BanDuration cfg)%Z
  ∧ (AddPeers cfg = [] ∨ ConnectPeers cfg = [])
  ∧ inert c = inert cfg
  ∧ dirs c = (filepath_Join w (cleanAndExpandPath w (DataDir cfg)) (netName w net),
              filepath_Join w (cleanAndExpandPath w (LogDir cfg)) (netName w net))
  ∧ toggles c =
      ((if (negb (String.eqb (Proxy cfg) "") || (0 <? length (ConnectPeers cfg))%nat)
           && (length (Listeners cfg) =? 0)%nat
        then true else DisableListen cfg),
       (if (0 <? length (ConnectPeers cfg))%nat
        then true else SimNet cfg || DisableDNSSeed cfg))
  ∧ Listeners c = normalizeAddresses (effectiveListeners w net cfg) (DefaultPort w net)
  ∧ AddPeers c = normalizeAddresses (AddPeers cfg) (DefaultPort w net)
  ∧ ConnectPeers c = normalizeAddresses (ConnectPeers cfg) (DefaultPort w net)
  ∧ (if negb (DisableRPC c) && (length (RPCListeners cfg) =? 0)%nat
     then ∃ addrs,
            net_LookupHost w "localhost" = inl addrs
            ∧ RPCListeners c
              = normalizeAddresses
                  (map (fun addr => net.JoinHostPort addr (rpcPort w net)) addrs)
                  (rpcPort w net)
     else RPCListeners c = normalizeAddresses (RPCListeners cfg) (rpcPort w net))
  ∧ Forall2 (decodesTo w net) (GetWorkKeys cfg) (miningKeys c).

(** --rpcuser=user --rpcpass=pass --connect=10.0.0.1 --connect=10.0.0.1:8333
    --getworkkey=1BoatSLRHtKNngkdXEeobR76b53LETtpyT --datadir=~/chain on the
    command line, and no config file. *)
Definition minerWorld : World :=
  exampleWorld (fun cfg =>
                  set_RPCUser "user"
                    (set_RPCPass "pass"
                       (set_ConnectPeers ["10.0.0.1"; "10.0.0.1:8333"]
                          (set_GetWorkKeys ["1BoatSLRHtKNngkdXEeobR76b53LETtpyT"]
                             (set_DataDir "~/chain" cfg)))))
               (fun cfg => (cfg, None)).

(** The state a run of loadConfig from the initial state ends in. *)
Definition finalState (w : World) : State := (loadConfig w initialState).2.

(** The remaining arguments a run of loadConfig from the initial state
    returns; none when the run returns nothing. *)
Definition loadedArgs (w : World) : list string :=
  match (loadConfig w initialState).1 with
  | Return (_, remainingArgs) => remainingArgs
  | _ => []
  end.

(** ** How a run ends *)

(** How loadConfig reports the error [e] it returns, [out] being the
    output: printed to standard error, followed by the usage; logged,
    when the home directory could not be created; left to the final
    command-line parse, after which the usage is printed unless the error
    is a help request; or, for the resolution of localhost, not at all. *)
Definition failureReported (w : World) (e : error) (out : list Event) : Prop :=
  usagePrinted e out
  ∨ (os_MkdirAll w (btcdHomeDir w) = Some e
     ∧ ∃ front, out = (front ++ [MkdirAll (btcdHomeDir w); LogErrorf e])%list)
  ∨ (∃ front, out = (front ++ ParseArgs flags_Default
                        :: (if notHelpRequest e then [WriteHelp] else []))%list)
  ∨ (∃ err name, e = DNSError err name
       ∧ net_LookupHost w "localhost" = inr (err, name)
       ∧ ∃ front, out = (front ++ [LookupHost "localhost"])%list).

(** A step from [s] to [s'] that logs no config-file warning, reports
    the error it returns, exits with status 0 only, and does not
    panic. *)
Definition ending {A} (w : World) (o : Outcome A) (s s' : State) : Prop :=
  extends notWarning (output s) (output s')
  ∧ match o with
    | Return _ => True
    | Failure e => failureReported w e (output s')
    | OsExit code => code = 0%Z
    | Panic _ => False
    end.

(** The same for a whole run, which may log the config-file warning as
    the last thing before it returns. *)
Definition ended {A} (w : World) (o : Outcome A) (s s' : State) : Prop :=
  match o with
  | Return _ =>
      ∃ front,
        Forall notWarning front
        ∧ (output s' = (output s ++ front)%list
           ∨ ∃ err, output s' = (output s ++ front ++ [LogWarnf err])%list)
  | _ => ending w o s s'
  end.

(** The command line as the pre-parse reads it: the config and the
    service options it yields. *)
Definition commandLineConfig (w : World) : config :=
  (flags_Parse w flags_None (defaultConfig w) {| ServiceCommand := "" |}).1.1.
Definition commandLineService (w : World) : serviceOptions :=
  (flags_Parse w flags_None (defaultConfig w) {| ServiceCommand := "" |}).1.2.

(** --version on the command line. *)
Definition versionWorld : World :=
  exampleWorld (set_ShowVersion true) (fun cfg => (cfg, None)).

(** A service command on the command line of a build that has service
    support, the command failing. *)
Definition serviceWorld : World :=
  with_runServiceCommand
    (Some (fun command => Some (OtherError "service not installed")))
    (with_flags_Parse
       (fun _ cfg _ => (cfg, {| ServiceCommand := "start" |}, inl []))
       plainWorld).

(** The home directory cannot be created. *)
Definition mkdirFailsWorld : World :=
  with_os_MkdirAll
    (fun _ => Some (PathError "mkdir" "/home/user/.btcd" "permission denied"))
    plainWorld.

(** --help on the command line: unknown to the pre-parse, a help request
    to the final parse. *)
Definition helpWorld : World :=
  with_flags_Parse
    (fun options cfg serviceOpts =>
       match options with
       | flags_None => (cfg, serviceOpts, inr (FlagsError false "unknown flag `help'"))
       | flags_Default => (cfg, serviceOpts, inr (FlagsError true "Usage: btcd [OPTIONS]"))
       end)
    plainWorld.

(** --debuglevel=show --dbtype=bogus on the command line. *)
Definition showWorld : World :=
  exampleWorld (fun cfg => set_DebugLevel "show" (set_DbType "bogus" cfg))
               (fun cfg => (cfg, None)).

(** The command line of [minerWorld] on a machine where localhost does
    not resolve. *)
Definition lookupFailsWorld : World :=
  with_net_LookupHost (fun _ => inr ("no such host", "localhost")) minerWorld.

(** The outcome of a run of loadConfig from the initial state. *)
Definition finalOutcome (w : World) : Outcome (config * list string) :=
  (loadConfig w initialState).1.

(** A debug level whose second piece names no subsystem. *)
Definition partlyValidDebugLevel : string := "PEER=debug,BOGUS=info".

(** --regtest --configfile=/home/user/.btcd/btcd.conf on the command
    line: the config-file path is supplied explicitly and is the default
    one; the file at that path has connect=10.0.0.1. *)
Definition regtestExplicitDefaultWorld : World :=
  exampleWorld (fun cfg => set_RegressionTest true
                             (set_ConfigFile "/home/user/.btcd/btcd.conf" cfg))
               (fun cfg => (set_ConnectPeers ["10.0.0.1"] cfg, None)).
(** ** Strings *)

Section Strings.

Lemma substring_all s : String.substring 0 (String.length s) s = s.
Proof. induction s as [|a s IH]; simpl; [reflexivity|]. rewrite IH. reflexivity. Qed.

Lemma substring_append_r front s :
  String.substring (String.length front) (String.length s) (front ++ s) = s.
Proof. induction front as [|a front IH]; simpl; [apply substring_all|exact IH]. Qed.

Lemma length_string_app (a b : string) :
  String.length (a ++ b) = (String.length a + String.length b)%nat.
Proof. induction a as [|c a IH]; simpl; [reflexivity|]. rewrite IH. reflexivity. Qed.

(** A string is its first [n] bytes followed by the rest. *)
Lemma substring_split s : ∀ n, (n <= String.length s)%nat →
  s = String.substring 0 n s ++ String.substring n (String.length s - n) s.
Proof.
  induction s as [|a s IH]; intros [|n] Hn; simpl in *; try reflexivity; try lia.
  - rewrite substring_all. reflexivity.
  - rewrite (IH n) at 1 by lia. reflexivity.
Qed.

Lemma HasSuffix_spec s suffix :
  strings.HasSuffix s suffix = true ↔ endsIn s suffix.
Proof.
  unfold strings.HasSuffix, endsIn. split.
  - intros [Hlen Heq]%andb_true_iff.
    apply Nat.leb_le in Hlen. apply String.eqb_eq in Heq.
    exists (String.substring 0 (String.length s - String.length suffix) s).
    pose proof (substring_split s (String.length s - String.length suffix)) as Hs.
    replace (String.length s - (String.length s - String.length suffix))%nat
      with (String.length suffix) in Hs by lia.
    rewrite Heq in Hs. apply Hs. lia.
  - intros [front ->]. rewrite length_string_app. apply andb_true_iff. split.
    + apply Nat.leb_le. lia.
    + replace (String.length front + String.length suffix - String.length suffix)%nat
        with (String.length front) by lia.
      rewrite substring_append_r. apply String.eqb_refl.
Qed.

End Strings.

(** ** Host and port *)

Section HostPort.

Implicit Types (a b s addr port : string) (c : ascii).

Lemma String_append c a b : String c a ++ b = String c (a ++ b).
Proof. reflexivity. Qed.

Lemma empty_append b : "" ++ b = b.
Proof. reflexivity. Qed.

Lemma IndexByte_app a b c :
  strings.IndexByte (a ++ b) c =
    match strings.IndexByte a c with
    | Some i => Some i
    | None => option_map (fun i => (String.length a + i)%nat) (strings.IndexByte b c)
    end.
Proof.
  induction a as [|x a IH].
  - rewrite empty_append. simpl. destruct (strings.IndexByte b c); reflexivity.
  - rewrite String_append. simpl. destruct (Ascii.eqb x c); [reflexivity|].
    rewrite IH. destruct (strings.IndexByte a c); [reflexivity|].
    destruct (strings.IndexByte b c); reflexivity.
Qed.

Lemma LastIndexByte_app a b c :
  strings.LastIndexByte (a ++ b) c =
    match strings.LastIndexByte b c with
    | Some i => Some (String.length a + i)%nat
    | None => strings.LastIndexByte a c
    end.
Proof.
  induction a as [|x a IH].
  - rewrite empty_append. simpl. destruct (strings.LastIndexByte b c); reflexivity.
  - rewrite String_append. simpl. rewrite IH.
    destruct (strings.LastIndexByte b c); reflexivity.
Qed.

Lemma LastIndexByte_lacks s c : lacks c s → strings.LastIndexByte s c = None.
Proof.
  unfold lacks. induction s as [|x s IH]; simpl; [reflexivity|].
  destruct (Ascii.eqb x c); [discriminate|].
  destruct (strings.IndexByte s c); [discriminate|].
  intros _. rewrite IH; reflexivity.
Qed.

Lemma substring_prefix a b : String.substring 0 (String.length a) (a ++ b) = a.
Proof.
  induction a as [|x a IH].
  - rewrite empty_append. destruct b; reflexivity.
  - rewrite String_append. simpl. rewrite IH. reflexivity.
Qed.

Lemma sliceFrom_app a b : strings.sliceFrom (a ++ b) (String.length a) = b.
Proof.
  unfold strings.sliceFrom. rewrite length_string_app.
  replace (String.length a + String.length b - String.length a)%nat
    with (String.length b) by lia.
  apply substring_append_r.
Qed.

Lemma sliceFrom_0 s : strings.sliceFrom s 0 = s.
Proof. unfold strings.sliceFrom. rewrite Nat.sub_0_r. apply substring_all. Qed.

Lemma lacks_prefix s c rest :
  lacks c s → c ≠ ":"%char → String.prefix (String c "") (s ++ String ":" rest) = false.
Proof.
  unfold lacks. destruct s as [|x s]; [rewrite empty_append|rewrite String_append]; simpl.
  - intros _ Hc. destruct (ascii_dec c ":"); [contradiction|reflexivity].
  - destruct (Ascii.eqb_spec x c) as [->|Hne]; [discriminate|].
    intros _ _. destruct (ascii_dec c x) as [->|_]; [contradiction|reflexivity].
Qed.

Lemma sliceFrom_cons c s n : strings.sliceFrom (String c s) (S n) = strings.sliceFrom s n.
Proof. reflexivity. Qed.

Lemma sliceFrom_app_plus a b n :
  strings.sliceFrom (a ++ b) (String.length a + n) = strings.sliceFrom b n.
Proof.
  induction a as [|x a IH]; [reflexivity|].
  rewrite String_append. simpl String.length. rewrite Nat.add_succ_l, sliceFrom_cons.
  exact IH.
Qed.

Lemma slice_cons c s n m :
  strings.slice (String c s) (S n) (S m) = strings.slice s n m.
Proof. reflexivity. Qed.

Lemma slice_prefix a b : strings.slice (a ++ b) 0 (String.length a) = a.
Proof. unfold strings.slice. rewrite Nat.sub_0_r. apply substring_prefix. Qed.

Lemma HasPrefix_head c s : strings.HasPrefix (String c s) (String c "") = true.
Proof.
  unfold strings.HasPrefix. simpl.
  destruct (ascii_dec c c) as [_|Hne]; [|contradiction]. destruct s; reflexivity.
Qed.

(** Joining a port onto a bracket-free address gives an address that
    splits into that host and that port. *)
Lemma JoinHostPort_splits addr port :
  plainAddress addr → plainPort port →
  net.SplitHostPort (net.JoinHostPort addr port) = inl (addr, port).
Proof.
  intros [Hopen Hclose] (Hcolon & Hpopen & Hpclose).
  unfold lacks in *. unfold net.JoinHostPort.
  destruct (strings.IndexByte addr ":") as [i|] eqn:Haddr; simpl.
  - (* a host with a colon is put in brackets *)
    unfold net.SplitHostPort.
    change ("[" ++ addr ++ "]:" ++ port)
      with (String "[" (addr ++ String "]" (String ":" port))).
    set (tail := String "]" (String ":" port)).
    assert (Hlast : strings.LastIndexByte (String "[" (addr ++ tail)) ":"
                    = Some (S (String.length addr + 1))).
    { simpl. rewrite LastIndexByte_app. unfold tail. simpl.
      rewrite (LastIndexByte_lacks port ":" Hcolon). reflexivity. }
    rewrite Hlast.
    assert (Hend : strings.IndexByte (String "[" (addr ++ tail)) "]"
                   = Some (S (String.length addr))).
    { simpl. rewrite IndexByte_app, Hclose. unfold tail. simpl.
      rewrite Nat.add_0_r. reflexivity. }
    rewrite HasPrefix_head, Hend.
    assert (Hlen : String.length (String "[" (addr ++ tail))
                   = S (String.length addr + S (S (String.length port))))
      by (simpl; rewrite length_string_app; reflexivity).
    replace (S (String.length addr) + 1 =? String.length (String "[" (addr ++ tail)))%nat
      with false by (symmetry; apply Nat.eqb_neq; lia).
    replace (S (String.length addr) + 1 =? S (String.length addr + 1))%nat with true
      by (symmetry; apply Nat.eqb_eq; lia).
    unfold net.splitTail.
    rewrite slice_cons, slice_prefix.
    rewrite sliceFrom_cons, sliceFrom_0.
    rewrite IndexByte_app, Hopen. unfold tail. simpl. rewrite Hpopen. simpl.
    replace (S (String.length addr) + 1)%nat with (S (String.length addr + 1)) by lia.
    rewrite !sliceFrom_cons, !sliceFrom_app_plus.
    change (strings.sliceFrom (String "]" (String ":" port)) 1)
      with (strings.sliceFrom (String ":" port) 0).
    rewrite sliceFrom_0. simpl. rewrite Hpclose. simpl.
    replace (String.length addr + 1 + 1)%nat with (String.length addr + 2)%nat by lia.
    rewrite sliceFrom_app_plus.
    change (strings.sliceFrom (String "]" (String ":" port)) 2)
      with (strings.sliceFrom port 0).
    rewrite sliceFrom_0. reflexivity.
  - (* any other host is followed by the colon and the port *)
    unfold net.SplitHostPort.
    change (addr ++ ":" ++ port) with (addr ++ String ":" port).
    assert (Hlast : strings.LastIndexByte (addr ++ String ":" port) ":"
                    = Some (String.length addr + 0)%nat).
    { rewrite LastIndexByte_app. simpl.
      rewrite (LastIndexByte_lacks port ":" Hcolon). reflexivity. }
    rewrite Hlast. unfold strings.HasPrefix.
    rewrite (lacks_prefix addr "[" port Hopen) by discriminate.
    rewrite Nat.add_0_r, slice_prefix, Haddr. simpl.
    unfold net.splitTail. rewrite sliceFrom_0.
    rewrite !IndexByte_app, Hopen, Hclose. simpl. rewrite Hpopen, Hpclose. simpl.
    replace (String.length addr + 1)%nat with (String.length addr + 1)%nat by lia.
    rewrite sliceFrom_app_plus, sliceFrom_cons, sliceFrom_0. reflexivity.
Qed.

End HostPort.

(** ** Properties of the address normaliser *)

Section Normaliser.

Implicit Types (addrs result : list string) (seen : gset string).
Local Open Scope list_scope.

Lemma seenMatches_empty : seenMatches ∅ [].
Proof. intros x. set_solver. Qed.

Lemma seenMatches_step seen result val :
  seenMatches seen result → seenMatches ({[ val ]} ∪ seen) (result ++ [val]).
Proof.
  intros H x. specialize (H x).
  rewrite elem_of_union, elem_of_singleton, elem_of_app, list_elem_of_singleton. tauto.
Qed.

(** One more input entry at the end: appended unless already present. *)
Lemma removeDuplicateLoop_snoc addrs : ∀ seen result val,
  seenMatches seen result →
  removeDuplicateLoop seen result (addrs ++ [val]) =
    let r := removeDuplicateLoop seen result addrs in
    if decide (val ∈ r) then r else (r ++ [val])%list.
Proof.
  induction addrs as [|a addrs IH]; intros seen result val Hseen; simpl.
  - destruct (decide (val ∈ seen)) as [Hin|Hin];
      destruct (decide (val ∈ result)) as [Hin'|Hin']; try reflexivity.
    + exfalso. apply Hin', Hseen, Hin.
    + exfalso. apply Hin, Hseen, Hin'.
  - destruct (decide (a ∈ seen)); [apply IH; assumption|].
    apply IH, seenMatches_step, Hseen.
Qed.

Lemma removeDuplicateAddresses_snoc addrs val :
  removeDuplicateAddresses (addrs ++ [val]) =
    if decide (val ∈ removeDuplicateAddresses addrs)
    then removeDuplicateAddresses addrs
    else removeDuplicateAddresses addrs ++ [val].
Proof. apply (removeDuplicateLoop_snoc addrs ∅ [] val seenMatches_empty). Qed.

Lemma removeDuplicateAddresses_elem addrs x :
  x ∈ removeDuplicateAddresses addrs ↔ x ∈ addrs.
Proof.
  induction addrs as [|val addrs IH] using rev_ind; [reflexivity|].
  rewrite removeDuplicateAddresses_snoc.
  destruct (decide (val ∈ removeDuplicateAddresses addrs)) as [Hin|Hin];
    rewrite !elem_of_app, ?IH, ?list_elem_of_singleton.
  - split; [tauto|]. intros [H| ->]; [assumption|]. apply IH, Hin.
  - reflexivity.
Qed.

Lemma removeDuplicateAddresses_NoDup addrs :
  NoDup (removeDuplicateAddresses addrs).
Proof.
  induction addrs as [|val addrs IH] using rev_ind; [constructor|].
  rewrite removeDuplicateAddresses_snoc.
  destruct (decide (val ∈ removeDuplicateAddresses addrs)) as [Hin|Hin]; [assumption|].
  apply NoDup_app. split; [assumption|]. split.
  - intros x Hx ->%list_elem_of_singleton. contradiction.
  - apply NoDup_singleton.
Qed.

Lemma removeDuplicateAddresses_order addrs :
  firstSeenOrder addrs (removeDuplicateAddresses addrs).
Proof.
  induction addrs as [|val addrs IH] using rev_ind.
  - intros i j x y Hi. discriminate Hi.
  - intros i j x y. rewrite removeDuplicateAddresses_snoc.
    destruct (decide (val ∈ removeDuplicateAddresses addrs)) as [Hin|Hin].
    + intros Hi Hj Hlt.
      destruct (IH i j x y Hi Hj Hlt) as (before & after & -> & Hx & Hy).
      exists before, (after ++ [val]). rewrite <- app_assoc. auto.
    + intros Hi Hj Hlt.
      assert (Hjlen : (j < length (removeDuplicateAddresses addrs ++ [val]))%nat)
        by (apply lookup_lt_is_Some; eauto).
      rewrite length_app in Hjlen. simpl in Hjlen.
      rewrite lookup_app_l in Hi by lia.
      destruct (decide ((j < length (removeDuplicateAddresses addrs))%nat)) as [Hj'|Hj'].
      * rewrite lookup_app_l in Hj by lia.
        destruct (IH i j x y Hi Hj Hlt) as (before & after & -> & Hx & Hy).
        exists before, (after ++ [val]). rewrite <- app_assoc. auto.
      * rewrite lookup_app_r in Hj by lia.
        replace (j - length (removeDuplicateAddresses addrs))%nat with 0%nat in Hj by lia.
        injection Hj as <-.
        assert (Hx : x ∈ addrs)
          by (apply removeDuplicateAddresses_elem, list_elem_of_lookup; eauto).
        apply list_elem_of_split_l in Hx as (before & after & -> & Hx).
        exists before, (after ++ [val]). rewrite <- app_assoc.
        split; [reflexivity|]. split; [assumption|].
        intros Hval. apply Hin, removeDuplicateAddresses_elem.
        apply elem_of_app. left. assumption.
Qed.

(** A list without duplicates is left as it is. *)
Lemma removeDuplicateAddresses_id addrs :
  NoDup addrs → removeDuplicateAddresses addrs = addrs.
Proof.
  induction addrs as [|val addrs IH] using rev_ind; [reflexivity|].
  intros [Hnd [Hdisj _]]%NoDup_app.
  rewrite removeDuplicateAddresses_snoc, IH by assumption.
  destruct (decide (val ∈ addrs)) as [Hin|Hin]; [|reflexivity].
  exfalso. apply (Hdisj val Hin). apply list_elem_of_singleton. reflexivity.
Qed.

Lemma hasPortb_spec addr : hasPortb addr = true ↔ hasPort addr.
Proof.
  unfold hasPortb, hasPort. destruct (net.SplitHostPort addr) as [[h p]|e].
  - split; eauto.
  - split; [discriminate|]. intros (h & p & H). discriminate H.
Qed.

Lemma normalizeAddress_hasPort addr defaultPort :
  hasPort addr → normalizeAddress addr defaultPort = addr.
Proof. intros (h & p & H). unfold normalizeAddress. rewrite H. reflexivity. Qed.

Lemma normalizeAddress_noPort addr defaultPort :
  ¬ hasPort addr → normalizeAddress addr defaultPort = net.JoinHostPort addr defaultPort.
Proof.
  intros H. unfold normalizeAddress.
  destruct (net.SplitHostPort addr) as [[h p]|e] eqn:E; [|reflexivity].
  exfalso. apply H. exists h, p. exact E.
Qed.

Lemma hasPort_dec addr : hasPort addr ∨ ¬ hasPort addr.
Proof.
  destruct (hasPortb addr) eqn:E.
  - left. apply hasPortb_spec, E.
  - right. intros H%hasPortb_spec. congruence.
Qed.

Lemma map_normalizeAddress_id addrs defaultPort :
  (∀ x, x ∈ addrs → hasPort x) →
  map (fun addr => normalizeAddress addr defaultPort) addrs = addrs.
Proof.
  induction addrs as [|a addrs IH]; intros H; [reflexivity|]. simpl.
  rewrite normalizeAddress_hasPort by (apply H; left).
  rewrite IH; [reflexivity|]. intros x Hx. apply H. right. assumption.
Qed.

(** C4 (as amended): normalizeAddresses returns a list without
    duplicates, in first-seen order, whose entries are exactly the
    normal forms of the inputs: an input that already splits into host
    and port unchanged, any other input joined with the default port.
    Whenever each joined entry itself splits into host and port, every
    entry of the result carries an explicit port and normalising the
    result again with the same default port returns it unchanged; that is
    so when every input either has its port or is free of brackets, and
    the default port is free of colons and brackets. *)
Theorem normalizeAddresses_spec addrs (defaultPort : string) :
  let normal := map (fun addr => normalizeAddress addr defaultPort) addrs in
  let result := normalizeAddresses addrs defaultPort in
  NoDup result
  ∧ (∀ x, x ∈ result ↔ x ∈ normal)
  ∧ firstSeenOrder normal result
  ∧ (∀ x, x ∈ result →
       (x ∈ addrs ∧ hasPort x)
       ∨ ∃ a, a ∈ addrs ∧ ¬ hasPort a ∧ x = net.JoinHostPort a defaultPort)
  ∧ ((∀ a, a ∈ addrs → ¬ hasPort a → hasPort (net.JoinHostPort a defaultPort)) →
       (∀ x, x ∈ result → hasPort x)
       ∧ normalizeAddresses result defaultPort = result)
  ∧ ((∀ a, a ∈ addrs → hasPort a ∨ plainAddress a) → plainPort defaultPort →
       (∀ x, x ∈ result → hasPort x)
       ∧ normalizeAddresses result defaultPort = result).
Proof.
  intros normal result.
  assert (Hshape : ∀ x, x ∈ result →
            (x ∈ addrs ∧ hasPort x)
            ∨ ∃ a, a ∈ addrs ∧ ¬ hasPort a ∧ x = net.JoinHostPort a defaultPort).
  { intros x Hx. apply (proj1 (removeDuplicateAddresses_elem normal x)) in Hx.
    apply list_elem_of_fmap in Hx as (a & -> & Ha).
    destruct (hasPort_dec a) as [Hp|Hp].
    - left. rewrite normalizeAddress_hasPort by assumption. auto.
    - right. exists a. rewrite normalizeAddress_noPort by assumption. auto. }
  split; [apply removeDuplicateAddresses_NoDup|].
  split; [intros x; apply removeDuplicateAddresses_elem|].
  split; [apply removeDuplicateAddresses_order|].
  split; [exact Hshape|].
  assert (Hidem : (∀ a, a ∈ addrs → ¬ hasPort a →
                     hasPort (net.JoinHostPort a defaultPort)) →
                  (∀ x, x ∈ result → hasPort x)
                  ∧ normalizeAddresses result defaultPort = result).
  { intros Hjoin.
    assert (Hports : ∀ x, x ∈ result → hasPort x).
    { intros x Hx. destruct (Hshape x Hx) as [[_ Hp]|(a & Ha & Hp & ->)]; auto. }
    split; [exact Hports|].
    unfold normalizeAddresses at 1.
    rewrite map_normalizeAddress_id by exact Hports.
    apply removeDuplicateAddresses_id, removeDuplicateAddresses_NoDup. }
  split; [exact Hidem|].
  intros Hplain Hport. apply Hidem. intros a Ha Hno.
  destruct (Hplain a Ha) as [Hp|Hp]; [contradiction|].
  exists a, defaultPort. apply JoinHostPort_splits; assumption.
Qed.

(** The theorem at a listener list with a repeated entry, a bare host,
    an entry that has its port and an IPv6 literal. *)
Lemma normalizeAddresses_spec_witness :
  normalizeAddresses exampleListeners "8333"
  = ["localhost:8333"; "1.2.3.4:8333"; "[::1]:8333"]
  ∧ (∀ x, x ∈ normalizeAddresses exampleListeners "8333" → hasPort x)
  ∧ normalizeAddresses (normalizeAddresses exampleListeners "8333") "8333"
    = normalizeAddresses exampleListeners "8333".
Proof.
  split; [vm_compute; reflexivity|].
  apply (proj1 (proj2 (proj2 (proj2 (proj2
           (normalizeAddresses_spec exampleListeners "8333")))))).
  intros a Ha _. apply hasPortb_spec. unfold exampleListeners in Ha.
  repeat (apply elem_of_cons in Ha as [-> | Ha]; [vm_compute; reflexivity|]).
  apply elem_of_nil in Ha. contradiction.
Defined.

(** C4 (as stated) fails: a bracketed IPv6 literal without a port is
    bracketed once more when the port is joined on; the entry does not
    split into host and port, and a second normalisation changes it. *)
Lemma normalizeAddresses_not_idempotent :
  normalizeAddresses ["[::1]"] "8333" = ["[[::1]]:8333"]
  ∧ ¬ (∀ x, x ∈ normalizeAddresses ["[::1]"] "8333" → hasPort x)
  ∧ normalizeAddresses (normalizeAddresses ["[::1]"] "8333") "8333"
    = ["[[[::1]]:8333]:8333"]
  ∧ normalizeAddresses (normalizeAddresses ["[::1]"] "8333") "8333"
    ≠ normalizeAddresses ["[::1]"] "8333".
Proof.
  split; [vm_compute; reflexivity|]. split.
  - intros H. specialize (H "[[::1]]:8333").
    assert (Hin : "[[::1]]:8333" ∈ normalizeAddresses ["[::1]"] "8333")
      by (vm_compute; left).
    apply H, hasPortb_spec in Hin. vm_compute in Hin. discriminate Hin.
  - split; [vm_compute; reflexivity|]. vm_compute. discriminate.
Qed.

End Normaliser.


(** ** Runs: the rules of [wp] and the events of a run *)

Ltac case_if :=
  match goal with
  | |- context [if ?b then _ else _] => destruct b eqn:?
  end.

Section Runs.

Context {A B : Type}.

Lemma wp_bind (m : M A) (k : A -> M B) s (Q : Outcome B -> State -> Prop) :
  wp m s (fun o s' =>
            match o with
            | Return a => wp (k a) s' Q
            | Failure e => Q (Failure e) s'
            | OsExit c => Q (OsExit c) s'
            | Panic p => Q (Panic p) s'
            end) →
  wp (bind m k) s Q.
Proof. unfold wp, bind. destruct (m s) as [[a|e|c|p] s']; simpl; auto. Qed.

Lemma wp_mono (m : M A) s (Q Q' : Outcome A -> State -> Prop) :
  wp m s Q → (∀ o s', Q o s' → Q' o s') → wp m s Q'.
Proof. unfold wp. auto. Qed.

Lemma wp_run (m : M A) s o s' (Q : Outcome A -> State -> Prop) :
  wp m s Q → m s = (o, s') → Q o s'.
Proof. unfold wp. intros H E. rewrite E in H. exact H. Qed.

Lemma bind_Return (m : M A) (k : A -> M B) s a s' :
  m s = (Return a, s') → bind m k s = k a s'.
Proof. unfold bind. intros ->. reflexivity. Qed.

End Runs.

Section Events.

Implicit Types (P : Event -> Prop) (out : list Event).
Local Open Scope list_scope.

Lemma extends_refl P out : extends P out out.
Proof. exists []. split; [symmetry; apply app_nil_r|constructor]. Qed.

Lemma extends_trans P out1 out2 out3 :
  extends P out1 out2 → extends P out2 out3 → extends P out1 out3.
Proof.
  intros (e1 & -> & H1) (e2 & -> & H2). exists (e1 ++ e2).
  split; [symmetry; apply app_assoc|]. apply Forall_app. auto.
Qed.

Lemma extends_snoc P out1 out2 e :
  extends P out1 out2 → P e → extends P out1 (out2 ++ [e]).
Proof.
  intros H He. apply (extends_trans P out1 out2); [exact H|].
  exists [e]. split; [reflexivity|]. constructor; [exact He|constructor].
Qed.

Lemma extends_weaken P P' out1 out2 :
  (∀ e, P e → P' e) → extends P out1 out2 → extends P' out1 out2.
Proof.
  intros HP (evs & -> & H). exists evs. split; [reflexivity|].
  eapply Forall_impl; eauto.
Qed.

Lemma quiet_quietBut configFileError e : quiet e → quietBut configFileError e.
Proof. destruct e; simpl; tauto. Qed.

(** What lies in the extended output and is not in [P] was there before. *)
Lemma extends_elem P out1 out2 e :
  extends P out1 out2 → e ∈ out2 → ¬ P e → e ∈ out1.
Proof.
  intros (evs & -> & H) [Hin|Hin]%elem_of_app HP; [exact Hin|].
  exfalso. apply HP. rewrite Forall_forall in H. apply H. exact Hin.
Qed.

Lemma extends_keeps P out1 out2 e : extends P out1 out2 → e ∈ out1 → e ∈ out2.
Proof. intros (evs & -> & H) Hin. apply elem_of_app. left. exact Hin. Qed.

End Events.

(** Solves [extends quiet _ _] goals on explicit outputs. *)
Ltac solve_extends :=
  simpl;
  repeat first
    [ apply extends_refl
    | apply extends_snoc; [|exact I]
    | eassumption ].

(** ** The steps of loadConfig *)

Section Steps.

Variable w : World.

Lemma otherError_Errorf format args :
  format ≠ "%s: The testnet, regtest, and simnet params can't be used together -- choose one of the three" →
  format ≠ "%s: The blockmaxsize option must be in between %d and %d -- parsed [%d]" →
  otherError (Errorf format args).
Proof.
  intros H1 H2. split.
  - intros E. apply H1. injection E as E _. exact E.
  - intros w' cfg E. apply H2. injection E as E _. exact E.
Qed.

Lemma otherError_DNSError err name : otherError (DNSError err name).
Proof. split; [discriminate|]. intros w' cfg. discriminate. Qed.

(** setupDialAndLookup writes the four function fields only. *)
Lemma setupDialAndLookup_settings cfg :
  settings (setupDialAndLookup cfg) = settings cfg.
Proof.
  destruct cfg. unfold setupDialAndLookup, settings, proxyOptions. cbn.
  repeat case_if; reflexivity.
Qed.

Lemma selectNetwork_post cfg s :
  wp (selectNetwork cfg) s (fun o s' =>
    match o with
    | Return cfg' =>
        (numNets cfg <= 1)%Z
        ∧ activeNetParams s' = chosenNet cfg (activeNetParams s)
        ∧ output s' = output s
        ∧ settings cfg' = settings cfg
    | Failure e =>
        (numNets cfg > 1)%Z
        ∧ e = multipleNetsError
        ∧ activeNetParams s' = activeNetParams s
        ∧ output s' = (output s ++ [Stderr multipleNetsError; WriteHelp])%list
    | _ => False
    end).
Proof.
  unfold wp, selectNetwork, chosenNet.
  destruct (numNets cfg >? 1)%Z eqn:Hn.
  - simpl. rewrite <- app_assoc. repeat split. lia.
  - assert (numNets cfg <= 1)%Z by lia.
    destruct (TestNet3 cfg), (RegressionTest cfg), (SimNet cfg); simpl; auto.
Qed.

Lemma namespaceDirs_post cfg s :
  step (namespaceDirs w cfg) s (fun cfg' => settings cfg' = settings cfg) (fun _ => False).
Proof. unfold step, wp, namespaceDirs. simpl. repeat split. apply extends_refl. Qed.

Lemma setLogLevelPairs_post pairs : ∀ s,
  step (setLogLevelPairs w pairs) s (fun _ => True) (fun _ => True).
Proof.
  induction pairs as [|logLevelPair rest IH]; intros s; unfold step, wp; simpl.
  - repeat split. apply extends_refl.
  - destruct (strings.Contains logLevelPair "="); simpl;
      [|repeat split; apply extends_refl].
    destruct (strings.Split logLevelPair "=" !! 0%nat) as [subsysID|];
      [|simpl; repeat split; apply extends_refl].
    destruct (strings.Split logLevelPair "=" !! 1%nat) as [logLevel|];
      [|simpl; repeat split; apply extends_refl].
    destruct (bool_decide (subsysID ∈ subsystemLoggers w)); simpl;
      [|repeat split; apply extends_refl].
    destruct (validLogLevel logLevel); simpl; [|repeat split; apply extends_refl].
    unfold bind. simpl.
    match goal with |- context [setLogLevelPairs w rest ?s1] =>
      specialize (IH s1); unfold step, wp in IH;
      destruct (setLogLevelPairs w rest s1) as [o s2] end.
    simpl in IH. destruct IH as (Hnet & Hext & _).
    assert (extends quiet (output s) (output s2)).
    { eapply extends_trans; [|exact Hext]. solve_extends. }
    destruct o; simpl; auto.
Qed.

Lemma parseAndSetDebugLevels_post debugLevel s :
  step (parseAndSetDebugLevels w debugLevel) s (fun _ => True) (fun _ => True).
Proof.
  unfold parseAndSetDebugLevels.
  destruct (negb (strings.Contains debugLevel ",") && negb (strings.Contains debugLevel "="));
    [|apply setLogLevelPairs_post].
  unfold step, wp. destruct (validLogLevel debugLevel); simpl; repeat split; solve_extends.
Qed.

Lemma setupLogging_post cfg s :
  step (setupLogging w cfg) s (fun _ => True) otherError.
Proof.
  unfold setupLogging.
  destruct (String.eqb (DebugLevel cfg) "show").
  { unfold step, wp. simpl. repeat split. solve_extends. }
  unfold step, wp, bind. simpl.
  match goal with |- context [parseAndSetDebugLevels w ?d ?s1] =>
    pose proof (parseAndSetDebugLevels_post d s1) as H;
    unfold step, wp in H;
    destruct (parseAndSetDebugLevels w d s1) as [o s2] end.
  simpl in H. destruct H as (Hnet & Hext & _).
  assert (Hext' : extends quiet (output s) (output s2)).
  { eapply extends_trans; [|exact Hext]. solve_extends. }
  destruct o; simpl; repeat split; auto; try solve_extends.
  all: intros; discriminate.
Qed.

Lemma validateOptions_post cfg s :
  step (validateOptions w cfg) s (fun _ => True) otherError.
Proof.
  unfold step, wp, validateOptions.
  repeat (case_if; simpl;
          [split; [reflexivity|split; [solve_extends|]];
           apply otherError_Errorf; discriminate|]).
  repeat split. solve_extends.
Qed.

Lemma listenAndRPCDefaults_post cfg s :
  step (listenAndRPCDefaults w cfg) s
       (fun cfg' =>
          RPCUser cfg' = RPCUser cfg ∧ RPCPass cfg' = RPCPass cfg
          ∧ DisableRPC cfg' =
              (if String.eqb (RPCUser cfg) "" || String.eqb (RPCPass cfg) ""
               then true else DisableRPC cfg)
          ∧ (BlockMinSize cfg', BlockMaxSize cfg', BlockPrioritySize cfg')
            = (BlockMinSize cfg, BlockMaxSize cfg, BlockPrioritySize cfg)
          ∧ proxyOptions cfg' = proxyOptions cfg)
       otherError.
Proof.
  destruct cfg. unfold step, wp, listenAndRPCDefaults, proxyOptions. cbn.
  repeat (case_if; cbn in * );
    try (destruct (net_LookupHost w "localhost") as [addrs|[err name]]; cbn);
    repeat split; try congruence;
    solve [solve_extends | apply otherError_DNSError].
Qed.

Lemma limitBlockSizes_post cfg s :
  wp (limitBlockSizes w cfg) s (fun o s' =>
    activeNetParams s' = activeNetParams s
    ∧ match o with
      | Return cfg' =>
          blockMaxSizeInRange w cfg
          ∧ output s' = output s
          ∧ settings cfg' =
              settings (set_BlockMinSize (minUint32 (BlockMinSize cfg) (BlockMaxSize cfg))
                          (set_BlockPrioritySize
                             (minUint32 (BlockPrioritySize cfg) (BlockMaxSize cfg)) cfg))
      | Failure e =>
          ¬ blockMaxSizeInRange w cfg
          ∧ e = blockMaxSizeError w cfg
          ∧ output s' = (output s ++ [Stderr (blockMaxSizeError w cfg); WriteHelp])%list
      | _ => False
      end).
Proof.
  unfold wp, limitBlockSizes, blockMaxSizeInRange.
  case_if; simpl.
  - rewrite <- app_assoc. repeat split. lia.
  - repeat split; lia.
Qed.

Lemma decodeMiningKeys_post net keys : ∀ acc s,
  step (decodeMiningKeys w net keys acc) s (fun _ => True) otherError.
Proof.
  induction keys as [|strAddr rest IH]; intros acc s; simpl.
  - unfold step, wp. simpl. repeat split. solve_extends.
  - destruct (btcutil_DecodeAddress w strAddr net) as [addr|err].
    + destruct (IsForNet w addr net); simpl; [apply IH|].
      unfold step, wp. simpl. split; [reflexivity|split; [solve_extends|]].
      apply otherError_Errorf; discriminate.
    + unfold step, wp. simpl. split; [reflexivity|split; [solve_extends|]].
      apply otherError_Errorf; discriminate.
Qed.

Lemma checkMiningKeys_post cfg s :
  step (checkMiningKeys w cfg) s (fun cfg' => settings cfg' = settings cfg) otherError.
Proof.
  unfold checkMiningKeys, step, wp, bind. simpl.
  pose proof (decodeMiningKeys_post (activeNetParams s) (GetWorkKeys cfg) [] s) as H.
  unfold step, wp in H.
  destruct (decodeMiningKeys w (activeNetParams s) (GetWorkKeys cfg) [] s) as [o s'].
  destruct o; simpl in *; tauto.
Qed.

Lemma normalizeAddressLists_post cfg s :
  step (normalizeAddressLists w cfg) s
       (fun cfg' => settings cfg' = settings cfg) (fun _ => False).
Proof. unfold step, wp. simpl. repeat split. solve_extends. Qed.

(** Everything after the merge, in one statement. *)
Lemma resolveConfig_post cfg remainingArgs configFileError s :
  wp (resolveConfig w cfg remainingArgs configFileError) s
     (resolved w cfg remainingArgs configFileError s).
Proof.
  unfold resolveConfig.
  apply wp_bind. eapply wp_mono; [apply selectNetwork_post|]. cbv beta.
  intros [c1|e|code|p] s1 K1; try contradiction.
  2:{ destruct K1 as (Hn & -> & Hnet & Hout). split.
      - rewrite Hout. eexists. split; [reflexivity|]. repeat constructor.
      - left. auto. }
  destruct K1 as (Hn & Hnet1 & Hout1 & Hc1).
  assert (Hext1 : extends quiet (output s) (output s1))
    by (rewrite Hout1; apply extends_refl).
  apply wp_bind. eapply wp_mono; [apply namespaceDirs_post|]. cbv beta.
  intros [c2|e|code|p] s2 (Hnet2 & Hext2 & K2); try contradiction.
  all: pose proof (extends_trans _ _ _ _ Hext1 Hext2) as Hext2'.
  all: assert (Hnet2' : activeNetParams s2 = chosenNet cfg (activeNetParams s))
    by congruence.
  all: try (split; [eapply extends_weaken; [apply quiet_quietBut|eassumption]|auto]; fail).
  apply wp_bind. eapply wp_mono; [apply setupLogging_post|]. cbv beta.
  intros [[]|e|code|p] s3 (Hnet3 & Hext3 & K3).
  all: pose proof (extends_trans _ _ _ _ Hext2' Hext3) as Hext3'.
  all: assert (Hnet3' : activeNetParams s3 = chosenNet cfg (activeNetParams s))
    by congruence.
  all: try (split; [eapply extends_weaken; [apply quiet_quietBut|eassumption]|auto]; fail).
  apply wp_bind. eapply wp_mono; [apply validateOptions_post|]. cbv beta.
  intros [[]|e|code|p] s4 (Hnet4 & Hext4 & K4).
  all: pose proof (extends_trans _ _ _ _ Hext3' Hext4) as Hext4'.
  all: assert (Hnet4' : activeNetParams s4 = chosenNet cfg (activeNetParams s))
    by congruence.
  all: try (split; [eapply extends_weaken; [apply quiet_quietBut|eassumption]|auto]; fail).
  apply wp_bind. eapply wp_mono; [apply listenAndRPCDefaults_post|]. cbv beta.
  intros [c5|e|code|p] s5 (Hnet5 & Hext5 & K5).
  all: pose proof (extends_trans _ _ _ _ Hext4' Hext5) as Hext5'.
  all: assert (Hnet5' : activeNetParams s5 = chosenNet cfg (activeNetParams s))
    by congruence.
  all: try (split; [eapply extends_weaken; [apply quiet_quietBut|eassumption]|auto]; fail).
  destruct K5 as (Huser & Hpass & Hrpc & Hblock & Hproxy).
  injection Hblock as Hmin Hmax Hprio.
  unfold settings in Hc1, K2. injection Hc1 as E1 E2 E3 E4 E5 E6 E7.
  injection K2 as F1 F2 F3 F4 F5 F6 F7.
  assert (Hrange : blockMaxSizeInRange w c5 ↔ blockMaxSizeInRange w cfg)
    by (unfold blockMaxSizeInRange; rewrite Hmax, F5, E5; reflexivity).
  assert (Herr : blockMaxSizeError w c5 = blockMaxSizeError w cfg)
    by (unfold blockMaxSizeError; rewrite Hmax, F5, E5; reflexivity).
  apply wp_bind. eapply wp_mono; [apply limitBlockSizes_post|]. cbv beta.
  intros [c6|e|code|p] s6 (Hnet6 & K6); try contradiction.
  2:{ destruct K6 as (Hout & -> & Hout6). split.
      - apply (extends_trans _ _ (output s5)).
        + eapply extends_weaken; [apply quiet_quietBut|eassumption].
        + rewrite Hout6. eexists. split; [reflexivity|]. repeat constructor.
      - right. split; [assumption|]. split; [congruence|]. left.
        rewrite <- Hrange, Herr. auto. }
  destruct K6 as (Hin & Hout6 & Hc6).
  assert (Hext6' : extends quiet (output s) (output s6)) by (rewrite Hout6; assumption).
  assert (Hnet6' : activeNetParams s6 = chosenNet cfg (activeNetParams s)) by congruence.
  apply wp_bind. eapply wp_mono; [apply checkMiningKeys_post|]. cbv beta.
  intros [c7|e|code|p] s7 (Hnet7 & Hext7 & K7).
  all: pose proof (extends_trans _ _ _ _ Hext6' Hext7) as Hext7'.
  all: assert (Hnet7' : activeNetParams s7 = chosenNet cfg (activeNetParams s))
    by congruence.
  all: try (split; [eapply extends_weaken; [apply quiet_quietBut|eassumption]|auto]; fail).
  apply wp_bind. eapply wp_mono; [apply normalizeAddressLists_post|]. cbv beta.
  intros [c8|e|code|p] s8 (Hnet8 & Hext8 & K8); try contradiction.
  all: pose proof (extends_trans _ _ _ _ Hext7' Hext8) as Hext8'.
  all: assert (Hnet8' : activeNetParams s8 = chosenNet cfg (activeNetParams s))
    by congruence.
  all: try (split; [eapply extends_weaken; [apply quiet_quietBut|eassumption]|auto]; fail).
  assert (Hsettings : settings (setupDialAndLookup c8) =
            (RPCUser cfg, RPCPass cfg,
             (if String.eqb (RPCUser cfg) "" || String.eqb (RPCPass cfg) ""
              then true else DisableRPC cfg),
             (minUint32 (BlockMinSize cfg) (BlockMaxSize cfg),
              BlockMaxSize cfg,
              minUint32 (BlockPrioritySize cfg) (BlockMaxSize cfg)),
             proxyOptions cfg)).
  { rewrite setupDialAndLookup_settings, K8, K7, Hc6.
    unfold settings, proxyOptions in *. simpl.
    rewrite Hrpc, F1, F2, F3, E1, E2, E3. congruence. }
  unfold wp, warnConfigFile, resolved.
  destruct configFileError as [err|]; simpl.
  - split.
    + apply extends_snoc; [|reflexivity].
      eapply extends_weaken; [apply quiet_quietBut|eassumption].
    + split; [reflexivity|]. split; [assumption|].
      split; [apply Hrange; assumption|]. split; [assumption|].
      split; [eauto|]. split; [exact Hsettings|].
      intros err' [= <-]. eauto.
  - split.
    + eapply extends_weaken; [apply quiet_quietBut|eassumption].
    + split; [reflexivity|]. split; [assumption|].
      split; [apply Hrange; assumption|]. split; [assumption|].
      split; [eauto|]. split; [exact Hsettings|].
      intros err' [=].
Qed.

End Steps.

(** ** The three sources *)

Section Sources.

Variable w : World.

Lemma preParse_post s :
  step (preParse w) s (fun _ => True) (fun _ => True).
Proof.
  unfold step, wp, preParse.
  destruct (os_MkdirAll w (btcdHomeDir w)) as [err|]; simpl;
    [repeat split; solve_extends|].
  destruct (flags_Parse w flags_None (defaultConfig w) {| ServiceCommand := "" |})
    as [[preCfg serviceOpts] parsed]; simpl.
  destruct (ShowVersion preCfg); simpl; [repeat split; solve_extends|].
  destruct (runServiceCommand w) as [run|]; simpl; [|repeat split; solve_extends].
  destruct (negb (String.eqb (ServiceCommand serviceOpts) "")); simpl;
    [|repeat split; solve_extends].
  destruct (run (ServiceCommand serviceOpts)); simpl; repeat split; solve_extends.
Qed.

Lemma finalParse_post cfg serviceOpts configFileError s :
  step (finalParse w cfg serviceOpts configFileError) s
       (fun merged => merged.2 = configFileError) (fun _ => True).
Proof.
  unfold step, wp, finalParse.
  destruct (flags_Parse w flags_Default cfg serviceOpts) as [[cfg' so'] [rem|err]];
    simpl; [repeat split; solve_extends|].
  destruct (notHelpRequest err); simpl; repeat split; solve_extends.
Qed.

(** From the merge on, loadConfig is the steps after the merge. *)
Lemma loadConfig_merged s merged remainingArgs configFileError s1 :
  mergeSources w s = (Return (merged, remainingArgs, configFileError), s1) →
  loadConfig w s = resolveConfig w merged remainingArgs configFileError s1.
Proof. intros H. unfold loadConfig. rewrite (bind_Return _ _ _ _ _ H). reflexivity. Qed.

Lemma loadConfig_resolved s merged remainingArgs configFileError s1 :
  mergeSources w s = (Return (merged, remainingArgs, configFileError), s1) →
  resolved w merged remainingArgs configFileError s1
           (loadConfig w s).1 (loadConfig w s).2.
Proof. intros H. rewrite (loadConfig_merged _ _ _ _ _ H). apply resolveConfig_post. Qed.

(** The merge leaves the active network alone. *)
Lemma mergeSources_net s o s1 :
  mergeSources w s = (o, s1) → activeNetParams s1 = activeNetParams s.
Proof.
  unfold mergeSources, beforeFinalParse, bind.
  pose proof (preParse_post s) as Hpre. unfold step, wp in Hpre.
  destruct (preParse w s) as [[[preCfg so]|e|c|p] s0]; simpl in Hpre;
    destruct Hpre as (Hnet0 & _); try (intros [= <- <-]; exact Hnet0).
  unfold loadConfigFile.
  destruct (readsConfigFile w preCfg); simpl.
  - destruct (ini_ParseFile w (ConfigFile preCfg) (defaultConfig w) so)
      as [[fileCfg so'] [err|]]; simpl.
    + destruct (isPathError err); simpl.
      * pose proof (finalParse_post (dropFilePeers preCfg fileCfg) so' (Some err)
                      (emitted [ParseFile (ConfigFile preCfg)] s0)) as Hfin.
        unfold step, wp in Hfin. unfold emitted in Hfin.
        intros E. rewrite E in Hfin. simpl in Hfin. destruct Hfin as (-> & _).
        exact Hnet0.
      * intros [= <- <-]. exact Hnet0.
    + pose proof (finalParse_post (dropFilePeers preCfg fileCfg) so' None
                    (emitted [ParseFile (ConfigFile preCfg)] s0)) as Hfin.
      unfold step, wp in Hfin. unfold emitted in Hfin.
      intros E. rewrite E in Hfin. simpl in Hfin. destruct Hfin as (-> & _).
      exact Hnet0.
  - pose proof (finalParse_post (dropFilePeers preCfg (defaultConfig w)) so None s0)
      as Hfin.
    unfold step, wp in Hfin.
    intros E. rewrite E in Hfin. simpl in Hfin. destruct Hfin as (-> & _).
    exact Hnet0.
Qed.

End Sources.

(** ** Dispatch on the onion suffix *)


Section DispatchProperties.

Context {Conn IP : Type}.
Variable sys_Dial : string -> string -> Conn + error.
Variable socks_Dial : socks_Proxy -> string -> string -> Conn + error.
Variable sys_LookupIP : string -> list IP + error.
Variable torLookupIP : string -> string -> list IP + error.

(** C6: btcdDial calls the onion dial function exactly when the address
    ends in ".onion" and the normal dial function otherwise; btcdLookup
    does the same with the lookup functions on the host name. *)
Theorem btcd_dispatch_on_onion_suffix (cfg : config) (network address host : string) :
  (endsIn address ".onion" →
     btcdDial sys_Dial socks_Dial cfg network address
     = invokeDial sys_Dial socks_Dial cfg (oniondial cfg) network address)
  ∧ (¬ endsIn address ".onion" →
     btcdDial sys_Dial socks_Dial cfg network address
     = invokeDial sys_Dial socks_Dial cfg (dial cfg) network address)
  ∧ (endsIn host ".onion" →
     btcdLookup sys_LookupIP torLookupIP cfg host
     = invokeLookup sys_LookupIP torLookupIP cfg (onionlookup cfg) host)
  ∧ (¬ endsIn host ".onion" →
     btcdLookup sys_LookupIP torLookupIP cfg host
     = invokeLookup sys_LookupIP torLookupIP cfg (lookup cfg) host).
Proof.
  unfold btcdDial, btcdLookup. repeat split.
  - intros H%HasSuffix_spec. rewrite H. reflexivity.
  - intros H. destruct (strings.HasSuffix address ".onion") eqn:E; [|reflexivity].
    exfalso. apply H, HasSuffix_spec, E.
  - intros H%HasSuffix_spec. rewrite H. reflexivity.
  - intros H. destruct (strings.HasSuffix host ".onion") eqn:E; [|reflexivity].
    exfalso. apply H, HasSuffix_spec, E.
Qed.

End DispatchProperties.

(** The dispatch on a hidden-service address and on an ordinary one, with
    a proxy for normal traffic and Tor disabled: the first is refused, the
    second goes through the proxy. *)
Lemma btcd_dispatch_on_onion_suffix_witness :
  btcdDial route_Dial route_socksDial proxyNoOnionConfig "tcp" "xyz.onion"
  = Failure torDisabled
  ∧ btcdDial route_Dial route_socksDial proxyNoOnionConfig "tcp" "1.2.3.4:8333"
    = Return ("127.0.0.1:9050", "1.2.3.4:8333").
Proof.
  split.
  - rewrite (proj1 (btcd_dispatch_on_onion_suffix
                      route_Dial route_socksDial route_LookupIP route_torLookupIP
                      proxyNoOnionConfig "tcp" "xyz.onion" "")).
    + reflexivity.
    + exists "xyz". reflexivity.
  - rewrite (proj1 (proj2 (btcd_dispatch_on_onion_suffix
                             route_Dial route_socksDial route_LookupIP route_torLookupIP
                             proxyNoOnionConfig "tcp" "1.2.3.4:8333" ""))).
    + reflexivity.
    + intros H%HasSuffix_spec. vm_compute in H. discriminate H.
Defined.

(** ** The dial and lookup strategies *)

Section StrategyTable.

(** The function fields after setupDialAndLookup are those of the
    table. *)
Lemma setupDialAndLookup_table cfg :
  strategies (setupDialAndLookup cfg) = spec_fields cfg.
Proof.
  destruct cfg.
  unfold setupDialAndLookup, strategies, spec_fields, spec_strategies. cbn.
  destruct (String.eqb Proxy0 ""); cbn;
    destruct NoOnion0; cbn;
    destruct (String.eqb OnionProxy0 ""); reflexivity.
Qed.

Lemma spec_fields_proxyOptions cfg cfg' :
  proxyOptions cfg' = proxyOptions cfg → spec_fields cfg' = spec_fields cfg.
Proof.
  unfold proxyOptions, spec_fields, spec_strategies, spec_dial.
  intros [= -> -> -> -> _ _ ->]. reflexivity.
Qed.

(** C1: whatever the proxy, the onion proxy and the no-onion flag are,
    setupDialAndLookup leaves the normal dial and lookup and the onion
    dial and lookup as the table of section 4.8 prescribes, none of the
    four unset, and so does every configuration loadConfig returns. *)
Theorem strategies_match_table :
  (∀ cfg,
     strategies (setupDialAndLookup cfg) = spec_fields cfg
     ∧ proxyOptions (setupDialAndLookup cfg) = proxyOptions cfg)
  ∧ (∀ w s cfg remainingArgs s',
       loadConfig w s = (Return (cfg, remainingArgs), s') →
       strategies cfg = spec_fields cfg
       ∧ dial cfg ≠ None ∧ lookup cfg ≠ None
       ∧ oniondial cfg ≠ None ∧ onionlookup cfg ≠ None).
Proof.
  assert (Hstage : ∀ cfg,
            strategies (setupDialAndLookup cfg) = spec_fields cfg
            ∧ proxyOptions (setupDialAndLookup cfg) = proxyOptions cfg).
  { intros cfg. split; [apply setupDialAndLookup_table|].
    exact (f_equal snd (setupDialAndLookup_settings cfg)). }
  split; [exact Hstage|].
  intros w s cfg remainingArgs s' Hrun.
  assert (Hcfg : ∃ cfg', cfg = setupDialAndLookup cfg').
  { unfold loadConfig, bind in Hrun.
    destruct (mergeSources w s) as [[[[merged rem] cfe]|e|c|p] s1] eqn:Hmerge;
      try discriminate Hrun.
    pose proof (resolveConfig_post w merged rem cfe s1) as Hpost.
    apply (wp_run _ _ _ _ _ Hpost) in Hrun.
    destruct Hrun as (_ & _ & _ & _ & _ & Hcfg & _). exact Hcfg. }
  destruct Hcfg as (cfg' & ->).
  destruct (Hstage cfg') as (Htable & Hsame).
  assert (Hfields : strategies (setupDialAndLookup cfg')
                    = spec_fields (setupDialAndLookup cfg')).
  { rewrite Htable. symmetry. apply spec_fields_proxyOptions, Hsame. }
  split; [exact Hfields|].
  unfold strategies, spec_fields in Hfields.
  destruct (spec_strategies (setupDialAndLookup cfg')) as [[d l] [od ol]].
  injection Hfields as -> -> -> ->. repeat split; discriminate.
Qed.

(** The theorem at --proxy=127.0.0.1:9050 --noonion. *)
Lemma strategies_match_table_witness :
  strategies (loadedConfig proxyNoOnionWorld)
  = ((Some (proxy_Dial {| Addr := "127.0.0.1:9050"; Username := ""; Password := "" |}),
      Some net_LookupIP),
     (Some dialTorDisabled, Some lookupTorDisabled)).
Proof.
  refine (eq_trans
            (proj1 (proj2 strategies_match_table proxyNoOnionWorld initialState
                      (loadedConfig proxyNoOnionWorld) []
                      (loadConfig proxyNoOnionWorld initialState).2 _)) _).
  - vm_compute. reflexivity.
  - vm_compute. reflexivity.
Defined.

End StrategyTable.

(** ** Properties of the merged configuration *)

Section Merged.

Variable w : World.

(** C7: when the merged configuration has an empty RPC user name or an
    empty RPC password, the configuration loadConfig returns has
    DisableRPC set; with both given, DisableRPC is as it was merged. *)
Theorem rpc_disabled_without_credentials
        s merged remainingArgs configFileError s1 cfg remaining' s' :
  mergeSources w s = (Return (merged, remainingArgs, configFileError), s1) →
  loadConfig w s = (Return (cfg, remaining'), s') →
  (RPCUser merged = "" ∨ RPCPass merged = "" → DisableRPC cfg = true)
  ∧ (RPCUser merged ≠ "" → RPCPass merged ≠ "" → DisableRPC cfg = DisableRPC merged)
  ∧ RPCUser cfg = RPCUser merged ∧ RPCPass cfg = RPCPass merged.
Proof.
  intros Hmerge Hrun.
  pose proof (loadConfig_resolved w _ _ _ _ _ Hmerge) as Hpost.
  rewrite Hrun in Hpost. simpl in Hpost.
  destruct Hpost as (_ & _ & _ & _ & _ & _ & Hsettings & _).
  unfold settings in Hsettings. injection Hsettings as Huser Hpass Hrpc _ _ _ _.
  split; [|split; [|auto]].
  - intros [E|E]; rewrite Hrpc, E; simpl; [reflexivity|].
    rewrite orb_true_r. reflexivity.
  - intros Hu Hp. rewrite Hrpc.
    apply String.eqb_neq in Hu, Hp. rewrite Hu, Hp. reflexivity.
Qed.

(** Two or more network flags, by the count loadConfig keeps. *)
Lemma severalNets_numNets cfg : severalNets cfg = true ↔ (numNets cfg > 1)%Z.
Proof.
  unfold severalNets, numNets.
  destruct (TestNet3 cfg), (RegressionTest cfg), (SimNet cfg); simpl;
    split; (discriminate || lia || reflexivity).
Qed.

(** C3: on the merged configuration, loadConfig fails with its
    network-selection error exactly when two or three of TestNet3,
    RegressionTest and SimNet are set, having printed the error and the
    usage and bound no network; with at most one set the run ends with
    the matching profile bound, and with none set the active network
    stays what it was, the main network at program start. *)
Theorem network_selection s merged remainingArgs configFileError s1 :
  mergeSources w s = (Return (merged, remainingArgs, configFileError), s1) →
  (severalNets merged = true ↔ (loadConfig w s).1 = Failure multipleNetsError)
  ∧ (severalNets merged = true →
       output (loadConfig w s).2
       = (output s1 ++ [Stderr multipleNetsError; WriteHelp])%list
       ∧ activeNetParams (loadConfig w s).2 = activeNetParams s)
  ∧ (severalNets merged = false →
       (TestNet3 merged = true →
          activeNetParams (loadConfig w s).2 = testNet3Params)
       ∧ (RegressionTest merged = true →
            activeNetParams (loadConfig w s).2 = regressionNetParams)
       ∧ (SimNet merged = true →
            activeNetParams (loadConfig w s).2 = simNetParams)
       ∧ (TestNet3 merged = false → RegressionTest merged = false →
          SimNet merged = false →
            activeNetParams (loadConfig w s).2 = activeNetParams s
            ∧ (s = initialState →
               activeNetParams (loadConfig w s).2 = mainNetParams))).
Proof.
  intros Hmerge.
  pose proof (loadConfig_resolved w _ _ _ _ _ Hmerge) as Hpost.
  pose proof (mergeSources_net w _ _ _ Hmerge) as Hnet1.
  pose proof (severalNets_numNets merged) as Hcount.
  destruct (loadConfig w s) as [o s'] eqn:Hrun. simpl in *.
  destruct Hpost as (_ & Hpost).
  assert (Hcases :
            ((numNets merged > 1)%Z ∧ o = Failure multipleNetsError
             ∧ activeNetParams s' = activeNetParams s1
             ∧ output s' = (output s1 ++ [Stderr multipleNetsError; WriteHelp])%list)
            ∨ ((numNets merged <= 1)%Z ∧ o ≠ Failure multipleNetsError
               ∧ activeNetParams s' = chosenNet merged (activeNetParams s1))).
  { destruct o as [[c r]|e|code|p].
    - right. destruct Hpost as (_ & Hn & _ & Hnet & _).
      split; [exact Hn|]. split; [discriminate|exact Hnet].
    - destruct Hpost as [(Hn & -> & Hnet & Hout)|(Hn & Hnet & Herr)].
      + left. auto.
      + right. split; [exact Hn|]. split; [|exact Hnet].
        intros [= ->].
        destruct Herr as [[_ Herr]|[Herr _]]; [discriminate Herr|].
        apply Herr. reflexivity.
    - right. destruct Hpost as (Hn & Hnet).
      split; [exact Hn|]. split; [discriminate|exact Hnet].
    - right. destruct Hpost as (Hn & Hnet).
      split; [exact Hn|]. split; [discriminate|exact Hnet]. }
  split; [|split].
  - rewrite Hcount. split.
    + intros Hn. destruct Hcases as [(_ & Ho & _)|(Hle & _)]; [exact Ho|lia].
    + intros Ho. destruct Hcases as [(Hn & _)|(_ & Hne & _)]; [exact Hn|contradiction].
  - intros Hn%Hcount.
    destruct Hcases as [(_ & _ & Hnet & Hout)|(Hle & _)]; [|lia].
    split; [exact Hout|congruence].
  - intros Hfew.
    destruct Hcases as [(Hn & _)|(_ & _ & Hnet)];
      [apply Hcount in Hn; congruence|].
    rewrite Hnet, Hnet1. unfold chosenNet. unfold severalNets in Hfew.
    destruct (TestNet3 merged), (RegressionTest merged), (SimNet merged);
      simpl in Hfew; try discriminate Hfew; repeat split; try discriminate;
      try reflexivity.
    intros ->. reflexivity.
Qed.


End Merged.

(** The theorem for a run without RPC credentials. *)
Lemma rpc_disabled_without_credentials_witness :
  DisableRPC (loadedConfig plainWorld) = true.
Proof.
  apply (rpc_disabled_without_credentials plainWorld initialState
           (mergedConfig plainWorld) []
           (Some (PathError "open" "/home/user/.btcd/btcd.conf"
                            "no such file or directory"))
           (mergeSources plainWorld initialState).2
           (loadedConfig plainWorld) []
           (loadConfig plainWorld initialState).2).
  - vm_compute. reflexivity.
  - vm_compute. reflexivity.
  - left. vm_compute. reflexivity.
Defined.

(** The theorem for --testnet. *)
Lemma network_selection_witness :
  activeNetParams (loadConfig testnetWorld initialState).2 = testNet3Params.
Proof.
  apply (network_selection testnetWorld initialState
           (mergedConfig testnetWorld) [] None
           (mergeSources testnetWorld initialState).2).
  - vm_compute. reflexivity.
  - vm_compute. reflexivity.
  - vm_compute. reflexivity.
Defined.



(** ** The config-file pass *)

Section ConfigFilePass.

Variable w : World.

Lemma bind_assoc {A B C} (m : M A) (f : A -> M B) (g : B -> M C) s :
  bind (bind m f) g s = bind m (fun a => bind (f a) g) s.
Proof. unfold bind. destruct (m s) as [[a|e|c|p] s']; reflexivity. Qed.

(** loadConfig from the point where the config file has been dealt
    with. *)
Lemma loadConfig_afterConfigFile s cfg serviceOpts configFileError s1 :
  beforeFinalParse w s = (Return (cfg, serviceOpts, configFileError), s1) →
  loadConfig w s = afterConfigFile w cfg serviceOpts configFileError s1.
Proof.
  intros H. unfold loadConfig, mergeSources. rewrite bind_assoc.
  rewrite (bind_Return _ _ _ _ _ H). reflexivity.
Qed.

Lemma loadConfig_stops_before s o s1 :
  beforeFinalParse w s = (o, s1) → (∀ x, o ≠ Return x) →
  (loadConfig w s).2 = s1.
Proof.
  intros H Ho. unfold loadConfig, mergeSources. rewrite bind_assoc.
  unfold bind at 1. rewrite H.
  destruct o as [x|e|c|p]; [exfalso; apply (Ho x); reflexivity|reflexivity..].
Qed.

(** After the config file only the deferred warning can still appear. *)
Lemma afterConfigFile_events cfg serviceOpts configFileError s :
  extends (quietBut configFileError) (output s)
          (output (afterConfigFile w cfg serviceOpts configFileError s).2).
Proof.
  unfold afterConfigFile.
  pose proof (finalParse_post w cfg serviceOpts configFileError s) as Hfin.
  unfold step, wp in Hfin. unfold bind.
  destruct (finalParse w cfg serviceOpts configFileError s)
    as [[[[merged rem] cfe]|e|c|p] s1]; simpl in *;
    destruct Hfin as (_ & Hext & Hcfe);
    try (eapply extends_weaken; [apply quiet_quietBut|exact Hext]).
  subst cfe.
  pose proof (resolveConfig_post w merged rem configFileError s1) as Hpost.
  unfold wp in Hpost. destruct Hpost as (Hext' & _).
  eapply extends_trans; [|exact Hext'].
  eapply extends_weaken; [apply quiet_quietBut|exact Hext].
Qed.

(** The steps after the merge with and without a deferred warning: the
    same, but for the warning at the end of a successful run. *)
Lemma resolveConfig_warning cfg remainingArgs err s :
  match resolveConfig w cfg remainingArgs None s with
  | (Return result, s') =>
      resolveConfig w cfg remainingArgs (Some err) s = (Return result, warned err s')
  | (o, s') => resolveConfig w cfg remainingArgs (Some err) s = (o, s')
  end.
Proof.
  unfold resolveConfig, bind.
  destruct (selectNetwork cfg s) as [[c1|?|?|?] s1]; try reflexivity.
  destruct (namespaceDirs w c1 s1) as [[c2|?|?|?] s2]; try reflexivity.
  destruct (setupLogging w c2 s2) as [[[]|?|?|?] s3]; try reflexivity.
  destruct (validateOptions w c2 s3) as [[[]|?|?|?] s4]; try reflexivity.
  destruct (listenAndRPCDefaults w c2 s4) as [[c5|?|?|?] s5]; try reflexivity.
  destruct (limitBlockSizes w c5 s5) as [[c6|?|?|?] s6]; try reflexivity.
  destruct (checkMiningKeys w c6 s6) as [[c7|?|?|?] s7]; reflexivity.
Qed.

Lemma afterConfigFile_warning cfg serviceOpts err s :
  match afterConfigFile w cfg serviceOpts None s with
  | (Return result, s') =>
      afterConfigFile w cfg serviceOpts (Some err) s = (Return result, warned err s')
  | (o, s') => afterConfigFile w cfg serviceOpts (Some err) s = (o, s')
  end.
Proof.
  unfold afterConfigFile, finalParse, bind. simpl.
  destruct (flags_Parse w flags_Default cfg serviceOpts) as [[cfg' so'] [rem|e]]; simpl.
  - apply resolveConfig_warning.
  - destruct (notHelpRequest e); reflexivity.
Qed.

(** beforeFinalParse, once the pre-parse has returned. *)
Lemma beforeFinalParse_preParsed s preCfg serviceOpts s0 :
  preParse w s = (Return (preCfg, serviceOpts), s0) →
  beforeFinalParse w s =
    match loadConfigFile w preCfg (defaultConfig w) serviceOpts s0 with
    | (Return (cfg, serviceOpts', configFileError), s1) =>
        (Return (dropFilePeers preCfg cfg, serviceOpts', configFileError), s1)
    | (Failure e, s1) => (Failure e, s1)
    | (OsExit c, s1) => (OsExit c, s1)
    | (Panic p, s1) => (Panic p, s1)
    end.
Proof.
  intros H. unfold beforeFinalParse. rewrite (bind_Return _ _ _ _ _ H).
  unfold bind.
  destruct (loadConfigFile w preCfg (defaultConfig w) serviceOpts s0)
    as [[[[cfg so'] cfe]|e|c|p] s1]; reflexivity.
Qed.

Lemma dropFilePeers_AddPeers preCfg cfg :
  RegressionTest preCfg = true → AddPeers (dropFilePeers preCfg cfg) = [].
Proof.
  intros H. unfold dropFilePeers. rewrite H. simpl.
  destruct (AddPeers cfg) eqn:E; simpl; [exact E|reflexivity].
Qed.

Lemma dropFilePeers_ConnectPeers preCfg cfg :
  ConnectPeers (dropFilePeers preCfg cfg) = ConnectPeers cfg.
Proof. unfold dropFilePeers. case_if; reflexivity. Qed.

End ConfigFilePass.

Section ConfigFileClaims.

Variable w : World.

(** C5 (as amended): when the pre-parse finds regression-test mode, the
    config the final command-line parse starts from has an empty
    add-peer list, whatever the config file held; its connect-only list
    is the one the config-file pass left. *)
Theorem regtest_drops_file_addpeers
        s preCfg serviceOpts s0 cfg serviceOpts' configFileError s1 :
  preParse w s = (Return (preCfg, serviceOpts), s0) →
  RegressionTest preCfg = true →
  beforeFinalParse w s = (Return (cfg, serviceOpts', configFileError), s1) →
  AddPeers cfg = []
  ∧ loadConfig w s = afterConfigFile w cfg serviceOpts' configFileError s1
  ∧ ∃ fileCfg,
      loadConfigFile w preCfg (defaultConfig w) serviceOpts s0
      = (Return (fileCfg, serviceOpts', configFileError), s1)
      ∧ ConnectPeers cfg = ConnectPeers fileCfg.
Proof.
  intros Hpre Hreg Hbefore.
  split; [|split; [apply (loadConfig_afterConfigFile w), Hbefore|]].
  - rewrite (beforeFinalParse_preParsed w _ _ _ _ Hpre) in Hbefore.
    destruct (loadConfigFile w preCfg (defaultConfig w) serviceOpts s0)
      as [[[[fileCfg so'] cfe]|e|c|p] s1']; try discriminate Hbefore.
    injection Hbefore as <- _ _ _. apply dropFilePeers_AddPeers, Hreg.
  - rewrite (beforeFinalParse_preParsed w _ _ _ _ Hpre) in Hbefore.
    destruct (loadConfigFile w preCfg (defaultConfig w) serviceOpts s0)
      as [[[[fileCfg so'] cfe]|e|c|p] s1']; try discriminate Hbefore.
    injection Hbefore as <- <- <- <-. exists fileCfg.
    split; [reflexivity|apply dropFilePeers_ConnectPeers].
Qed.

(** C9 (as amended): when the pre-parse finds regression-test or
    simulation-network mode and the config-file path is the default one,
    whether it was left at the default or supplied on the command line,
    the config file is not read: the final command-line parse starts
    from the default config with no config-file error recorded, the
    whole run reads no config file and logs no warning about one, and
    the run is the same whatever the file holds.  With a config-file
    path that differs from the default one the file is read in those
    modes too. *)
Theorem default_config_file_skipped s preCfg serviceOpts s0 :
  preParse w s = (Return (preCfg, serviceOpts), s0) →
  RegressionTest preCfg = true ∨ SimNet preCfg = true →
  (ConfigFile preCfg = defaultConfigFile w →
     beforeFinalParse w s = (Return (defaultConfig w, serviceOpts, None), s0)
     ∧ (∀ e, e ∈ output (loadConfig w s).2 → e ∈ output s ∨ quiet e)
     ∧ (∀ read, loadConfig (withConfigFile read w) s = loadConfig w s))
  ∧ (ConfigFile preCfg ≠ defaultConfigFile w →
       ParseFile (ConfigFile preCfg) ∈ output (loadConfig w s).2).
Proof.
  intros Hpre Hmode.
  assert (Hflag : RegressionTest preCfg || SimNet preCfg = true)
    by (destruct Hmode as [-> | ->]; [reflexivity|apply orb_true_r]).
  split.
  - intros Hpath.
    assert (Hskip : readsConfigFile w preCfg = false).
    { unfold readsConfigFile. rewrite Hflag, Hpath, String.eqb_refl. reflexivity. }
    assert (Hbefore : beforeFinalParse w s
                      = (Return (defaultConfig w, serviceOpts, None), s0)).
    { rewrite (beforeFinalParse_preParsed w _ _ _ _ Hpre).
      unfold loadConfigFile. rewrite Hskip. simpl.
      unfold dropFilePeers. simpl. rewrite andb_false_r. reflexivity. }
    split; [exact Hbefore|]. split.
    + intros e He.
      rewrite (loadConfig_afterConfigFile w _ _ _ _ _ Hbefore) in He.
      pose proof (afterConfigFile_events w (defaultConfig w) serviceOpts None s0)
        as Hafter.
      pose proof (preParse_post w s) as Hbefore'. unfold step, wp in Hbefore'.
      rewrite Hpre in Hbefore'. simpl in Hbefore'.
      destruct Hbefore' as (_ & Hext & _).
      assert (Hall : extends quiet (output s)
                       (output (afterConfigFile w (defaultConfig w) serviceOpts None s0).2)).
      { eapply extends_trans; [exact Hext|].
        eapply extends_weaken; [|exact Hafter].
        intros ev. destruct ev; simpl; try tauto. discriminate. }
      destruct Hall as (evs & Hout & Hquiet). rewrite Hout in He.
      apply elem_of_app in He as [He|He]; [left; exact He|right].
      rewrite Forall_forall in Hquiet. apply Hquiet, He.
    + intros read.
      assert (Hbefore' : beforeFinalParse (withConfigFile read w) s
                         = (Return (defaultConfig w, serviceOpts, None), s0)).
      { rewrite (beforeFinalParse_preParsed (withConfigFile read w) _ _ _ _ Hpre).
        unfold loadConfigFile.
        change (readsConfigFile (withConfigFile read w) preCfg)
          with (readsConfigFile w preCfg).
        rewrite Hskip. simpl.
        unfold dropFilePeers. simpl. rewrite andb_false_r. reflexivity. }
      rewrite (loadConfig_afterConfigFile w _ _ _ _ _ Hbefore).
      rewrite (loadConfig_afterConfigFile (withConfigFile read w) _ _ _ _ _ Hbefore').
      reflexivity.
  - intros Hpath.
    assert (Hreads : readsConfigFile w preCfg = true).
    { unfold readsConfigFile. apply String.eqb_neq in Hpath. rewrite Hpath.
      apply orb_true_r. }
    pose proof (beforeFinalParse_preParsed w _ _ _ _ Hpre) as Hbefore.
    unfold loadConfigFile in Hbefore. rewrite Hreads in Hbefore.
    unfold bind, emit in Hbefore. simpl in Hbefore.
    destruct (ini_ParseFile w (ConfigFile preCfg) (defaultConfig w) serviceOpts)
      as [[fileCfg so'] [err|]]; simpl in Hbefore.
    + destruct (isPathError err); simpl in Hbefore.
      * rewrite (loadConfig_afterConfigFile w _ _ _ _ _ Hbefore).
        eapply extends_keeps; [apply (afterConfigFile_events w)|].
        simpl. apply elem_of_app. right. left.
      * rewrite (loadConfig_stops_before w _ _ _ Hbefore) by discriminate.
        simpl. apply elem_of_app. left. apply elem_of_app. left.
        apply elem_of_app. right. left.
    + rewrite (loadConfig_afterConfigFile w _ _ _ _ _ Hbefore).
      eapply extends_keeps; [apply (afterConfigFile_events w)|].
      simpl. apply elem_of_app. right. left.
Qed.

(** C10: when reading the config file fails with an os.PathError, for a
    missing file or for any other reason such as a denied permission,
    loadConfig goes on with the error kept aside and runs exactly as if
    the file had been read without error, except that a successful run
    ends by logging the error as a warning.  Any other config-file error
    ends loadConfig at once with that error, printed with the usage. *)
Theorem path_error_is_deferred_warning s preCfg serviceOpts s0 fileCfg serviceOpts' err :
  preParse w s = (Return (preCfg, serviceOpts), s0) →
  readsConfigFile w preCfg = true →
  ini_ParseFile w (ConfigFile preCfg) (defaultConfig w) serviceOpts
  = (fileCfg, serviceOpts', Some err) →
  (isPathError err = true →
     beforeFinalParse w s
     = (Return (dropFilePeers preCfg fileCfg, serviceOpts', Some err),
        emitted [ParseFile (ConfigFile preCfg)] s0)
     ∧ ∀ o s',
         loadConfig (withConfigFile (withoutReadError (ini_ParseFile w)) w) s = (o, s') →
         match o with
         | Return result => loadConfig w s = (Return result, warned err s')
         | _ => loadConfig w s = (o, s')
         end)
  ∧ (isPathError err = false →
       loadConfig w s
       = (Failure err,
          emitted [ParseFile (ConfigFile preCfg); Stderr err; WriteHelp] s0)).
Proof.
  intros Hpre Hreads Hfile.
  pose proof (beforeFinalParse_preParsed w _ _ _ _ Hpre) as Hbefore.
  unfold loadConfigFile in Hbefore. rewrite Hreads in Hbefore.
  unfold bind, emit in Hbefore. simpl in Hbefore. rewrite Hfile in Hbefore.
  split.
  - intros Hkind. rewrite Hkind in Hbefore. simpl in Hbefore.
    split; [exact Hbefore|].
    set (w' := withConfigFile (withoutReadError (ini_ParseFile w)) w).
    assert (Hbefore' : beforeFinalParse w' s
              = (Return (dropFilePeers preCfg fileCfg, serviceOpts', None),
                 emitted [ParseFile (ConfigFile preCfg)] s0)).
    { rewrite (beforeFinalParse_preParsed w' _ _ _ _ Hpre).
      unfold loadConfigFile.
      change (readsConfigFile w' preCfg) with (readsConfigFile w preCfg).
      rewrite Hreads. unfold bind, emit. simpl.
      unfold withoutReadError.
      change (defaultConfig w') with (defaultConfig w).
      rewrite Hfile. reflexivity. }
    intros o s'.
    rewrite (loadConfig_afterConfigFile w' _ _ _ _ _ Hbefore').
    rewrite (loadConfig_afterConfigFile w _ _ _ _ _ Hbefore).
    change (afterConfigFile w' (dropFilePeers preCfg fileCfg) serviceOpts' None)
      with (afterConfigFile w (dropFilePeers preCfg fileCfg) serviceOpts' None).
    intros Hrun.
    pose proof (afterConfigFile_warning w (dropFilePeers preCfg fileCfg) serviceOpts'
                  err (emitted [ParseFile (ConfigFile preCfg)] s0)) as Hwarn.
    rewrite Hrun in Hwarn. destruct o; exact Hwarn.
  - intros Hkind. rewrite Hkind in Hbefore. simpl in Hbefore.
    unfold loadConfig, mergeSources. rewrite bind_assoc.
    unfold bind at 1. rewrite Hbefore. unfold emitted. simpl.
    rewrite <- !app_assoc. reflexivity.
Qed.

End ConfigFileClaims.

(** The theorem for --regtest --configfile=/etc/btcd.conf with a config
    file that adds a peer. *)
Lemma regtest_drops_file_addpeers_witness :
  AddPeers (configBeforeFinalParse regtestFileWorld) = [].
Proof.
  apply (regtest_drops_file_addpeers regtestFileWorld initialState
           (preParsedConfig regtestFileWorld) {| ServiceCommand := "" |}
           (preParse regtestFileWorld initialState).2
           (configBeforeFinalParse regtestFileWorld) {| ServiceCommand := "" |} None
           (beforeFinalParse regtestFileWorld initialState).2).
  - vm_compute. reflexivity.
  - vm_compute. reflexivity.
  - vm_compute. reflexivity.
Defined.

(** C5 (as stated) fails: in regression-test mode the connect-only list of
    the config file is not discarded.  With --regtest
    --configfile=/etc/btcd.conf and a file holding addpeer=10.0.0.2 and
    connect=10.0.0.1, the final parse starts from a config that still has
    the connect peer, and loadConfig returns it. *)
Lemma regtest_keeps_file_connect_peers :
  RegressionTest (preParsedConfig regtestFileWorld) = true
  ∧ AddPeers (configBeforeFinalParse regtestFileWorld) = []
  ∧ ConnectPeers (configBeforeFinalParse regtestFileWorld) = ["10.0.0.1"]
  ∧ (loadConfig regtestFileWorld initialState).1
    = Return (loadedConfig regtestFileWorld, [])
  ∧ ConnectPeers (loadedConfig regtestFileWorld) = ["10.0.0.1:18444"].
Proof.
  split; [vm_compute; reflexivity|]. split; [vm_compute; reflexivity|].
  split; [vm_compute; reflexivity|]. split; [vm_compute; reflexivity|].
  vm_compute. reflexivity.
Qed.

(** The theorem for --regtest with the default config-file path. *)
Lemma default_config_file_skipped_witness :
  beforeFinalParse regtestWorld initialState
  = (Return (defaultConfig regtestWorld, {| ServiceCommand := "" |}, None),
     (preParse regtestWorld initialState).2)
  ∧ ConnectPeers (loadedConfig regtestWorld) = [].
Proof.
  split; [|vm_compute; reflexivity].
  apply (default_config_file_skipped regtestWorld initialState
           (preParsedConfig regtestWorld) {| ServiceCommand := "" |}
           (preParse regtestWorld initialState).2).
  - vm_compute. reflexivity.
  - left. vm_compute. reflexivity.
  - vm_compute. reflexivity.
Defined.

(** C9 (as stated) fails: a config-file path that the user supplies is
    not read in regression-test mode when it is the default path, the
    code comparing the path only.  With --regtest
    --configfile=/home/user/.btcd/btcd.conf, which is the default path,
    and a file there holding connect=10.0.0.1, the run reads no config
    file and returns a config without the connect peer. *)
Lemma explicit_default_config_file_not_read :
  RegressionTest (preParsedConfig regtestExplicitDefaultWorld) = true
  ∧ ConfigFile (preParsedConfig regtestExplicitDefaultWorld)
    = "/home/user/.btcd/btcd.conf"
  ∧ defaultConfigFile regtestExplicitDefaultWorld = "/home/user/.btcd/btcd.conf"
  ∧ ConnectPeers
      (ini_ParseFile regtestExplicitDefaultWorld "/home/user/.btcd/btcd.conf"
         (defaultConfig regtestExplicitDefaultWorld) {| ServiceCommand := "" |}).1.1
    = ["10.0.0.1"]
  ∧ readsConfigFile regtestExplicitDefaultWorld
                    (preParsedConfig regtestExplicitDefaultWorld) = false
  ∧ output (loadConfig regtestExplicitDefaultWorld initialState).2
    = [MkdirAll "/home/user/.btcd"; ParseArgs flags_None; ParseArgs flags_Default;
       InitSeelogLogger "/home/user/.btcd/logs/regtest/btcd.log";
       SetLogLevels "info"; SetLogLevels "info"]
  ∧ (loadConfig regtestExplicitDefaultWorld initialState).1
    = Return (loadedConfig regtestExplicitDefaultWorld, [])
  ∧ ConnectPeers (loadedConfig regtestExplicitDefaultWorld) = [].
Proof.
  split; [vm_compute; reflexivity|]. split; [vm_compute; reflexivity|].
  split; [vm_compute; reflexivity|]. split; [vm_compute; reflexivity|].
  split; [vm_compute; reflexivity|]. split; [vm_compute; reflexivity|].
  split; [vm_compute; reflexivity|]. vm_compute. reflexivity.
Qed.

(** The theorem for a config file that exists but may not be read: the
    run succeeds as with a readable file and ends with the warning. *)
Lemma path_error_is_deferred_warning_witness :
  loadConfig unreadableFileWorld initialState
  = (Return (loadedConfig readableFileWorld, []),
     warned (PathError "open" "/home/user/.btcd/btcd.conf" "permission denied")
            (loadConfig readableFileWorld initialState).2).
Proof.
  apply (proj2 (proj1 (path_error_is_deferred_warning
                         unreadableFileWorld initialState
                         (preParsedConfig unreadableFileWorld)
                         {| ServiceCommand := "" |}
                         (preParse unreadableFileWorld initialState).2
                         (defaultConfig unreadableFileWorld)
                         {| ServiceCommand := "" |}
                         (PathError "open" "/home/user/.btcd/btcd.conf"
                                    "permission denied")
                         ltac:(vm_compute; reflexivity)
                         ltac:(vm_compute; reflexivity)
                         ltac:(vm_compute; reflexivity))
                      eq_refl)
               (Return (loadedConfig readableFileWorld, []))
               (loadConfig readableFileWorld initialState).2).
  vm_compute. reflexivity.
Defined.

(** ** Debug levels *)

Section DebugLevels.

Variable w : World.

(** The subsystem list of the error message is sorted and lists exactly
    the keys of subsystemLoggers. *)
Lemma supportedSubsystems_sorted :
  Sorted stringLe (supportedSubsystems w)
  ∧ Permutation (elements (subsystemLoggers w)) (supportedSubsystems w).
Proof.
  unfold supportedSubsystems. split.
  - apply (StringSort.Sorted_sort (elements (subsystemLoggers w))).
  - apply StringSort.Permuted_sort.
Qed.

(** A piece with a "=" has at least two fields, so reading fields[0] and
    fields[1] never goes out of range. *)
Lemma Split_Contains s (c : ascii) :
  strings.Contains s (String c "") = true →
  ∃ first second rest, strings.Split s c = first :: second :: rest.
Proof.
  induction s as [|a s IH]; simpl; [discriminate|].
  destruct (Ascii.eqb_spec c a) as [-> | Hne].
  - intros _. rewrite Ascii.eqb_refl.
    destruct s as [|b s]; simpl; [eauto|].
    destruct (Ascii.eqb b a); [eauto|].
    destruct (strings.Split s a); eauto.
  - simpl. destruct (ascii_dec c a) as [->|_]; [contradiction|]. simpl.
    intros H. destruct (IH H) as (first & second & rest & ->).
    destruct (Ascii.eqb_spec a c) as [-> | _]; [contradiction|]. eauto.
Qed.

(** A pair that names an unknown subsystem is refused with the error that
    lists the supported subsystems, sorted. *)
Lemma unknown_subsystem_error logLevelPair rest subsysID s :
  strings.Contains logLevelPair "=" = true →
  strings.Split logLevelPair "=" !! 0%nat = Some subsysID →
  subsysID ∉ subsystemLoggers w →
  setLogLevelPairs w (logLevelPair :: rest) s
  = (Failure (Errorf "The specified subsystem [%v] is invalid -- supported subsytems %v"
                     [ArgString subsysID; ArgStrings (supportedSubsystems w)]),
     s).
Proof.
  intros Hc Hfield Hnot. simpl. rewrite Hc. simpl.
  destruct (Split_Contains _ _ Hc) as (first & second & more & Hsplit).
  rewrite Hsplit in Hfield |- *. simpl in Hfield |- *. injection Hfield as ->.
  rewrite (bool_decide_eq_false_2 _ Hnot). reflexivity.
Qed.

(** The pair loop succeeds exactly on lists of accepted pieces. *)
Lemma setLogLevelPairs_accepts pairs : ∀ s,
  (∃ s', setLogLevelPairs w pairs s = (Return tt, s')) ↔ Forall (pairAccepted w) pairs.
Proof.
  induction pairs as [|logLevelPair rest IH]; intros s; simpl.
  - split; [constructor|]. intros _. eexists. reflexivity.
  - unfold pairAccepted at 1.
    destruct (strings.Contains logLevelPair "=") eqn:Hc; simpl.
    2:{ split; [intros [s' H]; unfold fail in H; discriminate H|].
        intros H. inversion H as [|? ? [Hfalse _] _]. congruence. }
    destruct (Split_Contains _ _ Hc) as (subsysID & logLevel & more & Hsplit).
    rewrite Hsplit. simpl.
    destruct (bool_decide (subsysID ∈ subsystemLoggers w)) eqn:Hsub; simpl.
    2:{ apply bool_decide_eq_false in Hsub.
        split; [intros [s' H]; unfold fail in H; discriminate H|].
        intros H. inversion H as [|? ? (_ & a & b & Ha & _ & Hin & _) _].
        rewrite Hsplit in Ha. injection Ha as <-. contradiction. }
    apply bool_decide_eq_true in Hsub.
    destruct (validLogLevel logLevel) eqn:Hlvl; simpl.
    2:{ split; [intros [s' H]; unfold fail in H; discriminate H|].
        intros H. inversion H as [|? ? (_ & a & b & _ & Hb & _ & Hv) _].
        rewrite Hsplit in Hb. injection Hb as <-. congruence. }
    unfold bind. simpl.
    match goal with |- context [setLogLevelPairs w rest ?s1] =>
      specialize (IH s1); destruct (setLogLevelPairs w rest s1) as [[[]|e|c|p] s2] end.
    + split.
      * intros _. constructor; [|apply IH; eauto].
        split; [exact Hc|]. exists subsysID, logLevel. rewrite Hsplit. auto.
      * intros _. eauto.
    + split; [intros [s' H]; unfold fail in H; discriminate H|].
      intros H. inversion H as [|? ? _ Hrest]. apply IH in Hrest as [s' Hrest].
      discriminate Hrest.
    + split; [intros [s' H]; unfold fail in H; discriminate H|].
      intros H. inversion H as [|? ? _ Hrest]. apply IH in Hrest as [s' Hrest].
      discriminate Hrest.
    + split; [intros [s' H]; unfold fail in H; discriminate H|].
      intros H. inversion H as [|? ? _ Hrest]. apply IH in Hrest as [s' Hrest].
      discriminate Hrest.
Qed.

(** What parseAndSetDebugLevels accepts: a level name, or a
    comma-separated list of accepted pieces. *)
Lemma parseAndSetDebugLevels_accepts debugLevel s :
  (∃ s', parseAndSetDebugLevels w debugLevel s = (Return tt, s'))
  ↔ (strings.Contains debugLevel "," = false
     ∧ strings.Contains debugLevel "=" = false
     ∧ validLogLevel debugLevel = true)
    ∨ ((strings.Contains debugLevel "," = true ∨ strings.Contains debugLevel "=" = true)
       ∧ Forall (pairAccepted w) (strings.Split debugLevel ",")).
Proof.
  unfold parseAndSetDebugLevels.
  destruct (strings.Contains debugLevel ",") eqn:Hcomma,
    (strings.Contains debugLevel "=") eqn:Heq; simpl;
    try (rewrite setLogLevelPairs_accepts; split;
         [intros H; right; split; [auto|exact H]
         |intros [(H1 & H2 & _)|(_ & H)];
          [first [discriminate H1|discriminate H2]|exact H]]).
  destruct (validLogLevel debugLevel); simpl.
  - split; [intros _; left; auto|]. intros _. eexists. reflexivity.
  - split; [intros [s' H]; unfold fail in H; discriminate H|].
    intros [(_ & _ & H)|([H|H] & _)]; discriminate H.
Qed.

(** C8 (the input on which the code differs): a pair with a second "="
    is accepted; what follows the second "=" is ignored and the level
    between the two is set. *)
Theorem debug_level_extra_field_accepted s :
  "PEER" ∈ subsystemLoggers w →
  parseAndSetDebugLevels w "PEER=info=junk" s
  = (Return tt, emitted [SetLogLevel "PEER" "info"] s).
Proof.
  intros Hin. unfold parseAndSetDebugLevels. simpl.
  rewrite (bool_decide_eq_true_2 _ Hin). reflexivity.
Qed.

End DebugLevels.

(** The theorem where PEER is a logging subsystem. *)
Lemma debug_level_extra_field_accepted_witness :
  parseAndSetDebugLevels plainWorld "PEER=info=junk" initialState
  = (Return tt, emitted [SetLogLevel "PEER" "info"] initialState).
Proof.
  apply (debug_level_extra_field_accepted plainWorld initialState).
  vm_compute. reflexivity.
Defined.

(** ** The configuration of a successful run *)

Section SuccessfulRun.

Variable w : World.

Lemma bind_Return_inv {A B} (m : M A) (k : A -> M B) s b s' :
  bind m k s = (Return b, s') →
  ∃ a s1, m s = (Return a, s1) ∧ k a s1 = (Return b, s').
Proof.
  unfold bind. destruct (m s) as [[a|e|c|p] s1]; try discriminate. eauto.
Qed.

(** What a step that returned leaves of the active network. *)
Lemma step_Return_net {A} (m : M A) s R E a s' :
  step m s R E → m s = (Return a, s') → activeNetParams s' = activeNetParams s ∧ R a.
Proof.
  unfold step, wp. intros H Hrun. rewrite Hrun in H. simpl in H. tauto.
Qed.

Lemma selectNetwork_Return cfg s cfg' s' :
  selectNetwork cfg s = (Return cfg', s') →
  (numNets cfg <= 1)%Z
  ∧ activeNetParams s' = chosenNet cfg (activeNetParams s)
  ∧ inert cfg' = inert cfg ∧ dirs cfg' = dirs cfg ∧ lists cfg' = lists cfg
  ∧ toggles cfg' = (DisableListen cfg, (SimNet cfg || DisableDNSSeed cfg))
  ∧ miningKeys cfg' = miningKeys cfg.
Proof.
  unfold selectNetwork, chosenNet, numNets.
  destruct (TestNet3 cfg), (RegressionTest cfg), (SimNet cfg); simpl;
    try discriminate; intros [= <- <-]; simpl; repeat split; lia.
Qed.

Lemma namespaceDirs_Return cfg s cfg' s' :
  namespaceDirs w cfg s = (Return cfg', s') →
  s' = s
  ∧ dirs cfg' = (filepath_Join w (cleanAndExpandPath w (DataDir cfg))
                               (netName w (activeNetParams s)),
                 filepath_Join w (cleanAndExpandPath w (LogDir cfg))
                               (netName w (activeNetParams s)))
  ∧ inert cfg' = inert cfg ∧ lists cfg' = lists cfg
  ∧ toggles cfg' = toggles cfg ∧ miningKeys cfg' = miningKeys cfg.
Proof.
  unfold namespaceDirs, bind, getActiveNetParams, ret. intros [= <- <-].
  repeat split.
Qed.

Lemma validateOptions_Return cfg s s' :
  validateOptions w cfg s = (Return tt, s') →
  s' = s
  ∧ validDbType w (DbType cfg) = true
  ∧ profilePortValid (Profile cfg)
  ∧ (time_Second <= BanDuration cfg)%Z
  ∧ (AddPeers cfg = [] ∨ ConnectPeers cfg = []).
Proof.
  unfold validateOptions, profilePortValid.
  destruct (validDbType w (DbType cfg)); simpl; [|discriminate].
  destruct (String.eqb_spec (Profile cfg) "") as [Hp|Hp]; simpl.
  - destruct (BanDuration cfg <? time_Second)%Z eqn:Hban; [discriminate|].
    destruct (AddPeers cfg), (ConnectPeers cfg); simpl; try discriminate;
      intros [= <-]; repeat split; auto; lia.
  - destruct (strconv_Atoi (Profile cfg)) as [port|]; [|discriminate].
    destruct ((port <? 1024)%Z || (port >? 65535)%Z) eqn:Hport; [discriminate|].
    destruct (BanDuration cfg <? time_Second)%Z eqn:Hban; [discriminate|].
    destruct (AddPeers cfg), (ConnectPeers cfg); simpl; try discriminate;
      intros [= <-]; repeat split; auto; try lia;
      right; exists port; split; auto; lia.
Qed.

Lemma listenAndRPCDefaults_Return cfg s cfg' s' :
  listenAndRPCDefaults w cfg s = (Return cfg', s') →
  let net := activeNetParams s in
  inert cfg' = inert cfg ∧ dirs cfg' = dirs cfg ∧ miningKeys cfg' = miningKeys cfg
  ∧ toggles cfg' =
      ((if (negb (String.eqb (Proxy cfg) "") || (0 <? length (ConnectPeers cfg))%nat)
           && (length (Listeners cfg) =? 0)%nat
        then true else DisableListen cfg),
       (if (0 <? length (ConnectPeers cfg))%nat then true else DisableDNSSeed cfg))
  ∧ Listeners cfg' = effectiveListeners w net cfg
  ∧ AddPeers cfg' = AddPeers cfg ∧ ConnectPeers cfg' = ConnectPeers cfg
  ∧ (if negb (DisableRPC cfg') && (length (RPCListeners cfg) =? 0)%nat
     then ∃ addrs, net_LookupHost w "localhost" = inl addrs
                   ∧ RPCListeners cfg'
                     = map (fun addr => net.JoinHostPort addr (rpcPort w net)) addrs
     else RPCListeners cfg' = RPCListeners cfg).
Proof.
  intros H net. unfold listenAndRPCDefaults, bind, getActiveNetParams in H.
  cbv zeta in H.
  match type of H with context [ret ?c] => set (c4 := c) in * end.
  assert (H4 : inert c4 = inert cfg ∧ dirs c4 = dirs cfg
               ∧ miningKeys c4 = miningKeys cfg
               ∧ toggles c4 =
                   ((if (negb (String.eqb (Proxy cfg) "")
                         || (0 <? length (ConnectPeers cfg))%nat)
                        && (length (Listeners cfg) =? 0)%nat
                     then true else DisableListen cfg),
                    (if (0 <? length (ConnectPeers cfg))%nat
                     then true else DisableDNSSeed cfg))
               ∧ Listeners c4 = effectiveListeners w net cfg
               ∧ AddPeers c4 = AddPeers cfg ∧ ConnectPeers c4 = ConnectPeers cfg
               ∧ RPCListeners c4 = RPCListeners cfg).
  { subst c4 net. unfold inert, dirs, toggles, effectiveListeners.
    destruct (Listeners cfg) eqn:EL, (ConnectPeers cfg) eqn:EC,
      (String.eqb (Proxy cfg) "") eqn:EP, (String.eqb (RPCUser cfg) "") eqn:EU,
      (String.eqb (RPCPass cfg) "") eqn:EW;
      repeat (simpl; rewrite ?EL, ?EC, ?EP, ?EU, ?EW);
      repeat split; reflexivity. }
  destruct H4 as (Hi & Hd & Hk & Ht & Hl & Ha & Hc & Hr).
  rewrite <- Hr.
  destruct (negb (DisableRPC c4) && (length (RPCListeners c4) =? 0)%nat) eqn:E.
  - unfold emit in H. simpl in H. fold net in H.
    destruct (net_LookupHost w "localhost") as [addrs|[err name]]; [|discriminate H].
    injection H as <- _.
    change (DisableRPC (set_RPCListeners
              (map (fun addr => net.JoinHostPort addr (rpcPort w net)) addrs) c4))
      with (DisableRPC c4).
    rewrite E. repeat split; try assumption. eauto.
  - injection H as <- _. rewrite E. repeat split; assumption.
Qed.

Lemma setupLogging_Return cfg s s' :
  setupLogging w cfg s = (Return tt, s') →
  DebugLevel cfg ≠ "show"
  ∧ ∃ s0, parseAndSetDebugLevels w (DebugLevel cfg) s0 = (Return tt, s').
Proof.
  unfold setupLogging.
  destruct (String.eqb_spec (DebugLevel cfg) "show") as [E|E]; [discriminate|].
  unfold bind, emit. simpl.
  match goal with |- context [parseAndSetDebugLevels w ?d ?s1] =>
    destruct (parseAndSetDebugLevels w d s1) as [[[]|e|c|p] s2] eqn:Hparse end;
    try discriminate.
  intros [= <-]. split; [exact E|]. eauto.
Qed.

Lemma limitBlockSizes_Return cfg s cfg' s' :
  limitBlockSizes w cfg s = (Return cfg', s') →
  s' = s ∧ inert cfg' = inert cfg ∧ dirs cfg' = dirs cfg ∧ lists cfg' = lists cfg
  ∧ toggles cfg' = toggles cfg ∧ miningKeys cfg' = miningKeys cfg
  ∧ DisableRPC cfg' = DisableRPC cfg.
Proof.
  unfold limitBlockSizes. case_if; [discriminate|]. intros [= <- <-].
  repeat split.
Qed.

Lemma decodeMiningKeys_Return net keys : ∀ acc s decoded s',
  decodeMiningKeys w net keys acc s = (Return decoded, s') →
  s' = s ∧ ∃ new, decoded = (acc ++ new)%list ∧ Forall2 (decodesTo w net) keys new.
Proof.
  induction keys as [|strAddr rest IH]; intros acc s decoded s'; simpl.
  - intros [= <- <-]. split; [reflexivity|]. exists [].
    split; [symmetry; apply app_nil_r|constructor].
  - destruct (btcutil_DecodeAddress w strAddr net) as [addr|err] eqn:Hdec;
      [|discriminate].
    destruct (IsForNet w addr net) eqn:Hnet; simpl; [|discriminate].
    intros H. apply IH in H as (-> & new & -> & Hnew).
    split; [reflexivity|]. exists (addr :: new).
    split; [rewrite <- app_assoc; reflexivity|].
    constructor; [split; assumption|exact Hnew].
Qed.

Lemma checkMiningKeys_Return cfg s cfg' s' :
  checkMiningKeys w cfg s = (Return cfg', s') →
  s' = s ∧ inert cfg' = inert cfg ∧ dirs cfg' = dirs cfg ∧ lists cfg' = lists cfg
  ∧ toggles cfg' = toggles cfg
  ∧ Forall2 (decodesTo w (activeNetParams s)) (GetWorkKeys cfg) (miningKeys cfg')
  ∧ DisableRPC cfg' = DisableRPC cfg.
Proof.
  unfold checkMiningKeys, bind, getActiveNetParams.
  destruct (decodeMiningKeys w (activeNetParams s) (GetWorkKeys cfg) [] s)
    as [[decoded|e|c|p] s1] eqn:Hkeys; try discriminate.
  apply decodeMiningKeys_Return in Hkeys as (-> & new & -> & Hnew).
  intros [= <- <-]. repeat split; try reflexivity. exact Hnew.
Qed.

Lemma normalizeAddressLists_Return cfg s cfg' s' :
  normalizeAddressLists w cfg s = (Return cfg', s') →
  let net := activeNetParams s in
  s' = s ∧ inert cfg' = inert cfg ∧ dirs cfg' = dirs cfg
  ∧ toggles cfg' = toggles cfg ∧ miningKeys cfg' = miningKeys cfg
  ∧ lists cfg' = (normalizeAddresses (Listeners cfg) (DefaultPort w net),
                  normalizeAddresses (RPCListeners cfg) (rpcPort w net),
                  normalizeAddresses (AddPeers cfg) (DefaultPort w net),
                  normalizeAddresses (ConnectPeers cfg) (DefaultPort w net))
  ∧ DisableRPC cfg' = DisableRPC cfg.
Proof.
  unfold normalizeAddressLists, bind, getActiveNetParams. intros [= <- <-].
  repeat split.
Qed.

(** setupDialAndLookup leaves everything but the function fields. *)
Lemma setupDialAndLookup_rest cfg :
  inert (setupDialAndLookup cfg) = inert cfg
  ∧ dirs (setupDialAndLookup cfg) = dirs cfg
  ∧ lists (setupDialAndLookup cfg) = lists cfg
  ∧ toggles (setupDialAndLookup cfg) = toggles cfg
  ∧ miningKeys (setupDialAndLookup cfg) = miningKeys cfg
  ∧ DisableRPC (setupDialAndLookup cfg) = DisableRPC cfg.
Proof.
  destruct cfg. unfold setupDialAndLookup, inert, dirs, lists, toggles. cbn.
  repeat case_if; repeat split; reflexivity.
Qed.

(** Everything the steps after the merge establish when they return. *)
Lemma resolveConfig_Return cfg remainingArgs configFileError s c r s' :
  resolveConfig w cfg remainingArgs configFileError s = (Return (c, r), s') →
  r = remainingArgs
  ∧ activeNetParams s' = chosenNet cfg (activeNetParams s)
  ∧ loaded w cfg (activeNetParams s') c.
Proof.
  intros H. unfold resolveConfig in H.
  apply bind_Return_inv in H as (c1 & s1 & H1 & H).
  apply bind_Return_inv in H as (c2 & s2 & H2 & H).
  apply bind_Return_inv in H as ([] & s3 & H3 & H).
  apply bind_Return_inv in H as ([] & s4 & H4 & H).
  apply bind_Return_inv in H as (c5 & s5 & H5 & H).
  apply bind_Return_inv in H as (c6 & s6 & H6 & H).
  apply bind_Return_inv in H as (c7 & s7 & H7 & H).
  apply bind_Return_inv in H as (c8 & s8 & H8 & H).
  apply bind_Return_inv in H as ([] & s9 & H9 & H).
  injection H as <- <- <-.
  assert (Hnet9 : activeNetParams s9 = activeNetParams s8)
    by (destruct configFileError; injection H9 as <-; reflexivity).
  apply selectNetwork_Return in H1 as (Hn & Hnet1 & Hi1 & Hd1 & Hl1 & Ht1 & Hk1).
  apply namespaceDirs_Return in H2 as (-> & Hd2 & Hi2 & Hl2 & Ht2 & Hk2).
  pose proof (proj1 (step_Return_net _ _ _ _ _ _ (setupLogging_post w c2 s1) H3))
    as Hnet3.
  apply setupLogging_Return in H3 as (Hshow & s0 & Hdebug).
  apply validateOptions_Return in H4 as (-> & Hdb & Hprofile & Hban & Hpeers).
  pose proof (proj1 (step_Return_net _ _ _ _ _ _ (listenAndRPCDefaults_post w c2 s3) H5))
    as Hnet5.
  apply listenAndRPCDefaults_Return in H5
    as (Hi5 & Hd5 & Hk5 & Ht5 & Hls5 & Ha5 & Hc5 & Hr5).
  apply limitBlockSizes_Return in H6 as (-> & Hi6 & Hd6 & Hl6 & Ht6 & Hk6 & Hr6).
  apply checkMiningKeys_Return in H7 as (-> & Hi7 & Hd7 & Hl7 & Ht7 & Hk7 & Hr7).
  apply normalizeAddressLists_Return in H8 as (-> & Hi8 & Hd8 & Ht8 & Hk8 & Hl8 & Hr8).
  destruct (setupDialAndLookup_rest c8) as (Hi & Hd & Hl & Ht & Hk & Hr).
  assert (Hnet : activeNetParams s9 = activeNetParams s1) by congruence.
  assert (Hnet' : activeNetParams s5 = activeNetParams s1) by congruence.
  assert (Hnet3' : activeNetParams s3 = activeNetParams s1) by congruence.
  rewrite Hnet5, Hnet3 in Hl8, Hk7. rewrite Hnet3 in Hls5, Hr5.
  rewrite Hnet.
  split; [reflexivity|]. split; [congruence|].
  unfold inert in *. unfold lists in *. unfold toggles in *. unfold dirs in *.
  injection Hi1 as ? ? ? ? ? ?. injection Hi2 as ? ? ? ? ? ?.
  injection Hl1 as L1 R1 A1 C1. injection Hl2 as L2 R2 A2 C2.
  injection Ht1 as ? T1. injection Ht2 as ? ?.
  injection Hl6 as L6 R6 A6 C6. injection Hl7 as L7 R7 A7 C7.
  injection Hl8 as L8 R8 A8 C8. injection Hl as L9 R9 A9 C9.
  injection Hi5 as ? ? ? ? ? ?. injection Hi6 as ? ? ? ? ? ?.
  injection Hi7 as ? ? ? ? ? ?.
  unfold loaded.
  split; [exact Hn|]. split; [congruence|].
  split; [exists s0, s3; congruence|].
  split; [congruence|]. split; [congruence|]. split; [congruence|].
  split; [destruct Hpeers as [Hp|Hp]; [left|right]; congruence|].
  split; [unfold inert; congruence|].
  split; [unfold dirs; congruence|].
  split.
  { unfold toggles. rewrite Ht, Ht8, Ht7, Ht6, Ht5.
    repeat match goal with
           | E : ?f c2 = ?f c1 |- _ => rewrite E; clear E
           end.
    repeat match goal with
           | E : ?f c1 = _ |- _ => rewrite E; clear E
           end.
    reflexivity. }
  split.
  { rewrite L9, L8, L7, L6, Hls5. unfold effectiveListeners.
    rewrite L2, L1. reflexivity. }
  split; [congruence|]. split; [congruence|].
  split.
  { assert (HR : DisableRPC (setupDialAndLookup c8) = DisableRPC c5) by congruence.
    rewrite HR, <- R1, <- R2.
    destruct (negb (DisableRPC c5) && (length (RPCListeners c2) =? 0)%nat).
    - destruct Hr5 as (addrs & Hlookup & Hrpc). exists addrs.
      split; [exact Hlookup|congruence].
    - congruence. }
  rewrite Hk, Hk8. replace (GetWorkKeys cfg) with (GetWorkKeys c6) by congruence.
  exact Hk7.
Qed.

End SuccessfulRun.

(** A run of loadConfig that returns went through the merge, and the
    steps after the merge returned. *)
Lemma loadConfig_Return w s c r s' :
  loadConfig w s = (Return (c, r), s') →
  ∃ cfg configFileError s1,
    mergeSources w s = (Return (cfg, r, configFileError), s1)
    ∧ resolveConfig w cfg r configFileError s1 = (Return (c, r), s')
    ∧ activeNetParams s' = chosenNet cfg (activeNetParams s)
    ∧ loaded w cfg (activeNetParams s') c.
Proof.
  intros H. unfold loadConfig in H.
  apply bind_Return_inv in H as ([[cfg rem] cfe] & s1 & Hmerge & H).
  pose proof (mergeSources_net w s _ s1 Hmerge) as Hnet.
  destruct (resolveConfig_Return w cfg rem cfe s1 c r s' H) as (-> & Hchosen & Hloaded).
  exists cfg, cfe, s1. rewrite <- Hnet. auto.
Qed.

(** The merged config of a run that returns is the one the returned
    config was computed from. *)
Lemma loadConfig_Return_merged w s cfg remainingArgs configFileError s1 c r s' :
  mergeSources w s = (Return (cfg, remainingArgs, configFileError), s1) →
  loadConfig w s = (Return (c, r), s') →
  r = remainingArgs ∧ loaded w cfg (activeNetParams s') c.
Proof.
  intros Hmerge H.
  destruct (loadConfig_Return w s c r s' H) as (cfg' & cfe' & s1' & Hmerge' & _ & _ & Hl).
  rewrite Hmerge in Hmerge'. injection Hmerge' as <- <- <- <-. auto.
Qed.

(** ** What a returned configuration satisfies *)

Section ReturnedConfig.

Local Open Scope list_scope.

Lemma normalizeAddresses_nil defaultPort : normalizeAddresses [] defaultPort = [].
Proof. reflexivity. Qed.

Lemma normalizeAddresses_NoDup addrs defaultPort :
  NoDup (normalizeAddresses addrs defaultPort).
Proof. apply removeDuplicateAddresses_NoDup. Qed.

Lemma normalizeAddresses_empty addrs defaultPort :
  normalizeAddresses addrs defaultPort = [] → addrs = [].
Proof.
  destruct addrs as [|a addrs]; [reflexivity|]. intros H. exfalso.
  assert (Hin : normalizeAddress a defaultPort ∈ normalizeAddresses (a :: addrs) defaultPort)
    by (apply removeDuplicateAddresses_elem; left).
  rewrite H in Hin. apply elem_of_nil in Hin. exact Hin.
Qed.

Lemma effectiveListeners_nonempty w net cfg : effectiveListeners w net cfg ≠ [].
Proof.
  unfold effectiveListeners. destruct (Listeners cfg) eqn:E; [discriminate|].
  discriminate.
Qed.

Lemma length_pos_nonempty {A} (l : list A) : (0 <? length l)%nat = true ↔ l ≠ [].
Proof. destruct l; simpl; split; try discriminate; try congruence; reflexivity. Qed.

(** X1: a configuration that loadConfig returns has passed every option
    check: its database type is a supported one, its profile port is
    empty or a number from 1024 to 65535, its ban duration is at least a
    second, and its debug level is not the show command but a level
    string that parseAndSetDebugLevels accepts. *)
Theorem returned_options_validated w s c r s' :
  loadConfig w s = (Return (c, r), s') →
  validDbType w (DbType c) = true
  ∧ profilePortValid (Profile c)
  ∧ (time_Second <= BanDuration c)%Z
  ∧ DebugLevel c ≠ "show"
  ∧ ∃ s0 s1, parseAndSetDebugLevels w (DebugLevel c) s0 = (Return tt, s1).
Proof.
  intros H.
  destruct (loadConfig_Return w s c r s' H) as (cfg & cfe & s1 & _ & _ & _ & Hl).
  destruct Hl as (_ & Hshow & Hdebug & Hdb & Hprofile & Hban & _ & Hinert & _).
  unfold inert in Hinert. injection Hinert as -> -> -> -> _ _.
  auto.
Qed.

(** X2: a configuration that loadConfig returns never has both permanent
    peers and connect-only peers, and with connect-only peers DNS seeding
    is off. *)
Theorem returned_peers_exclusive w s c r s' :
  loadConfig w s = (Return (c, r), s') →
  (AddPeers c = [] ∨ ConnectPeers c = [])
  ∧ (ConnectPeers c ≠ [] → DisableDNSSeed c = true).
Proof.
  intros H.
  destruct (loadConfig_Return w s c r s' H) as (cfg & cfe & s1 & _ & _ & _ & Hl).
  destruct Hl as (_ & _ & _ & _ & _ & _ & Hpeers & _ & _ & Htog & _ & Ha & Hc & _).
  split.
  - destruct Hpeers as [E|E]; [left; rewrite Ha, E|right; rewrite Hc, E]; reflexivity.
  - intros Hne. unfold toggles in Htog. injection Htog as _ ->.
    destruct (ConnectPeers cfg) as [|p ps] eqn:E; [|reflexivity].
    exfalso. apply Hne. rewrite Hc. reflexivity.
Qed.

(** X3: in a configuration that loadConfig returns none of the four
    address lists has a repeated entry, and there is at least one
    listener. *)
Theorem returned_lists_duplicate_free w s c r s' :
  loadConfig w s = (Return (c, r), s') →
  NoDup (Listeners c) ∧ NoDup (RPCListeners c)
  ∧ NoDup (AddPeers c) ∧ NoDup (ConnectPeers c)
  ∧ Listeners c ≠ [].
Proof.
  intros H.
  destruct (loadConfig_Return w s c r s' H) as (cfg & cfe & s1 & _ & _ & _ & Hl).
  destruct Hl as (_ & _ & _ & _ & _ & _ & _ & _ & _ & _ & HL & HA & HC & HR & _).
  split; [rewrite HL; apply normalizeAddresses_NoDup|].
  split.
  { destruct (negb (DisableRPC c) && (length (RPCListeners cfg) =? 0)%nat).
    - destruct HR as (addrs & _ & ->). apply normalizeAddresses_NoDup.
    - rewrite HR. apply normalizeAddresses_NoDup. }
  split; [rewrite HA; apply normalizeAddresses_NoDup|].
  split; [rewrite HC; apply normalizeAddresses_NoDup|].
  rewrite HL. intros E%normalizeAddresses_empty.
  exact (effectiveListeners_nonempty _ _ _ E).
Qed.

(** X4: the mining keys of a returned configuration are the getworkkey
    strings decoded one by one, in order, each decoding without error
    into an address for the active network. *)
Theorem returned_mining_keys_decoded w s c r s' :
  loadConfig w s = (Return (c, r), s') →
  Forall2 (decodesTo w (activeNetParams s')) (GetWorkKeys c) (miningKeys c).
Proof.
  intros H.
  destruct (loadConfig_Return w s c r s' H) as (cfg & cfe & s1 & _ & _ & _ & Hl).
  destruct Hl as (_ & _ & _ & _ & _ & _ & _ & Hinert & _ & _ & _ & _ & _ & _ & Hk).
  unfold inert in Hinert. injection Hinert as _ _ _ _ -> _. exact Hk.
Qed.

(** X5: the data and log directories of a returned configuration are
    the merged ones, cleaned and expanded, with the name of the active
    network appended as a last path element; the remaining arguments are
    those of the final command-line parse. *)
Theorem dirs_namespaced_by_network w s cfg remainingArgs configFileError s1 c r s' :
  mergeSources w s = (Return (cfg, remainingArgs, configFileError), s1) →
  loadConfig w s = (Return (c, r), s') →
  DataDir c = filepath_Join w (cleanAndExpandPath w (DataDir cfg))
                            (netName w (activeNetParams s'))
  ∧ LogDir c = filepath_Join w (cleanAndExpandPath w (LogDir cfg))
                             (netName w (activeNetParams s'))
  ∧ r = remainingArgs.
Proof.
  intros Hmerge H.
  destruct (loadConfig_Return_merged w s cfg remainingArgs configFileError s1 c r s'
              Hmerge H) as (-> & Hl).
  destruct Hl as (_ & _ & _ & _ & _ & _ & _ & _ & Hdirs & _).
  unfold dirs in Hdirs. injection Hdirs as -> ->. auto.
Qed.

(** X6: listening is off in a returned configuration exactly when it was
    switched off, or a proxy or connect-only peers are given and no
    listener is; DNS seeding is off exactly when it was switched off, the
    simulation network is selected, or connect-only peers are given. *)
Theorem listen_and_seed_switches w s cfg remainingArgs configFileError s1 c r s' :
  mergeSources w s = (Return (cfg, remainingArgs, configFileError), s1) →
  loadConfig w s = (Return (c, r), s') →
  DisableListen c
  = DisableListen cfg
    || (negb (String.eqb (Proxy cfg) "") || (0 <? length (ConnectPeers cfg))%nat)
       && (length (Listeners cfg) =? 0)%nat
  ∧ DisableDNSSeed c
    = DisableDNSSeed cfg || SimNet cfg || (0 <? length (ConnectPeers cfg))%nat.
Proof.
  intros Hmerge H.
  destruct (loadConfig_Return_merged w s cfg remainingArgs configFileError s1 c r s'
              Hmerge H) as (_ & Hl).
  destruct Hl as (_ & _ & _ & _ & _ & _ & _ & _ & _ & Htog & _).
  unfold toggles in Htog. injection Htog as -> ->.
  split.
  - destruct ((negb (String.eqb (Proxy cfg) "") || (0 <? length (ConnectPeers cfg))%nat)
              && (length (Listeners cfg) =? 0)%nat), (DisableListen cfg); reflexivity.
  - destruct (0 <? length (ConnectPeers cfg))%nat, (SimNet cfg), (DisableDNSSeed cfg);
      reflexivity.
Qed.

(** X7: without a listener option the returned configuration listens on
    all interfaces at the default port of the active network, and on
    nothing else; with listener options it listens on those, normalised
    with that port. *)
Theorem listeners_defaulted w s cfg remainingArgs configFileError s1 c r s' :
  mergeSources w s = (Return (cfg, remainingArgs, configFileError), s1) →
  loadConfig w s = (Return (c, r), s') →
  let defaultPort := DefaultPort w (activeNetParams s') in
  (Listeners cfg = [] → plainPort defaultPort →
     Listeners c = [net.JoinHostPort "" defaultPort])
  ∧ (Listeners cfg ≠ [] → Listeners c = normalizeAddresses (Listeners cfg) defaultPort).
Proof.
  intros Hmerge H defaultPort.
  destruct (loadConfig_Return_merged w s cfg remainingArgs configFileError s1 c r s'
              Hmerge H) as (_ & Hl).
  destruct Hl as (_ & _ & _ & _ & _ & _ & _ & _ & _ & _ & HL & _).
  fold defaultPort in HL. unfold effectiveListeners in HL. split.
  - intros E Hport. rewrite E in HL. rewrite HL.
    unfold normalizeAddresses. simpl map.
    rewrite normalizeAddress_hasPort; [reflexivity|].
    exists "", defaultPort. apply JoinHostPort_splits; [|exact Hport].
    split; reflexivity.
  - intros E. destruct (Listeners cfg); [contradiction|exact HL].
Qed.

(** X8: with the RPC server enabled and no RPC listener given, the RPC
    listeners of the returned configuration are the addresses localhost
    resolves to, each with the RPC port of the active network; otherwise
    they are the given ones, normalised with that port. *)
Theorem rpc_listeners_defaulted w s cfg remainingArgs configFileError s1 c r s' :
  mergeSources w s = (Return (cfg, remainingArgs, configFileError), s1) →
  loadConfig w s = (Return (c, r), s') →
  let port := rpcPort w (activeNetParams s') in
  (DisableRPC c = false → RPCListeners cfg = [] →
     ∃ addrs,
       net_LookupHost w "localhost" = inl addrs
       ∧ RPCListeners c
         = normalizeAddresses (map (fun addr => net.JoinHostPort addr port) addrs) port)
  ∧ (DisableRPC c = true ∨ RPCListeners cfg ≠ [] →
     RPCListeners c = normalizeAddresses (RPCListeners cfg) port).
Proof.
  intros Hmerge H port.
  destruct (loadConfig_Return_merged w s cfg remainingArgs configFileError s1 c r s'
              Hmerge H) as (_ & Hl).
  destruct Hl as (_ & _ & _ & _ & _ & _ & _ & _ & _ & _ & _ & _ & _ & HR & _).
  fold port in HR. split.
  - intros Hon E. rewrite Hon, E in HR. exact HR.
  - intros [Hoff|Hne].
    + rewrite Hoff in HR. exact HR.
    + destruct (RPCListeners cfg); [contradiction|].
      rewrite andb_false_r in HR. exact HR.
Qed.

End ReturnedConfig.

(** The run without flags or config file returns a configuration, and
    so does the run of [minerWorld]. *)
Lemma plainWorld_returns :
  loadConfig plainWorld initialState
  = (Return (loadedConfig plainWorld, loadedArgs plainWorld), finalState plainWorld).
Proof. vm_compute. reflexivity. Qed.

Lemma minerWorld_returns :
  loadConfig minerWorld initialState
  = (Return (loadedConfig minerWorld, loadedArgs minerWorld), finalState minerWorld).
Proof. vm_compute. reflexivity. Qed.

Lemma minerWorld_merges :
  mergeSources minerWorld initialState
  = (Return (mergedConfig minerWorld, [], None), (mergeSources minerWorld initialState).2).
Proof. vm_compute. reflexivity. Qed.

(** The theorem at the run without flags or config file: the defaults
    pass every check. *)
Lemma returned_options_validated_witness :
  (DbType (loadedConfig plainWorld), Profile (loadedConfig plainWorld),
   BanDuration (loadedConfig plainWorld), DebugLevel (loadedConfig plainWorld))
  = ("leveldb", "", (24 * 3600 * 1000000000)%Z, "info")
  ∧ validDbType plainWorld (DbType (loadedConfig plainWorld)) = true
  ∧ profilePortValid (Profile (loadedConfig plainWorld))
  ∧ (time_Second <= BanDuration (loadedConfig plainWorld))%Z
  ∧ DebugLevel (loadedConfig plainWorld) ≠ "show"
  ∧ ∃ s0 s1, parseAndSetDebugLevels plainWorld (DebugLevel (loadedConfig plainWorld)) s0
             = (Return tt, s1).
Proof.
  split; [vm_compute; reflexivity|].
  exact (returned_options_validated plainWorld initialState (loadedConfig plainWorld)
           (loadedArgs plainWorld) (finalState plainWorld) plainWorld_returns).
Defined.

(** The theorem at a run with two connect-only peers. *)
Lemma returned_peers_exclusive_witness :
  ConnectPeers (loadedConfig minerWorld) = ["10.0.0.1:8333"]
  ∧ (AddPeers (loadedConfig minerWorld) = [] ∨ ConnectPeers (loadedConfig minerWorld) = [])
  ∧ (ConnectPeers (loadedConfig minerWorld) ≠ [] →
     DisableDNSSeed (loadedConfig minerWorld) = true).
Proof.
  split; [vm_compute; reflexivity|].
  exact (returned_peers_exclusive minerWorld initialState (loadedConfig minerWorld)
           (loadedArgs minerWorld) (finalState minerWorld) minerWorld_returns).
Defined.

(** The theorem at the same run: the peer given twice, once without its
    port, is kept once. *)
Lemma returned_lists_duplicate_free_witness :
  lists (loadedConfig minerWorld)
  = ([":8333"], ["127.0.0.1:8334"; "[::1]:8334"], [], ["10.0.0.1:8333"])
  ∧ NoDup (Listeners (loadedConfig minerWorld))
  ∧ NoDup (RPCListeners (loadedConfig minerWorld))
  ∧ NoDup (AddPeers (loadedConfig minerWorld))
  ∧ NoDup (ConnectPeers (loadedConfig minerWorld))
  ∧ Listeners (loadedConfig minerWorld) ≠ [].
Proof.
  split; [vm_compute; reflexivity|].
  exact (returned_lists_duplicate_free minerWorld initialState (loadedConfig minerWorld)
           (loadedArgs minerWorld) (finalState minerWorld) minerWorld_returns).
Defined.

(** The theorem at the same run, with its one getworkkey. *)
Lemma returned_mining_keys_decoded_witness :
  miningKeys (loadedConfig minerWorld)
  = [DecodedAddress "1BoatSLRHtKNngkdXEeobR76b53LETtpyT"]
  ∧ Forall2 (decodesTo minerWorld (activeNetParams (finalState minerWorld)))
            (GetWorkKeys (loadedConfig minerWorld)) (miningKeys (loadedConfig minerWorld)).
Proof.
  split; [vm_compute; reflexivity|].
  exact (returned_mining_keys_decoded minerWorld initialState (loadedConfig minerWorld)
           (loadedArgs minerWorld) (finalState minerWorld) minerWorld_returns).
Defined.

(** The theorem at the same run: --datadir=~/chain on the main
    network. *)
Lemma dirs_namespaced_by_network_witness :
  dirs (loadedConfig minerWorld)
  = ("/home/user/chain/mainnet", "/home/user/.btcd/logs/mainnet")
  ∧ DataDir (loadedConfig minerWorld)
    = filepath_Join minerWorld
        (cleanAndExpandPath minerWorld (DataDir (mergedConfig minerWorld)))
        (netName minerWorld (activeNetParams (finalState minerWorld)))
  ∧ LogDir (loadedConfig minerWorld)
    = filepath_Join minerWorld
        (cleanAndExpandPath minerWorld (LogDir (mergedConfig minerWorld)))
        (netName minerWorld (activeNetParams (finalState minerWorld)))
  ∧ loadedArgs minerWorld = [].
Proof.
  split; [vm_compute; reflexivity|].
  exact (dirs_namespaced_by_network minerWorld initialState (mergedConfig minerWorld)
           [] None (mergeSources minerWorld initialState).2
           (loadedConfig minerWorld) (loadedArgs minerWorld) (finalState minerWorld)
           minerWorld_merges minerWorld_returns).
Defined.

(** The theorem at the same run: connect-only peers and no listener
    option switch off both listening and DNS seeding. *)
Lemma listen_and_seed_switches_witness :
  toggles (loadedConfig minerWorld) = (true, true)
  ∧ DisableListen (loadedConfig minerWorld)
    = DisableListen (mergedConfig minerWorld)
      || (negb (String.eqb (Proxy (mergedConfig minerWorld)) "")
          || (0 <? length (ConnectPeers (mergedConfig minerWorld)))%nat)
         && (length (Listeners (mergedConfig minerWorld)) =? 0)%nat
  ∧ DisableDNSSeed (loadedConfig minerWorld)
    = DisableDNSSeed (mergedConfig minerWorld) || SimNet (mergedConfig minerWorld)
      || (0 <? length (ConnectPeers (mergedConfig minerWorld)))%nat.
Proof.
  split; [vm_compute; reflexivity|].
  exact (listen_and_seed_switches minerWorld initialState (mergedConfig minerWorld)
           [] None (mergeSources minerWorld initialState).2
           (loadedConfig minerWorld) (loadedArgs minerWorld) (finalState minerWorld)
           minerWorld_merges minerWorld_returns).
Defined.

(** The theorem at the same run: no listener option, default port
    8333. *)
Lemma listeners_defaulted_witness :
  Listeners (loadedConfig minerWorld) = [":8333"].
Proof.
  refine (proj1 (listeners_defaulted minerWorld initialState (mergedConfig minerWorld)
                   [] None (mergeSources minerWorld initialState).2
                   (loadedConfig minerWorld) (loadedArgs minerWorld)
                   (finalState minerWorld) minerWorld_merges minerWorld_returns) _ _).
  - vm_compute. reflexivity.
  - vm_compute. auto.
Defined.

(** The theorem at the same run: user and password are set and no RPC
    listener is, localhost resolves to 127.0.0.1 and ::1. *)
Lemma rpc_listeners_defaulted_witness :
  ∃ addrs,
    net_LookupHost minerWorld "localhost" = inl addrs
    ∧ RPCListeners (loadedConfig minerWorld)
      = normalizeAddresses
          (map (fun addr => net.JoinHostPort addr
                              (rpcPort minerWorld (activeNetParams (finalState minerWorld))))
               addrs)
          (rpcPort minerWorld (activeNetParams (finalState minerWorld))).
Proof.
  refine (proj1 (rpc_listeners_defaulted minerWorld initialState (mergedConfig minerWorld)
                   [] None (mergeSources minerWorld initialState).2
                   (loadedConfig minerWorld) (loadedArgs minerWorld)
                   (finalState minerWorld) minerWorld_merges minerWorld_returns) _ _).
  - vm_compute. reflexivity.
  - vm_compute. reflexivity.
Defined.

(** ** How a run ends *)

Section Endings.

Variable w : World.
Local Open Scope list_scope.

Lemma usagePrinted_snoc out err : usagePrinted err ((out ++ [Stderr err]) ++ [WriteHelp]).
Proof. exists out. rewrite <- app_assoc. reflexivity. Qed.

Lemma ending_bind {A B} (m : M A) (k : A -> M B) s :
  wp m s (fun o s1 => ending w o s s1) →
  (∀ a s1, wp (k a) s1 (fun o s' => ending w o s1 s')) →
  wp (bind m k) s (fun o s' => ending w o s s').
Proof.
  unfold wp, bind. intros H Hk.
  destruct (m s) as [[a|e|c|p] s1]; simpl in *; try exact H.
  specialize (Hk a s1). destruct H as [H _], Hk as [Hk1 Hk2].
  split; [eapply extends_trans; eassumption|exact Hk2].
Qed.

Lemma ending_ended {A} (o : Outcome A) s s' : ending w o s s' → ended w o s s'.
Proof.
  destruct o as [a|e|c|p]; try (intros H; exact H).
  intros [(evs & E & Hevs) _]. exists evs. auto.
Qed.

Lemma ended_bind {A B} (m : M A) (k : A -> M B) s :
  wp m s (fun o s1 => ending w o s s1) →
  (∀ a s1, wp (k a) s1 (fun o s' => ended w o s1 s')) →
  wp (bind m k) s (fun o s' => ended w o s s').
Proof.
  unfold wp, bind. intros H Hk.
  destruct (m s) as [[a|e|c|p] s1]; simpl in *; try exact H.
  specialize (Hk a s1). destruct H as [(evs & E & Hevs) _].
  destruct (k a s1) as [[b|e|c|p] s2]; simpl in *.
  - destruct Hk as (front & Hfront & Hout). exists (evs ++ front).
    split; [apply Forall_app; auto|].
    destruct Hout as [Hout|(err & Hout)]; [left|right; exists err];
      rewrite Hout, E, <- ?app_assoc; reflexivity.
  - destruct Hk as [Hk1 Hk2].
    split; [eapply extends_trans; [exists evs; eauto|exact Hk1]|exact Hk2].
  - destruct Hk as [Hk1 Hk2].
    split; [eapply extends_trans; [exists evs; eauto|exact Hk1]|exact Hk2].
  - destruct Hk as [Hk1 Hk2].
    split; [eapply extends_trans; [exists evs; eauto|exact Hk1]|exact Hk2].
Qed.

Lemma preParse_ending s : wp (preParse w) s (fun o s' => ending w o s s').
Proof.
  unfold wp, ending, preParse.
  destruct (os_MkdirAll w (btcdHomeDir w)) as [err|] eqn:Hmk; simpl.
  { split; [solve_extends|]. right. left. split; [exact Hmk|].
    exists (output s). rewrite <- app_assoc. reflexivity. }
  destruct (flags_Parse w flags_None (defaultConfig w) {| ServiceCommand := "" |})
    as [[preCfg serviceOpts] parsed]; simpl.
  destruct (ShowVersion preCfg); simpl; [split; [solve_extends|reflexivity]|].
  destruct (runServiceCommand w) as [run|]; simpl; [|split; [solve_extends|exact I]].
  destruct (negb (String.eqb (ServiceCommand serviceOpts) "")); simpl;
    [|split; [solve_extends|exact I]].
  destruct (run (ServiceCommand serviceOpts)); simpl;
    (split; [solve_extends|reflexivity]).
Qed.

Lemma loadConfigFile_ending preCfg cfg serviceOpts s :
  wp (loadConfigFile w preCfg cfg serviceOpts) s (fun o s' => ending w o s s').
Proof.
  unfold wp, ending, loadConfigFile.
  destruct (readsConfigFile w preCfg); simpl; [|split; [solve_extends|exact I]].
  destruct (ini_ParseFile w (ConfigFile preCfg) cfg serviceOpts)
    as [[fileCfg so] [err|]]; simpl; [|split; [solve_extends|exact I]].
  destruct (isPathError err); simpl; [split; [solve_extends|exact I]|].
  split; [solve_extends|]. left. apply usagePrinted_snoc.
Qed.

Lemma finalParse_ending cfg serviceOpts configFileError s :
  wp (finalParse w cfg serviceOpts configFileError) s (fun o s' => ending w o s s').
Proof.
  unfold wp, ending, finalParse.
  destruct (flags_Parse w flags_Default cfg serviceOpts) as [[cfg' so'] [rem|err]];
    simpl; [split; [solve_extends|exact I]|].
  destruct (notHelpRequest err) eqn:Hhelp; simpl.
  - split; [solve_extends|]. right. right. left. exists (output s).
    rewrite Hhelp, <- app_assoc. reflexivity.
  - split; [solve_extends|]. right. right. left. exists (output s).
    rewrite Hhelp. reflexivity.
Qed.

Lemma mergeSources_ending s : wp (mergeSources w) s (fun o s' => ending w o s s').
Proof.
  unfold mergeSources, beforeFinalParse.
  apply ending_bind.
  - apply ending_bind; [apply preParse_ending|]. intros [preCfg serviceOpts] s1.
    apply ending_bind; [apply loadConfigFile_ending|].
    intros [[cfg so] cfe] s2. unfold wp, ending. simpl.
    split; [apply extends_refl|exact I].
  - intros [[cfg so] cfe] s1. apply finalParse_ending.
Qed.

Lemma selectNetwork_ending cfg s :
  wp (selectNetwork cfg) s (fun o s' => ending w o s s').
Proof.
  unfold wp, ending, selectNetwork.
  destruct (numNets cfg >? 1)%Z; simpl.
  { split; [solve_extends|]. left. apply usagePrinted_snoc. }
  destruct (TestNet3 cfg); simpl; [split; [solve_extends|exact I]|].
  destruct (RegressionTest cfg); simpl; [split; [solve_extends|exact I]|].
  destruct (SimNet cfg); simpl; split; solve [solve_extends|exact I].
Qed.

Lemma namespaceDirs_ending cfg s :
  wp (namespaceDirs w cfg) s (fun o s' => ending w o s s').
Proof. unfold wp, ending, namespaceDirs. simpl. split; [solve_extends|exact I]. Qed.

(** The pair loop never reads a field that is not there. *)
Lemma setLogLevelPairs_ending pairs : ∀ s,
  wp (setLogLevelPairs w pairs) s (fun o s' =>
    extends notWarning (output s) (output s')
    ∧ match o with Panic _ | OsExit _ => False | _ => True end).
Proof.
  induction pairs as [|logLevelPair rest IH]; intros s; unfold wp; simpl.
  - split; [apply extends_refl|exact I].
  - destruct (strings.Contains logLevelPair "=") eqn:Hc; simpl;
      [|split; [apply extends_refl|exact I]].
    destruct (Split_Contains _ _ Hc) as (subsysID & logLevel & more & ->). simpl.
    destruct (bool_decide (subsysID ∈ subsystemLoggers w)); simpl;
      [|split; [apply extends_refl|exact I]].
    destruct (validLogLevel logLevel); simpl; [|split; [apply extends_refl|exact I]].
    unfold bind. simpl.
    match goal with |- context [setLogLevelPairs w rest ?s1] =>
      specialize (IH s1); unfold wp in IH;
      destruct (setLogLevelPairs w rest s1) as [o s2] end.
    simpl in IH. destruct IH as (Hext & Ho).
    assert (extends notWarning (output s) (output s2)).
    { eapply extends_trans; [|exact Hext]. solve_extends. }
    destruct o; simpl; auto.
Qed.

Lemma parseAndSetDebugLevels_ending debugLevel s :
  wp (parseAndSetDebugLevels w debugLevel) s (fun o s' =>
    extends notWarning (output s) (output s')
    ∧ match o with Panic _ | OsExit _ => False | _ => True end).
Proof.
  unfold parseAndSetDebugLevels.
  destruct (negb (strings.Contains debugLevel ",") && negb (strings.Contains debugLevel "="));
    [|apply setLogLevelPairs_ending].
  unfold wp. destruct (validLogLevel debugLevel); simpl; split;
    solve [solve_extends|exact I].
Qed.

Lemma setupLogging_ending cfg s :
  wp (setupLogging w cfg) s (fun o s' => ending w o s s').
Proof.
  unfold setupLogging.
  destruct (String.eqb (DebugLevel cfg) "show").
  { unfold wp, ending. simpl. split; [solve_extends|reflexivity]. }
  unfold wp, ending, bind. simpl.
  match goal with |- context [parseAndSetDebugLevels w ?d ?s1] =>
    pose proof (parseAndSetDebugLevels_ending d s1) as H;
    unfold wp in H;
    destruct (parseAndSetDebugLevels w d s1) as [o s2] end.
  simpl in H. destruct H as (Hext & Ho).
  assert (Hext' : extends notWarning (output s) (output s2)).
  { eapply extends_trans; [|exact Hext]. solve_extends. }
  destruct o; simpl; try contradiction.
  - split; [exact Hext'|exact I].
  - split; [solve_extends|]. left. apply usagePrinted_snoc.
Qed.

Lemma validateOptions_ending cfg s :
  wp (validateOptions w cfg) s (fun o s' => ending w o s s').
Proof.
  unfold wp, ending, validateOptions.
  repeat (case_if; simpl;
          [split; [solve_extends|left; apply usagePrinted_snoc]|]).
  split; [solve_extends|exact I].
Qed.

Lemma listenAndRPCDefaults_ending cfg s :
  wp (listenAndRPCDefaults w cfg) s (fun o s' => ending w o s s').
Proof.
  unfold wp, ending, listenAndRPCDefaults, bind, getActiveNetParams. simpl.
  match goal with |- context [if ?b then _ else ret ?c] =>
    destruct b; [|simpl; split; [solve_extends|exact I]] end.
  simpl.
  destruct (net_LookupHost w "localhost") as [addrs|[err name]] eqn:Hlookup; simpl.
  - split; [solve_extends|exact I].
  - split; [solve_extends|]. right. right. right. exists err, name.
    split; [reflexivity|]. split; [exact Hlookup|]. eauto.
Qed.

Lemma limitBlockSizes_ending cfg s :
  wp (limitBlockSizes w cfg) s (fun o s' => ending w o s s').
Proof.
  unfold wp, ending, limitBlockSizes. case_if; simpl.
  - split; [solve_extends|left; apply usagePrinted_snoc].
  - split; [solve_extends|exact I].
Qed.

Lemma decodeMiningKeys_ending net keys : ∀ acc s,
  wp (decodeMiningKeys w net keys acc) s (fun o s' => ending w o s s').
Proof.
  induction keys as [|strAddr rest IH]; intros acc s; simpl.
  - unfold wp, ending. simpl. split; [solve_extends|exact I].
  - destruct (btcutil_DecodeAddress w strAddr net) as [addr|err].
    + destruct (IsForNet w addr net); simpl; [apply IH|].
      unfold wp, ending. simpl. split; [solve_extends|left; apply usagePrinted_snoc].
    + unfold wp, ending. simpl. split; [solve_extends|left; apply usagePrinted_snoc].
Qed.

Lemma checkMiningKeys_ending cfg s :
  wp (checkMiningKeys w cfg) s (fun o s' => ending w o s s').
Proof.
  unfold checkMiningKeys.
  apply ending_bind; [unfold wp, ending; simpl; split; [solve_extends|exact I]|].
  intros net s1. apply ending_bind; [apply decodeMiningKeys_ending|].
  intros keys s2. unfold wp, ending. simpl. split; [solve_extends|exact I].
Qed.

Lemma normalizeAddressLists_ending cfg s :
  wp (normalizeAddressLists w cfg) s (fun o s' => ending w o s s').
Proof.
  unfold wp, ending, normalizeAddressLists. simpl. split; [solve_extends|exact I].
Qed.

Lemma resolveConfig_ended cfg remainingArgs configFileError s :
  wp (resolveConfig w cfg remainingArgs configFileError) s
     (fun o s' => ended w o s s').
Proof.
  unfold resolveConfig.
  apply ended_bind; [apply selectNetwork_ending|intros c1 s1].
  apply ended_bind; [apply namespaceDirs_ending|intros c2 s2].
  apply ended_bind; [apply setupLogging_ending|intros u3 s3].
  apply ended_bind; [apply validateOptions_ending|intros u4 s4].
  apply ended_bind; [apply listenAndRPCDefaults_ending|intros c5 s5].
  apply ended_bind; [apply limitBlockSizes_ending|intros c6 s6].
  apply ended_bind; [apply checkMiningKeys_ending|intros c7 s7].
  apply ended_bind; [apply normalizeAddressLists_ending|intros c8 s8].
  unfold wp, ended, warnConfigFile.
  destruct configFileError as [err|]; simpl; exists []; (split; [constructor|]).
  - right. exists err. reflexivity.
  - left. symmetry. apply app_nil_r.
Qed.

Lemma loadConfig_ended s : wp (loadConfig w) s (fun o s' => ended w o s s').
Proof.
  unfold loadConfig.
  apply ended_bind; [apply mergeSources_ending|].
  intros [[cfg rem] cfe] s1. apply resolveConfig_ended.
Qed.

End Endings.

(** ** Errors, exits and the deferred warning *)

Section EndingsOfRuns.

Local Open Scope list_scope.

(** X9: every error loadConfig returns has been reported in one of four
    ways: printed to standard error with the usage after it; logged, when
    it is the failure to create the home directory; left to the final
    command-line parse, the usage following unless it is a help request;
    or, when it is the failure to resolve localhost for the RPC
    listeners, returned without any message. *)
Theorem returned_errors_are_reported w s e s' :
  loadConfig w s = (Failure e, s') → failureReported w e (output s').
Proof.
  intros H. pose proof (loadConfig_ended w s) as Hend. unfold wp in Hend.
  rewrite H in Hend. exact (proj2 Hend).
Qed.

(** X10: the warning about the config file is logged at most once, as
    the last thing a returning run does; a run that ends in an error or
    an exit logs no such warning. *)
Theorem warning_only_before_return w s o s' :
  loadConfig w s = (o, s') →
  ∃ evs,
    output s' = output s ++ evs
    ∧ (Forall notWarning evs
       ∨ ∃ result front err,
           o = Return result ∧ evs = front ++ [LogWarnf err] ∧ Forall notWarning front).
Proof.
  intros H. pose proof (loadConfig_ended w s) as Hend. unfold wp in Hend.
  rewrite H in Hend. simpl in Hend.
  destruct o as [result|e|c|p].
  - destruct Hend as (front & Hfront & [Hout|(err & Hout)]).
    + exists front. auto.
    + exists (front ++ [LogWarnf err]). split; [exact Hout|].
      right. exists result, front, err. auto.
  - destruct Hend as [(evs & E & Hevs) _]. exists evs. auto.
  - destruct Hend as [(evs & E & Hevs) _]. exists evs. auto.
  - destruct Hend as [(evs & E & Hevs) _]. exists evs. auto.
Qed.

(** X11: loadConfig never panics, the field reads of the debug-level
    pairs included, and when it exits the process the status is 0. *)
Theorem never_panics_and_exits_with_zero w s :
  (∀ what, (loadConfig w s).1 ≠ Panic what)
  ∧ (∀ code, (loadConfig w s).1 = OsExit code → code = 0%Z).
Proof.
  pose proof (loadConfig_ended w s) as Hend. unfold wp in Hend.
  destruct (loadConfig w s) as [[result|e|c|p] s']; simpl in *.
  - split; [discriminate|discriminate].
  - split; [discriminate|discriminate].
  - split; [discriminate|]. intros code [= <-]. exact (proj2 Hend).
  - destruct Hend as [_ []].
Qed.

(** X12: when the home directory cannot be created, loadConfig logs the
    error and returns it, without parsing anything. *)
Theorem mkdir_failure_returned w s err :
  os_MkdirAll w (btcdHomeDir w) = Some err →
  loadConfig w s
  = (Failure err, emitted [MkdirAll (btcdHomeDir w); LogErrorf err] s).
Proof.
  intros Hmk.
  unfold loadConfig, mergeSources, beforeFinalParse, preParse, bind, emit, fail.
  simpl. rewrite Hmk. simpl. unfold emitted. rewrite <- app_assoc. reflexivity.
Qed.

(** X13: with the version flag on the command line loadConfig prints the
    version and exits with status 0 right after the pre-parse, whatever
    else the command line holds and whether or not the pre-parse gave an
    error; no config file is read. *)
Theorem version_flag_exits w s :
  os_MkdirAll w (btcdHomeDir w) = None →
  ShowVersion (commandLineConfig w) = true →
  loadConfig w s
  = (OsExit 0,
     emitted [MkdirAll (btcdHomeDir w); ParseArgs flags_None; PrintVersion] s).
Proof.
  intros Hmk Hv. unfold commandLineConfig in Hv.
  unfold loadConfig, mergeSources, beforeFinalParse, preParse, bind, emit, os_Exit.
  simpl. rewrite Hmk. simpl.
  destruct (flags_Parse w flags_None (defaultConfig w) {| ServiceCommand := "" |})
    as [[preCfg serviceOpts] parsed]. simpl in Hv. rewrite Hv. simpl.
  unfold emitted. rewrite <- !app_assoc. reflexivity.
Qed.

(** X14: with a service command on the command line of a build with
    service support, and no version flag, loadConfig runs the command and
    exits with status 0; an error of the command is printed to standard
    error and does not change the status. *)
Theorem service_command_exits w s run :
  os_MkdirAll w (btcdHomeDir w) = None →
  ShowVersion (commandLineConfig w) = false →
  runServiceCommand w = Some run →
  ServiceCommand (commandLineService w) ≠ "" →
  loadConfig w s
  = (OsExit 0,
     emitted ([MkdirAll (btcdHomeDir w); ParseArgs flags_None;
               RunServiceCommand (ServiceCommand (commandLineService w))]
              ++ match run (ServiceCommand (commandLineService w)) with
                 | Some err => [Stderr err]
                 | None => []
                 end) s).
Proof.
  intros Hmk Hv Hrun Hcmd. unfold commandLineConfig in Hv.
  unfold commandLineService in *.
  unfold loadConfig, mergeSources, beforeFinalParse, preParse, bind, emit, os_Exit.
  simpl. rewrite Hmk. simpl.
  destruct (flags_Parse w flags_None (defaultConfig w) {| ServiceCommand := "" |})
    as [[preCfg serviceOpts] parsed]. simpl in Hv, Hcmd |- *. rewrite Hv, Hrun. simpl.
  destruct (String.eqb_spec (ServiceCommand serviceOpts) "") as [E|_];
    [contradiction|]. simpl.
  destruct (run (ServiceCommand serviceOpts)) as [err|]; simpl;
    unfold emitted; simpl; rewrite <- !app_assoc; reflexivity.
Qed.

(** X15: an error of the final command-line parse is returned as it is;
    the usage is printed after it unless the error is a help request, the
    error itself is not printed by loadConfig, and a pending config-file warning
    is dropped. *)
Theorem final_parse_error_returned w s cfg serviceOpts configFileError s1 err :
  beforeFinalParse w s = (Return (cfg, serviceOpts, configFileError), s1) →
  (flags_Parse w flags_Default cfg serviceOpts).2 = inr err →
  loadConfig w s
  = (Failure err,
     emitted (ParseArgs flags_Default
                :: (if notHelpRequest err then [WriteHelp] else [])) s1).
Proof.
  intros Hbefore Hparse.
  rewrite (loadConfig_afterConfigFile w s cfg serviceOpts configFileError s1 Hbefore).
  unfold afterConfigFile, finalParse, bind, emit, fail. simpl.
  destruct (flags_Parse w flags_Default cfg serviceOpts) as [[cfg' so'] parsed].
  simpl in Hparse. subst parsed. simpl.
  destruct (notHelpRequest err); simpl; unfold emitted; simpl;
    rewrite <- ?app_assoc; reflexivity.
Qed.

Lemma selectNetwork_runs cfg s :
  (numNets cfg <= 1)%Z →
  ∃ cfg',
    selectNetwork cfg s
    = (Return cfg', {| activeNetParams := chosenNet cfg (activeNetParams s);
                       output := output s |})
    ∧ DebugLevel cfg' = DebugLevel cfg.
Proof.
  intros Hn. unfold selectNetwork, chosenNet.
  destruct (Z.gtb_spec (numNets cfg) 1) as [Hgt|_]; [lia|].
  destruct (TestNet3 cfg); [eexists; split; reflexivity|].
  destruct (RegressionTest cfg); [eexists; split; reflexivity|].
  destruct (SimNet cfg).
  - eexists. split; [reflexivity|]. destruct cfg; reflexivity.
  - exists cfg. destruct s; split; reflexivity.
Qed.

(** X16: with the debug level show, and at most one network selected,
    loadConfig prints the sorted list of logging subsystems and exits
    with status 0 once the network is chosen, before any other option
    is checked. *)
Theorem show_prints_subsystems_and_exits w s cfg remainingArgs configFileError s1 :
  mergeSources w s = (Return (cfg, remainingArgs, configFileError), s1) →
  (numNets cfg <= 1)%Z →
  DebugLevel cfg = "show" →
  loadConfig w s
  = (OsExit 0,
     {| activeNetParams := chosenNet cfg (activeNetParams s);
        output := output s1 ++ [PrintSubsystems (supportedSubsystems w)] |}).
Proof.
  intros Hmerge Hn Hshow.
  rewrite (loadConfig_merged w s cfg remainingArgs configFileError s1 Hmerge).
  rewrite <- (mergeSources_net w s _ s1 Hmerge).
  destruct (selectNetwork_runs cfg s1 Hn) as (cfg' & Hsel & Hlevel).
  unfold resolveConfig. rewrite (bind_Return _ _ _ _ _ Hsel).
  unfold namespaceDirs, getActiveNetParams. unfold bind at 1 2. simpl.
  unfold bind at 1. unfold setupLogging. simpl.
  replace (DebugLevel cfg') with "show" by congruence. reflexivity.
Qed.

End EndingsOfRuns.

(** The theorem where localhost does not resolve: the error comes back
    without a message, the lookup being the last thing done. *)
Lemma returned_errors_are_reported_witness :
  finalOutcome lookupFailsWorld = Failure (DNSError "no such host" "localhost")
  ∧ failureReported lookupFailsWorld (DNSError "no such host" "localhost")
                    (output (finalState lookupFailsWorld)).
Proof.
  split; [vm_compute; reflexivity|].
  apply (returned_errors_are_reported lookupFailsWorld initialState
           (DNSError "no such host" "localhost") (finalState lookupFailsWorld)).
  vm_compute. reflexivity.
Defined.

(** The theorem at a run whose config file cannot be opened. *)
Lemma warning_only_before_return_witness :
  ∃ evs,
    output (finalState unreadableFileWorld) = (output initialState ++ evs)%list
    ∧ (Forall notWarning evs
       ∨ ∃ result front err,
           finalOutcome unreadableFileWorld = Return result
           ∧ evs = (front ++ [LogWarnf err])%list ∧ Forall notWarning front).
Proof.
  apply (warning_only_before_return unreadableFileWorld initialState
           (finalOutcome unreadableFileWorld) (finalState unreadableFileWorld)).
  vm_compute. reflexivity.
Defined.

(** The theorem where the home directory cannot be created. *)
Lemma mkdir_failure_returned_witness :
  loadConfig mkdirFailsWorld initialState
  = (Failure (PathError "mkdir" "/home/user/.btcd" "permission denied"),
     emitted [MkdirAll (btcdHomeDir mkdirFailsWorld);
              LogErrorf (PathError "mkdir" "/home/user/.btcd" "permission denied")]
             initialState).
Proof.
  apply (mkdir_failure_returned mkdirFailsWorld initialState
           (PathError "mkdir" "/home/user/.btcd" "permission denied")).
  vm_compute. reflexivity.
Defined.

(** The theorem at --version. *)
Lemma version_flag_exits_witness :
  loadConfig versionWorld initialState
  = (OsExit 0,
     emitted [MkdirAll (btcdHomeDir versionWorld); ParseArgs flags_None; PrintVersion]
             initialState).
Proof.
  apply (version_flag_exits versionWorld initialState).
  - vm_compute. reflexivity.
  - vm_compute. reflexivity.
Defined.

(** The theorem at a service command that fails. *)
Lemma service_command_exits_witness :
  loadConfig serviceWorld initialState
  = (OsExit 0,
     emitted [MkdirAll "/home/user/.btcd"; ParseArgs flags_None;
              RunServiceCommand "start"; Stderr (OtherError "service not installed")]
             initialState).
Proof.
  refine (eq_trans
            (service_command_exits serviceWorld initialState
               (fun command : string => Some (OtherError "service not installed"))
               _ _ _ _) _).
  - vm_compute. reflexivity.
  - vm_compute. reflexivity.
  - vm_compute. reflexivity.
  - vm_compute. discriminate.
  - vm_compute. reflexivity.
Defined.

(** The theorem at --help, the config file missing: the help request
    comes back, no usage is printed by loadConfig and the warning about
    the missing file is not logged. *)
Lemma final_parse_error_returned_witness :
  loadConfig helpWorld initialState
  = (Failure (FlagsError true "Usage: btcd [OPTIONS]"),
     emitted [MkdirAll "/home/user/.btcd"; ParseArgs flags_None;
              ParseFile "/home/user/.btcd/btcd.conf"; ParseArgs flags_Default]
             initialState).
Proof.
  refine (eq_trans
            (final_parse_error_returned helpWorld initialState
               (configBeforeFinalParse helpWorld) {| ServiceCommand := "" |}
               (Some (PathError "open" "/home/user/.btcd/btcd.conf"
                                "no such file or directory"))
               (beforeFinalParse helpWorld initialState).2
               (FlagsError true "Usage: btcd [OPTIONS]") _ _) _).
  - vm_compute. reflexivity.
  - vm_compute. reflexivity.
  - vm_compute. reflexivity.
Defined.

(** The theorem at --debuglevel=show --dbtype=bogus: the list is printed
    and the process exits before the database type is looked at. *)
Lemma show_prints_subsystems_and_exits_witness :
  loadConfig showWorld initialState
  = (OsExit 0,
     emitted [MkdirAll "/home/user/.btcd"; ParseArgs flags_None;
              ParseFile "/home/user/.btcd/btcd.conf"; ParseArgs flags_Default;
              PrintSubsystems ["AMGR"; "BTCD"; "PEER"; "RPCS"]]
             initialState).
Proof.
  refine (eq_trans
            (show_prints_subsystems_and_exits showWorld initialState
               (mergedConfig showWorld) [] None (mergeSources showWorld initialState).2
               _ _ _) _).
  - vm_compute. reflexivity.
  - vm_compute. discriminate.
  - vm_compute. reflexivity.
  - vm_compute. reflexivity.
Defined.

(** ** The helpers on their own *)

Section Subsystems.

Variable w : World.

Lemma stringLe_antisym : AntiSymm eq stringLe.
Proof.
  intros x y Hxy Hyx. apply StringLe.leb_le in Hxy, Hyx.
  destruct Hxy as [Hlt| ->]; [|reflexivity].
  destruct Hyx as [Hlt'| ->]; [|reflexivity].
  exfalso. apply (StrictOrder_Irreflexive (R := String_as_OT.lt) x).
  transitivity y; assumption.
Qed.

(** X17: supportedSubsystems lists every key of subsystemLoggers once,
    in ascending order, and nothing else; the list does not depend on the
    order in which the map is iterated: sorting any arrangement of the
    keys gives it. *)
Theorem supportedSubsystems_canonical :
  Sorted stringLe (supportedSubsystems w)
  ∧ NoDup (supportedSubsystems w)
  ∧ (∀ subsysID, subsysID ∈ supportedSubsystems w ↔ subsysID ∈ subsystemLoggers w)
  ∧ (∀ keys, keys ≡ₚ elements (subsystemLoggers w) →
       StringSort.sort keys = supportedSubsystems w).
Proof.
  assert (Hperm : elements (subsystemLoggers w) ≡ₚ supportedSubsystems w)
    by apply StringSort.Permuted_sort.
  split; [apply (StringSort.Sorted_sort (elements (subsystemLoggers w)))|].
  split; [rewrite <- Hperm; apply NoDup_elements|].
  split; [intros subsysID; rewrite <- Hperm; apply elem_of_elements|].
  intros keys Hkeys.
  apply (@Sorted_unique _ stringLe StringLe.leb_trans stringLe_antisym).
  - apply (StringSort.Sorted_sort keys).
  - apply (StringSort.Sorted_sort (elements (subsystemLoggers w))).
  - rewrite <- Hperm, <- Hkeys. symmetry. apply StringSort.Permuted_sort.
Qed.

End Subsystems.

Section DebugLevelEvents.

Variable w : World.
Local Open Scope list_scope.

Lemma emitted_nil s : emitted [] s = s.
Proof. destruct s. unfold emitted. simpl. rewrite app_nil_r. reflexivity. Qed.

Lemma emitted_cons e evs s :
  emitted evs {| activeNetParams := activeNetParams s; output := output s ++ [e] |}
  = emitted (e :: evs) s.
Proof. unfold emitted. simpl. rewrite <- app_assoc. reflexivity. Qed.

Lemma pairAccepted_step logLevelPair :
  pairAccepted w logLevelPair →
  ∀ rest s,
    setLogLevelPairs w (logLevelPair :: rest) s
    = setLogLevelPairs w rest (emitted (pairEvents logLevelPair) s).
Proof.
  intros (Hc & subsysID & logLevel & H0 & H1 & Hin & Hlvl) rest s.
  simpl. unfold pairEvents. rewrite Hc, H0, H1. simpl.
  rewrite (bool_decide_eq_true_2 _ Hin), Hlvl. reflexivity.
Qed.

Lemma pairRefused logLevelPair :
  ¬ pairAccepted w logLevelPair →
  ∀ rest s, ∃ e, setLogLevelPairs w (logLevelPair :: rest) s = (Failure e, s).
Proof.
  intros Hbad rest s. simpl.
  destruct (strings.Contains logLevelPair "=") eqn:Hc; simpl; [|eexists; reflexivity].
  destruct (Split_Contains _ _ Hc) as (subsysID & logLevel & more & Hsplit).
  rewrite Hsplit. simpl.
  destruct (bool_decide (subsysID ∈ subsystemLoggers w)) eqn:Hsub; simpl;
    [|eexists; reflexivity].
  destruct (validLogLevel logLevel) eqn:Hlvl; simpl; [|eexists; reflexivity].
  exfalso. apply Hbad. split; [exact Hc|]. exists subsysID, logLevel.
  rewrite Hsplit. apply bool_decide_eq_true in Hsub. auto.
Qed.

Lemma setLogLevelPairs_events pairs : ∀ s s',
  setLogLevelPairs w pairs s = (Return tt, s') →
  s' = emitted (flat_map pairEvents pairs) s.
Proof.
  induction pairs as [|logLevelPair rest IH]; intros s s' H.
  - injection H as <-. symmetry. apply emitted_nil.
  - assert (Hall : Forall (pairAccepted w) (logLevelPair :: rest))
      by (apply (setLogLevelPairs_accepts w _ s); eauto).
    inversion Hall as [|? ? Hpair Hrest]; subst.
    rewrite (pairAccepted_step _ Hpair) in H. apply IH in H. rewrite H.
    unfold emitted. simpl. rewrite <- app_assoc. reflexivity.
Qed.

Lemma setLogLevelPairs_stops front : ∀ bad rest s,
  Forall (pairAccepted w) front → ¬ pairAccepted w bad →
  ∃ e, setLogLevelPairs w (front ++ bad :: rest) s
       = (Failure e, emitted (flat_map pairEvents front) s).
Proof.
  induction front as [|logLevelPair front IH]; intros bad rest s Hfront Hbad.
  - rewrite emitted_nil. apply pairRefused, Hbad.
  - inversion Hfront as [|? ? Hpair Hrest]; subst.
    rewrite <- app_comm_cons, (pairAccepted_step _ Hpair).
    destruct (IH bad rest (emitted (pairEvents logLevelPair) s) Hrest Hbad) as (e & ->).
    exists e. unfold emitted. simpl. rewrite <- app_assoc. reflexivity.
Qed.

(** X18: when parseAndSetDebugLevels accepts a debug level, what it has
    done is this: for a level name, set all subsystems to it; otherwise
    set, for each comma-separated piece in the order given, the
    subsystem of its first field to the level of its second. *)
Theorem debug_levels_set_in_order debugLevel s s' :
  parseAndSetDebugLevels w debugLevel s = (Return tt, s') →
  s' = emitted (if negb (strings.Contains debugLevel ",")
                   && negb (strings.Contains debugLevel "=")
                then [SetLogLevels debugLevel]
                else flat_map pairEvents (strings.Split debugLevel ",")) s.
Proof.
  unfold parseAndSetDebugLevels.
  destruct (negb (strings.Contains debugLevel ",")
            && negb (strings.Contains debugLevel "="));
    [|apply setLogLevelPairs_events].
  destruct (validLogLevel debugLevel); simpl; [|discriminate].
  intros [= <-]. reflexivity.
Qed.

(** X19: a debug level is applied piece by piece and not taken back: when
    a piece is refused the error is returned with the levels of all
    pieces before it already set, and the pieces after it untouched. *)
Theorem debug_levels_kept_on_error debugLevel front bad rest s :
  strings.Contains debugLevel "," = true ∨ strings.Contains debugLevel "=" = true →
  strings.Split debugLevel "," = front ++ bad :: rest →
  Forall (pairAccepted w) front →
  ¬ pairAccepted w bad →
  ∃ e, parseAndSetDebugLevels w debugLevel s
       = (Failure e, emitted (flat_map pairEvents front) s).
Proof.
  intros Hdelim Hsplit Hfront Hbad. unfold parseAndSetDebugLevels.
  assert (Hcond : negb (strings.Contains debugLevel ",")
                  && negb (strings.Contains debugLevel "=") = false).
  { destruct Hdelim as [-> | ->]; [reflexivity|apply andb_false_r]. }
  rewrite Hcond, Hsplit. apply setLogLevelPairs_stops; assumption.
Qed.

End DebugLevelEvents.

Section Duplicates.

Local Open Scope list_scope.

(** X20: removeDuplicateAddresses returns a sublist of its input, the
    entries it keeps staying in their order; applying it again changes
    nothing; and it returns its input unchanged exactly when the input
    has no repeated entry. *)
Theorem removeDuplicateAddresses_fixpoint (addrs : list string) :
  sublist (removeDuplicateAddresses addrs) addrs
  ∧ removeDuplicateAddresses (removeDuplicateAddresses addrs)
    = removeDuplicateAddresses addrs
  ∧ (removeDuplicateAddresses addrs = addrs ↔ NoDup addrs).
Proof.
  split.
  { induction addrs as [|val addrs IH] using rev_ind; [constructor|].
    rewrite removeDuplicateAddresses_snoc.
    destruct (decide (val ∈ removeDuplicateAddresses addrs)).
    - apply sublist_inserts_r, IH.
    - apply sublist_app; [exact IH|reflexivity]. }
  split; [apply removeDuplicateAddresses_id, removeDuplicateAddresses_NoDup|].
  split; [|apply removeDuplicateAddresses_id].
  intros H. rewrite <- H. apply removeDuplicateAddresses_NoDup.
Qed.

End Duplicates.

Section Paths.

Variable w : World.

(** X21: cleanAndExpandPath replaces a leading "~" by the parent
    directory of btcdHomeDir, whatever follows it (a user name
    included), and no later "~"; a path that does not start with "~" only
    has its environment variables expanded and is cleaned. *)
Theorem cleanAndExpandPath_tilde (rest path : string) :
  cleanAndExpandPath w (String "~" rest)
  = filepath_Clean w (os_ExpandEnv w (filepath_Dir w (btcdHomeDir w) ++ rest))
  ∧ (strings.HasPrefix path "~" = false →
     cleanAndExpandPath w path = filepath_Clean w (os_ExpandEnv w path)).
Proof.
  split.
  - unfold cleanAndExpandPath. rewrite HasPrefix_head.
    unfold strings_Replace1.
    assert (Hprefix : String.prefix "~" (String "~" rest) = true)
      by apply HasPrefix_head.
    rewrite Hprefix. simpl String.length. rewrite sliceFrom_cons, sliceFrom_0.
    reflexivity.
  - intros H. unfold cleanAndExpandPath. rewrite H. reflexivity.
Qed.

End Paths.

Section ReturnedDispatch.

Context {Conn IP : Type}.
Variable sys_Dial : string -> string -> Conn + error.
Variable socks_Dial : socks_Proxy -> string -> string -> Conn + error.
Variable sys_LookupIP : string -> list IP + error.
Variable torLookupIP : string -> string -> list IP + error.

Lemma loadConfig_setup w s c r s' :
  loadConfig w s = (Return (c, r), s') → ∃ c', c = setupDialAndLookup c'.
Proof.
  intros Hrun. unfold loadConfig, bind in Hrun.
  destruct (mergeSources w s) as [[[[merged rem] cfe]|e|code|p] s1] eqn:Hmerge;
    try discriminate Hrun.
  pose proof (resolveConfig_post w merged rem cfe s1) as Hpost.
  apply (wp_run _ _ _ _ _ Hpost) in Hrun.
  destruct Hrun as (_ & _ & _ & _ & _ & Hcfg & _). exact Hcfg.
Qed.

Lemma setupDialAndLookup_proxy cfg :
  (Proxy (setupDialAndLookup cfg), ProxyUser (setupDialAndLookup cfg),
   ProxyPass (setupDialAndLookup cfg), NoOnion (setupDialAndLookup cfg))
  = (Proxy cfg, ProxyUser cfg, ProxyPass cfg, NoOnion cfg).
Proof.
  pose proof (setupDialAndLookup_settings cfg) as H.
  unfold settings, proxyOptions in H. congruence.
Qed.

(** X22: dialing and resolving through a configuration that loadConfig
    returned never calls an unset function; with --noonion every
    hidden-service address is refused with the error that Tor has been
    disabled, by btcdDial and by btcdLookup alike; and an address that is
    no hidden service is dialed directly when no proxy is set and through
    the proxy, with its user and password, when one is. *)
Theorem returned_config_dispatch w s c r s' (network address : string) :
  loadConfig w s = (Return (c, r), s') →
  (∀ what, btcdDial sys_Dial socks_Dial c network address ≠ Panic what)
  ∧ (∀ what, btcdLookup sys_LookupIP torLookupIP c address ≠ Panic what)
  ∧ (NoOnion c = true → endsIn address ".onion" →
     btcdDial sys_Dial socks_Dial c network address = Failure torDisabled
     ∧ btcdLookup sys_LookupIP torLookupIP c address = Failure torDisabled)
  ∧ (¬ endsIn address ".onion" →
     btcdDial sys_Dial socks_Dial c network address
     = match (if String.eqb (Proxy c) ""
              then sys_Dial network address
              else socks_Dial {| Addr := Proxy c; Username := ProxyUser c;
                                 Password := ProxyPass c |} network address) with
       | inl conn => Return conn
       | inr err => Failure err
       end).
Proof.
  intros Hrun. destruct (loadConfig_setup w s c r s' Hrun) as (c' & ->).
  pose proof (setupDialAndLookup_table c') as Htable.
  pose proof (setupDialAndLookup_proxy c') as Hproxy.
  injection Hproxy as -> -> -> ->.
  unfold strategies, spec_fields, spec_strategies in Htable.
  unfold btcdDial, btcdLookup.
  destruct (strings.HasSuffix address ".onion") eqn:Hsuffix.
  - assert (Hends : endsIn address ".onion") by (apply HasSuffix_spec, Hsuffix).
    destruct (String.eqb (Proxy c') ""), (String.eqb (OnionProxy c') ""), (NoOnion c');
      simpl in Htable; injection Htable as _ _ -> ->; simpl;
      (split; [intros what; repeat case_match; discriminate|]);
      (split; [intros what; repeat case_match; discriminate|]);
      (split; [intros Hno; try discriminate Hno; intros _; split; reflexivity
              |intros Hnot; contradiction]).
  - assert (Hends : ¬ endsIn address ".onion").
    { intros H%HasSuffix_spec. congruence. }
    destruct (String.eqb (Proxy c') ""), (String.eqb (OnionProxy c') ""), (NoOnion c');
      simpl in Htable; injection Htable as -> -> _ _; simpl;
      (split; [intros what; repeat case_match; discriminate|]);
      (split; [intros what; repeat case_match; discriminate|]);
      (split; [intros _ Hyes; contradiction|intros _; reflexivity]).
Qed.

End ReturnedDispatch.

(** The theorem at two pieces, both accepted. *)
Lemma debug_levels_set_in_order_witness :
  (parseAndSetDebugLevels plainWorld "PEER=debug,RPCS=trace" initialState).2
  = emitted [SetLogLevel "PEER" "debug"; SetLogLevel "RPCS" "trace"] initialState.
Proof.
  refine (eq_trans
            (debug_levels_set_in_order plainWorld "PEER=debug,RPCS=trace" initialState
               (parseAndSetDebugLevels plainWorld "PEER=debug,RPCS=trace" initialState).2
               _) _).
  - vm_compute. reflexivity.
  - vm_compute. reflexivity.
Defined.

(** The theorem at a level whose second piece names no subsystem: the
    level of PEER stays set. *)
Lemma debug_levels_kept_on_error_witness :
  ∃ e, parseAndSetDebugLevels plainWorld partlyValidDebugLevel initialState
       = (Failure e, emitted (flat_map pairEvents ["PEER=debug"]) initialState).
Proof.
  apply (debug_levels_kept_on_error plainWorld partlyValidDebugLevel
           ["PEER=debug"] "BOGUS=info" [] initialState).
  - left. vm_compute. reflexivity.
  - vm_compute. reflexivity.
  - constructor; [|constructor].
    split; [vm_compute; reflexivity|]. exists "PEER", "debug".
    split; [vm_compute; reflexivity|]. split; [vm_compute; reflexivity|].
    split; [vm_compute; reflexivity|vm_compute; reflexivity].
  - intros (_ & a & b & Ha & _ & Hin & _).
    vm_compute in Ha. injection Ha as <-.
    vm_compute in Hin. discriminate Hin.
Defined.

(** The theorem at --proxy=127.0.0.1:9050 --noonion: a hidden-service
    address is refused by the dial and by the lookup. *)
Lemma returned_config_dispatch_witness :
  btcdDial route_Dial route_socksDial (loadedConfig proxyNoOnionWorld) "tcp" "xyz.onion"
  = Failure torDisabled
  ∧ btcdLookup route_LookupIP route_torLookupIP (loadedConfig proxyNoOnionWorld)
               "xyz.onion"
    = Failure torDisabled.
Proof.
  refine (proj1 (proj2 (proj2
            (returned_config_dispatch route_Dial route_socksDial route_LookupIP
               route_torLookupIP proxyNoOnionWorld initialState
               (loadedConfig proxyNoOnionWorld) [] (finalState proxyNoOnionWorld)
               "tcp" "xyz.onion" _))) _ _).
  - vm_compute. reflexivity.
  - vm_compute. reflexivity.
  - exists "xyz". reflexivity.
Defined.
